(** * Leaderboard bot: ledger store, rank resolver and leaderboard renderer

    A shallow embedding of [bot/leaderboard.py], [bot/utils.py] and the
    [addpoints] command of [bot/commands.py], with the properties of the
    ledger (clamped point updates, ranked pagination, statistics), of the
    rank resolver and of the renderer's block splitting. *)

From Stdlib Require Import String Ascii ZArith List Bool Lia Permutation Sorted.
Import ListNotations.
Open Scope Z_scope.

(** ** Python values *)

(** A Python [str] is a sequence of Unicode code points; [len] and slicing
    count code points, so the embedding keeps them as a list. *)
Definition pystr := list N.

(** A literal written in the source with ASCII characters only. *)
Definition lit (s : string) : pystr := map N_of_ascii (list_ascii_of_string s).

Definition py_len (s : pystr) : Z := Z.of_nat (length s).

(** [s[:n]] for a non-negative constant [n]. *)
Definition slice_to (n : nat) (s : pystr) : pystr := firstn n s.

(** [str(n)] for an integer: decimal digits, most significant first.  The
    fuel is the number of binary digits, which bounds the number of
    decimal ones. *)
Fixpoint digits_of (fuel : nat) (n : Z) (acc : pystr) : pystr :=
  match fuel with
  | O => acc
  | S f =>
      let acc' := (48 + Z.to_N (n mod 10))%N :: acc in
      if n <? 10 then acc' else digits_of f (n / 10) acc'
  end.

Definition str_of_nonneg (n : Z) : pystr :=
  digits_of (S (Z.to_nat (Z.log2 n))) n [].

Definition minus_sign : N := 45%N.
Definition comma : N := 44%N.

Definition py_str (z : Z) : pystr :=
  if z <? 0 then minus_sign :: str_of_nonneg (- z) else str_of_nonneg z.

(** Thousands separators of the format [{:,}], over the digits taken least
    significant first; [k] counts the digits since the last separator. *)
Fixpoint group_from (k : nat) (rev_digits : pystr) : pystr :=
  match rev_digits with
  | [] => []
  | d :: rest =>
      match rest, k with
      | _ :: _, 2%nat => d :: comma :: group_from 0 rest
      | _, _ => d :: group_from (S k) rest
      end
  end.

Definition grouped (n : Z) : pystr :=
  rev (group_from 0 (rev (str_of_nonneg n))).

(** [f"{z:,}"]. *)
Definition py_format_commas (z : Z) : pystr :=
  if z <? 0 then minus_sign :: grouped (- z) else grouped z.

(** The decimal reading of a string of ASCII digits with an optional sign:
    what [int] gives on the strings [str] produces. *)
Fixpoint digits_value (s : pystr) (acc : Z) : option Z :=
  match s with
  | [] => Some acc
  | c :: s' =>
      if ((48 <=? c) && (c <=? 57))%N
      then digits_value s' (10 * acc + Z.of_N (c - 48))
      else None
  end.

Definition decimal_int (s : pystr) : option Z :=
  match s with
  | [] => None
  | c :: s' =>
      if (c =? minus_sign)%N
      then match s' with
           | [] => None
           | _ :: _ => option_map Z.opp (digits_value s' 0)
           end
      else digits_value s 0
  end.

(** Truthiness of an optional string argument ([if username:]): [None] and
    the empty string are both false. *)
Definition supplied (name : option pystr) : bool :=
  match name with
  | Some (_ :: _) => true
  | _ => false
  end.

(** The values the ledger functions return to Python callers. *)
Inductive pyval : Type :=
| PyNone
| PyBool (b : bool).

Definition truthy (v : pyval) : bool :=
  match v with
  | PyNone => false
  | PyBool b => b
  end.

Inductive level : Type := DEBUG | INFO | WARNING | ERROR.

(** ** The [leaderboard] table *)

Record entry : Type := mkEntry {
  guild_id : Z;
  user_id : Z;
  username : pystr;
  points : Z;
  last_updated : Z;
  created_at : Z
}.

(** Rows in their physical order; rows that compare equal under an
    [ORDER BY] keep this order. *)
Definition table := list entry.

Definition same_key (g u : Z) (e : entry) : bool :=
  (guild_id e =? g) && (user_id e =? u).

Definition in_guild (g : Z) (e : entry) : bool := guild_id e =? g.

(** The [PRIMARY KEY (guild_id, user_id)] and [CHECK (points >= 0)]
    constraints of the schema. *)
Definition key_of (e : entry) : Z * Z := (guild_id e, user_id e).

Definition ledger_inv (t : table) : Prop :=
  NoDup (map key_of t) /\ Forall (fun e => 0 <= points e) t.

(** ** The environment of one call *)

(** [pool] tells whether [self.pool] is set; [py_now] is [datetime.now()],
    [db_now] the server's [CURRENT_TIMESTAMP]; [fault n] tells whether the
    [n]-th storage call of the operation (acquire, begin, statement,
    commit or release, counted from 0) raises. *)
Record world : Type := mkWorld {
  pool : bool;
  py_now : Z;
  db_now : Z;
  fault : nat -> bool
}.

Definition no_fault (w : world) : Prop := forall n, fault w n = false.

Definition faulted (w : world) (k : nat) : Prop :=
  exists n, (n < k)%nat /\ fault w n = true.

(** ** Storage calls: state, faults and transactions *)

(** [Done a n t]: the computation returned [a] after [n] storage calls and
    left the table [t].  [Raised t]: an exception propagates, and [t] is
    what the store holds at that point. *)
Inductive res (A : Type) : Type :=
| Done (a : A) (n : nat) (t : table)
| Raised (t : table).
Arguments Done {A} a n t.
Arguments Raised {A} t.

Definition M (A : Type) : Type := world -> nat -> table -> res A.

Definition ret {A} (a : A) : M A := fun _ n t => Done a n t.

Definition bind {A B} (m : M A) (k : A -> M B) : M B :=
  fun w n t =>
    match m w n t with
    | Done a n' t' => k a w n' t'
    | Raised t' => Raised t'
    end.

Notation "x <- m ;; k" := (bind m (fun x => k))
  (at level 61, m at next level, right associativity).
Notation "m ;;; k" := (bind m (fun _ => k))
  (at level 61, right associativity).

(** [raise] of an exception in Python code (for instance
    [ZeroDivisionError]). *)
Definition py_raise {A} : M A := fun _ _ t => Raised t.

(** One storage call: it raises when the environment says so or when the
    statement itself is rejected ([f] gives [None]); a statement that
    raises has no effect. *)
Definition call {A} (f : world -> table -> option (A * table)) : M A :=
  fun w n t =>
    if fault w n then Raised t
    else match f w t with
         | Some (a, t') => Done a (S n) t'
         | None => Raised t
         end.

Definition query {A} (f : table -> A) : M A := call (fun _ t => Some (f t, t)).

(** [async with self.pool.acquire() as conn]: a connection is acquired,
    the block runs, and on every way out of the block the connection is
    released.  The release is a storage call too (the pool resets the
    connection), made when the block has had its effect: when it raises,
    the exception leaves the [async with] and the table stays as the
    block left it. *)
Definition acquire {A} (body : M A) : M A :=
  fun w n t =>
    if fault w n then Raised t
    else match body w (S n) t with
         | Done a n' t' => if fault w n' then Raised t' else Done a (S n') t'
         | Raised t' => Raised t'
         end.

(** [async with conn.transaction()]: begin, body, commit; an exception in
    the body, or a failing commit, rolls the table back to what it was at
    the beginning.  A [return] inside the block leaves it normally, so the
    transaction commits. *)
Definition transaction {A} (body : M A) : M A :=
  fun w n t =>
    if fault w n then Raised t
    else match body w (S n) t with
         | Done a n' t' => if fault w n' then Raised t else Done a (S n') t'
         | Raised _ => Raised t
         end.

(** [try: ... except Exception: return handler] around a whole operation:
    the value returned and the table left behind. *)
Definition try_except {A} (m : M A) (handler : A) (w : world) (t : table)
  : A * table :=
  match m w 0%nat t with
  | Done a _ t' => (a, t')
  | Raised t' => (handler, t')
  end.

(** ** SQL statements over the table *)

(** The trigger [update_leaderboard_timestamp]: [BEFORE UPDATE ... FOR EACH
    ROW] sets [NEW.last_updated = CURRENT_TIMESTAMP]. *)
Definition update_last_updated (w : world) (e : entry) : entry :=
  mkEntry (guild_id e) (user_id e) (username e) (points e) (db_now w)
          (created_at e).

(** [UPDATE leaderboard SET ... WHERE p]: the rows changed, in place, and
    their number. *)
Definition sql_update (w : world) (p : entry -> bool) (set : entry -> entry)
    (t : table) : Z * table :=
  (Z.of_nat (length (filter p t)),
   map (fun e => if p e then update_last_updated w (set e) else e) t).

(** [DELETE FROM leaderboard WHERE p]. *)
Definition sql_delete (p : entry -> bool) (t : table) : Z * table :=
  (Z.of_nat (length (filter p t)), filter (fun e => negb (p e)) t).

(** [INSERT ... ON CONFLICT (guild_id, user_id) DO UPDATE SET ...]. *)
Definition sql_upsert (w : world) (new : entry) (set : entry -> entry)
    (t : table) : table :=
  if existsb (same_key (guild_id new) (user_id new)) t
  then snd (sql_update w (same_key (guild_id new) (user_id new)) set t)
  else t ++ [new].

(** The ordering [ORDER BY points DESC, last_updated ASC]. *)
Definition before (a b : entry) : bool :=
  (points b <? points a)
  || ((points a =? points b) && (last_updated a <=? last_updated b)).

Section OrderBy.
Context {A : Type} (le : A -> A -> bool).

Fixpoint insert_row (x : A) (l : list A) : list A :=
  match l with
  | [] => [x]
  | y :: l' => if le x y then x :: l else y :: insert_row x l'
  end.

(** A stable sort: a row goes before the first row it is not after. *)
Definition order_by (l : list A) : list A := fold_right insert_row [] l.

End OrderBy.

(** [ROW_NUMBER() OVER (ORDER BY le)]: the rows of the window, numbered
    from 1 in the window's order. *)
Fixpoint number_from {A} (k : Z) (l : list A) : list (Z * A) :=
  match l with
  | [] => []
  | x :: l' => (k, x) :: number_from (k + 1) l'
  end.

Definition row_number_over {A} (le : A -> A -> bool) (l : list A)
  : list (Z * A) :=
  number_from 1 (order_by le l).

(** The range of an [INTEGER] column ([points INTEGER]): binding a value
    outside it to a parameter of that type raises. *)
Definition int4_max : Z := 2147483647.

Definition int4 (z : Z) : bool := (- 2147483648 <=? z) && (z <=? int4_max).

(** [LIMIT lim OFFSET off]; the server rejects a negative value. *)
Definition limit_offset {A} (lim off : Z) (l : list A) : option (list A) :=
  if (lim <? 0) || (off <? 0) then None
  else Some (firstn (Z.to_nat lim) (skipn (Z.to_nat off) l)).

(** ** [LeaderboardManager] *)

(** The row [add_member] and [update_points] insert for a new member. *)
Definition new_entry (w : world) (g u : Z) (name : pystr) : entry :=
  mkEntry g u (slice_to 255 name) 0 (py_now w) (py_now w).

Definition set_username (name : pystr) (e : entry) : entry :=
  mkEntry (guild_id e) (user_id e) (slice_to 255 name) (points e)
          (last_updated e) (created_at e).

Definition set_username_touch (w : world) (name : pystr) (e : entry) : entry :=
  mkEntry (guild_id e) (user_id e) (slice_to 255 name) (points e)
          (py_now w) (created_at e).

Definition set_points (w : world) (p : Z) (e : entry) : entry :=
  mkEntry (guild_id e) (user_id e) (username e) p (py_now w) (created_at e).

(** [add_member]: every path returns [None]. *)
Definition add_member (w : world) (g u : Z) (name : pystr) (t : table)
  : pyval * table :=
  if negb (pool w) then (PyNone, t)
  else try_except
         (acquire
            (call (fun w t =>
                     Some (tt, sql_upsert w (new_entry w g u name)
                                          (set_username_touch w name) t))) ;;;
          ret PyNone)
         PyNone w t.

(** [remove_member]: the status of the [DELETE] only selects the record
    that is logged; every path returns [None].  The second component is
    the level of the record logged. *)
Definition remove_member (w : world) (g u : Z) (t : table)
  : (pyval * level) * table :=
  if negb (pool w) then ((PyNone, ERROR), t)
  else try_except
         (result <-
            acquire (call (fun _ t => Some (sql_delete (same_key g u) t))) ;;
          if result =? 1 then ret (PyNone, INFO) else ret (PyNone, WARNING))
         (PyNone, ERROR) w t.

Definition fetch_points (g u : Z) (t : table) : option Z :=
  option_map points (find (same_key g u) t).

(** [update_points].  [new_points] is a Python integer of any size; the
    [UPDATE] binds it to [$3], the [INTEGER] column [points], so a value
    out of that range makes the statement raise: the transaction is rolled
    back and the handler returns [False]. *)
Definition update_points (w : world) (g u : Z) (points_change : Z)
    (name : option pystr) (t : table) : bool * table :=
  if negb (pool w) then (false, t)
  else try_except
         (acquire
            (transaction
               ((match name with
                 | Some nm =>
                     if supplied name
                     then call (fun w t =>
                                  Some (tt, sql_upsert w (new_entry w g u nm)
                                                       (set_username nm) t))
                     else ret tt
                 | None => ret tt
                 end) ;;;
                current_points <- query (fetch_points g u) ;;
                match current_points with
                | None => ret false
                | Some c =>
                    let new_points := c + points_change in
                    let new_points :=
                      if new_points <? 0 then 0 else new_points in
                    result <- call (fun w t =>
                                      if int4 new_points
                                      then Some (sql_update w (same_key g u)
                                                   (set_points w new_points) t)
                                      else None) ;;
                    if result =? 0 then ret false
                    else query (find (same_key g u)) ;;; ret true
                end)))
         false w t.

(** One row of a leaderboard page: the dictionary built by
    [_get_leaderboard_async], with the keys [rank], [user_id] (a string),
    [username], [points] and [last_updated] (the time stamp whose ISO
    text the dictionary holds; every row the program writes has one). *)
Record lbrow : Type := mkRow {
  rank : Z;
  lb_user_id : pystr;
  lb_username : pystr;
  lb_points : Z;
  lb_last_updated : Z
}.

Definition format_row (r : Z * entry) : lbrow :=
  mkRow (fst r) (py_str (user_id (snd r))) (username (snd r))
        (points (snd r)) (last_updated (snd r)).

Definition visible (g : Z) (e : entry) : bool :=
  in_guild g e && (0 <=? points e).

(** The page query: window over the rows of the guild, outer [ORDER BY] on
    the same keys, then [LIMIT]/[OFFSET]. *)
Definition page_query (g per_page offset : Z) (t : table)
  : option (list (Z * entry)) :=
  let numbered := row_number_over before (filter (visible g) t) in
  let ordered := order_by (fun a b => before (snd a) (snd b)) numbered in
  limit_offset per_page offset ordered.

Definition _get_leaderboard_async (w : world) (g page per_page : Z)
    (t : table) : list lbrow * Z * Z :=
  if negb (pool w) then ([], 0, 0)
  else fst (try_except
         (acquire
            (total_members <-
               query (fun t => Z.of_nat (length (filter (visible g) t))) ;;
             if total_members =? 0 then ret ([], 0, 0)
             else if per_page =? 0 then py_raise
             else
               let total_pages :=
                 Z.max 1 ((total_members + per_page - 1) / per_page) in
               let page := Z.max 1 (Z.min page total_pages) in
               let offset := (page - 1) * per_page in
               rows <- call (fun _ t =>
                               option_map (fun r => (r, t))
                                          (page_query g per_page offset t)) ;;
               ret (map format_row rows, page, total_pages)))
         ([], 0, 0) w t).

(** The dictionary returned by [get_user_stats]. *)
Record stats : Type := mkStats {
  st_username : pystr;
  st_points : Z;
  st_rank : Z;
  st_last_updated : Z;
  st_created_at : Z
}.

(** The statistics query: [WHERE guild_id = $1 AND user_id = $2] is
    applied before the window function, so the window holds the rows of
    that one key only. *)
Definition stats_query (g u : Z) (t : table) : option stats :=
  match row_number_over before (filter (same_key g u) t) with
  | [] => None
  | (r, e) :: _ =>
      Some (mkStats (username e) (points e) r (last_updated e) (created_at e))
  end.

Definition get_user_stats (w : world) (g u : Z) (t : table) : option stats :=
  if negb (pool w) then None
  else fst (try_except (acquire (query (stats_query g u))) None w t).

(** ** Rank resolver ([bot/utils.py]) *)

(** A guild member as the resolver and the commands see it: [roles] holds
    the [id] of each role of [member.roles], in that order. *)
Record member : Type := mkMember {
  member_id : Z;
  bot : bool;
  display_name : pystr;
  roles : list Z
}.

Fixpoint dict_get {V} (k : Z) (d : list (Z * V)) : option V :=
  match d with
  | [] => None
  | (k', v) :: d' => if k' =? k then Some v else dict_get k d'
  end.

Definition special_roles : list (Z * string) :=
  [ (1266143259801948261, "Demon God"%string);
    (1281115906717650985, "Heavenly Demon"%string);
    (1276607675735736452, "Guardian"%string);
    (1304283446016868424, "Supreme Demon"%string);
    (1266242655642456074, "Demon Council"%string);
    (1390279781827874937, "Young Master"%string) ].

Definition rank_roles (title : string) : list Z :=
  if String.eqb title "Core Disciple"
  then [1391059979167072286; 1391060071189971075; 1382602945752727613]
  else if String.eqb title "Inner Disciple"
  then [1268528848740290580; 1308823860740624384; 1391059841505689680]
  else if String.eqb title "Outer Disciple"
  then [1389474689818296370; 1266826177163694181; 1308823565881184348]
  else [].

Definition is_in (r : Z) (ids : list Z) : bool := existsb (Z.eqb r) ids.

(** [any(role.id in rank_roles[title] for role in member.roles)]. *)
Definition user_has_role (title : string) (m : member) : bool :=
  existsb (fun r => is_in r (rank_roles title)) (roles m).

(** The loop over [member.roles] that returns at the first special role. *)
Fixpoint first_special (rs : list Z) : option string :=
  match rs with
  | [] => None
  | r :: rs' =>
      match dict_get r special_roles with
      | Some title => Some title
      | None => first_special rs'
      end
  end.

(** The ranks given by points alone (the last [if] chain of each path). *)
Definition points_only (points : Z) : string :=
  if 750 <=? points then "Inner Disciple"
  else if 350 <=? points then "Inner Disciple"
  else if 10 <=? points then "Outer Disciple"
  else "Servant".

Definition get_rank_title_by_points (points : Z) (member : option member)
  : string :=
  match member with
  | Some m =>
      match first_special (roles m) with
      | Some title => title
      | None =>
          if (750 <=? points) && user_has_role "Core Disciple" m
          then "Core Disciple"
          else if (350 <=? points) && user_has_role "Inner Disciple" m
          then "Inner Disciple"
          else if (10 <=? points) && user_has_role "Outer Disciple" m
          then "Outer Disciple"
          else if points <? 10 then "Servant"
          else points_only points
      end
  | None => points_only points
  end.

(** ** Leaderboard renderer ([bot/utils.py]) *)

Definition newline : N := 10%N.
Definition bullet : N := 8226%N.
Definition zero_width_space : N := 8203%N.

(** [str.isspace] on one code point. *)
Definition py_isspace (c : N) : bool :=
  existsb (N.eqb c)
    [9; 10; 11; 12; 13; 28; 29; 30; 31; 32; 133; 160; 5760; 8192; 8193; 8194;
     8195; 8196; 8197; 8198; 8199; 8200; 8201; 8202; 8232; 8233; 8239; 8287;
     12288]%N.

(** Truthiness of [text.strip()]: some character is not white space. *)
Definition strip_nonempty (text : pystr) : bool :=
  existsb (fun c => negb (py_isspace c)) text.

Record field : Type := mkField {
  field_name : pystr;
  field_value : pystr;
  field_inline : bool
}.

(** The embed built by the renderer; its colour and timestamp carry no
    text and are left out. *)
Record embed : Type := mkEmbed {
  title : pystr;
  description : option pystr;
  fields : list field;
  footer : option pystr
}.

(** The guild object handed to the renderer: [get_member] is its lookup of
    a member by id. *)
Record guild : Type := mkGuild {
  get_member : Z -> option member
}.

Fixpoint set_nth {A} (i : nat) (v : A) (l : list A) : list A :=
  match l, i with
  | [], _ => []
  | _ :: l', O => v :: l'
  | x :: l', S i' => x :: set_nth i' v l'
  end.

Definition username_display (name : pystr) : pystr :=
  if 12 <? py_len name then slice_to 12 name ++ lit "..." else name.

Definition rank_display (rank : Z) : pystr :=
  if rank =? 1 then lit "1st"
  else if rank =? 2 then lit "2nd"
  else if rank =? 3 then lit "3rd"
  else py_str rank ++ lit "th".

Section Renderer.

(** [int(s)] on a string, [None] when it raises [ValueError]: a built-in
    of the language. *)
Variable py_int : pystr -> option Z.

(** [format_large_number], which formats through floating-point division;
    only the text it gives is used here. *)
Variable format_large_number : Z -> pystr.

(** [guild.get_member(int(member['user_id']))] under [try/except: pass]. *)
Definition discord_member_of (g : option guild) (row : lbrow) : option member :=
  match g with
  | Some gd =>
      match py_int (lb_user_id row) with
      | Some uid => get_member gd uid
      | None => None
      end
  | None => None
  end.

(** The line of one row:
    [f"{rank_display} {username_display} - {points:,} pts • {rank_title}\n"]. *)
Definition entry_text (g : option guild) (row : lbrow) : pystr :=
  let rank_title :=
    get_rank_title_by_points (lb_points row) (discord_member_of g row) in
  rank_display (rank row) ++ lit " " ++ username_display (lb_username row)
  ++ lit " - " ++ py_format_commas (lb_points row) ++ lit " pts "
  ++ [bullet] ++ lit " " ++ lit rank_title ++ [newline].

(** One iteration of the loop, before its [break] test: the state is
    [rankings_texts] and [current_field]. *)
Definition add_entry (st : list pystr * nat) (entry : pystr)
  : list pystr * nat :=
  let '(rankings_texts, current_field) := st in
  if 950 <? py_len (nth current_field rankings_texts [] ++ entry)
  then (rankings_texts ++ [entry], S current_field)
  else (set_nth current_field (nth current_field rankings_texts [] ++ entry)
                rankings_texts,
        current_field).

(** The loop over the rows, with [if current_field >= 20: break]. *)
Fixpoint fill_fields (g : option guild) (rows : list lbrow)
    (st : list pystr * nat) : list pystr * nat :=
  match rows with
  | [] => st
  | row :: rest =>
      let st' := add_entry st (entry_text g row) in
      if (20 <=? snd st')%nat then st' else fill_fields g rest st'
  end.

Definition rankings_texts (g : option guild) (rows : list lbrow)
  : list pystr :=
  fst (fill_fields g rows ([[]], 0%nat)).

(** The ranking blocks added to the embed: the non-blank texts. *)
Definition ranking_fields (g : option guild) (rows : list lbrow)
  : list field :=
  map (fun text => mkField [zero_width_space] text false)
      (filter strip_nonempty (rankings_texts g rows)).

Definition header_text (current_page total_pages : Z) (guild_name : pystr)
    (total_guild_points : option Z) : pystr :=
  lit "**Cultivation Leaderboard**" ++ [newline]
  ++ guild_name ++ [newline]
  ++ (match total_guild_points with
      | Some total =>
          if total =? 0 then []
          else lit "Total Sect Contribution: **" ++ format_large_number total
               ++ lit "**" ++ [newline]
      | None => []
      end)
  ++ lit "Page " ++ py_str current_page ++ lit " of " ++ py_str total_pages
  ++ lit " " ++ [bullet]
  ++ lit " Showing up the members of heavenly demon sect.".

Definition stats_text (rows : list lbrow) (current_page total_pages : Z)
  : pystr :=
  lit "**Page Total:** "
  ++ format_large_number (fold_right Z.add 0 (map lb_points rows))
  ++ [newline]
  ++ lit "**Page:** " ++ py_str current_page ++ lit "/" ++ py_str total_pages
  ++ [newline]
  ++ lit "**Members on Page:** " ++ py_str (Z.of_nat (length rows)).

Definition create_leaderboard_embed (leaderboard_data : list lbrow)
    (current_page total_pages : Z) (guild_name : pystr) (g : option guild)
    (total_guild_points : option Z) : embed :=
  match leaderboard_data with
  | [] =>
      mkEmbed (lit "Heavenly Demon Sect Leaderboard") None
        [mkField (lit "No Data Available")
           (lit "The leaderboard is currently empty." ++ [newline]
            ++ lit "Members will appear here as they gain contribution points.")
           false]
        None
  | _ :: _ =>
      mkEmbed (lit "Heavenly Demon Sect Leaderboard")
        (Some (header_text current_page total_pages guild_name
                           total_guild_points))
        (ranking_fields g leaderboard_data
         ++ [mkField (lit "Statistics")
                     (stats_text leaderboard_data current_page total_pages)
                     true])
        (Some (lit "Heavenly Demon Sect " ++ [bullet] ++ lit " Page "
               ++ py_str current_page ++ lit "/" ++ py_str total_pages
               ++ lit " " ++ [bullet] ++ lit " Use buttons to navigate"))
  end.

(** [validate_points_input]. *)
Definition validate_points_input (points_str : pystr) : option Z :=
  match py_int points_str with
  | Some points =>
      if (points <? -10000) || (points >? 10000) then None else Some points
  | None => None
  end.

End Renderer.

(** ** The [addpoints] command ([bot/commands.py]) *)

(** What the command answers the interaction with. *)
Inductive reply : Type :=
| InvalidTarget
| InvalidPoints
| PointsUpdated (old_points points_change new_points : Z)
| UpdateFailed.

(** The three ledger calls of the command each run in their own
    environment: [w1] for the statistics read before the update, [w2] for
    [update_points], [w3] for the statistics read after it. *)
Definition add_points (w1 w2 w3 : world) (g : Z) (user : member) (pts : Z)
    (t : table) : reply * table :=
  if bot user then (InvalidTarget, t)
  else if (pts <? -10000) || (pts >? 10000) then (InvalidPoints, t)
  else
    let current_stats := get_user_stats w1 g (member_id user) t in
    let old_points :=
      match current_stats with Some s => st_points s | None => 0 end in
    let '(success, t') :=
      update_points w2 g (member_id user) pts (Some (display_name user)) t in
    if success
    then
      let updated_stats := get_user_stats w3 g (member_id user) t' in
      let new_points :=
        match updated_stats with Some s => st_points s | None => 0 end in
      (PointsUpdated old_points pts new_points, t')
    else (UpdateFailed, t').

(** * The rest of the ledger store ([bot/leaderboard.py]) *)

(** [SUM(points)] over rows. *)
Definition sum_points (l : list entry) : Z :=
  fold_right (fun e s => points e + s) 0 l.

(** [get_total_guild_points] of [bot/utils.py]:
    [SELECT COALESCE(SUM(points), 0) ... WHERE guild_id = $1], then
    [result or 0]; 0 when the pool is not set or a storage call raises. *)
Definition get_total_guild_points (w : world) (g : Z) (t : table) : Z :=
  if negb (pool w) then 0
  else fst (try_except
              (acquire
                 (result <-
                    query (fun t => sum_points (filter (in_guild g) t)) ;;
                  ret (if result =? 0 then 0 else result)))
              0 w t).

(** [initialize_guild]: [add_member] for every member that is not a bot,
    in the order of [guild.members]; the [k]-th call runs in the
    environment [ws k]. *)
Fixpoint add_members (ws : nat -> world) (k : nat) (g : Z)
    (ms : list member) (t : table) : table :=
  match ms with
  | [] => t
  | m :: ms' =>
      add_members ws (S k) g ms'
        (snd (add_member (ws k) g (member_id m) (display_name m) t))
  end.

Definition initialize_guild (w : world) (ws : nat -> world) (g : Z)
    (members : list member) (t : table) : table :=
  if negb (pool w) then t
  else add_members ws 0 g (filter (fun m => negb (bot m)) members) t.

(** [cleanup_old_data]: the cutoff date is computed with [timedelta],
    a name the module never imports ([from datetime import datetime]
    only), so evaluating it raises [NameError] inside the [try]; the
    [DELETE] that follows is written as in the source. *)
Definition cleanup_old_data (w : world) (days_old : Z) (t : table)
  : pyval * table :=
  if negb (pool w) then (PyNone, t)
  else try_except
         (acquire
            (cutoff_date <- (py_raise : M Z) ;;
             call (fun _ t =>
                     Some (sql_delete
                             (fun e => (last_updated e <? cutoff_date)
                                       && (points e =? 0)) t)) ;;;
             ret PyNone))
         PyNone w t.

Section Search.

(** [username ILIKE pattern] of the server: case-insensitive matching of
    a pattern in which [%] and [_] are wild cards. *)
Variable ilike : pystr -> pystr -> bool.

Definition percent : N := 37%N.

(** The rows of [search_users] for the search text [text] (the argument
    [query] of the source, matched as [f'%{query}%']): the window function
    numbers the rows that match, in leaderboard order; [LIMIT 50]. *)
Definition search_query (g : Z) (text : pystr) (t : table)
  : list (Z * entry) :=
  let matches :=
    filter (fun e => in_guild g e
                     && ilike (username e) ([percent] ++ text ++ [percent]))
           t in
  firstn 50 (order_by (fun a b => before (snd a) (snd b))
                      (row_number_over before matches)).

Definition search_users (w : world) (g : Z) (text : pystr) (t : table)
  : list lbrow :=
  if negb (pool w) then []
  else fst (try_except
              (acquire
                 (rows <- query (search_query g text) ;;
                  ret (map format_row rows)))
              [] w t).

End Search.

(** ** The [guild_config] table *)

Fixpoint pystr_eqb (a b : pystr) : bool :=
  match a, b with
  | [], [] => true
  | x :: a', y :: b' => (x =? y)%N && pystr_eqb a' b'
  | _, _ => false
  end.

Record config_row : Type := mkConfig {
  cfg_guild : Z;
  cfg_key : pystr;
  cfg_value : pystr
}.

Definition config_table := list config_row.

Definition cfg_match (g : Z) (key : pystr) (r : config_row) : bool :=
  (cfg_guild r =? g) && pystr_eqb (cfg_key r) key.

(** The values that go in and come out of the configuration: an integer,
    a string or [None]. *)
Inductive cfgval : Type :=
| CfgNone
| CfgInt (z : Z)
| CfgStr (s : pystr).

(** [str(config_value)]. *)
Definition cfg_str (v : cfgval) : pystr :=
  match v with
  | CfgNone => lit "None"
  | CfgInt z => py_str z
  | CfgStr s => s
  end.

(** [INSERT ... ON CONFLICT (guild_id, config_key) DO UPDATE SET
    config_value = $3]. *)
Definition cfg_upsert (g : Z) (key value : pystr) (c : config_table)
  : config_table :=
  if existsb (cfg_match g key) c
  then map (fun r => if cfg_match g key r then mkConfig g key value else r) c
  else c ++ [mkConfig g key value].

(** [set_guild_config]: it does not test the pool, so an unset pool raises
    at [self.pool.acquire()] and is caught like a storage fault.  Its
    storage calls are the acquire, the statement and the release; a
    release that raises gives [False] with the value written. *)
Definition set_guild_config (w : world) (g : Z) (key : pystr) (v : cfgval)
    (c : config_table) : bool * config_table :=
  if negb (pool w) || fault w 0 || fault w 1 then (false, c)
  else (negb (fault w 2), cfg_upsert g key (cfg_str v) c).

Section Config.

(** [str.isdigit] on one character and [int] on a string: built-ins of
    the language. *)
Variable is_digit_char : N -> bool.
Variable py_int : pystr -> option Z.

(** [result.isdigit()]: a non-empty string of digit characters. *)
Definition py_isdigit (s : pystr) : bool :=
  match s with
  | [] => false
  | _ :: _ => forallb is_digit_char s
  end.

(** [get_guild_config]: a stored text made of digits comes back as an
    integer; an [int] that raises is caught and gives the default, and so
    is a storage call that raises (the acquire, the query or the
    release). *)
Definition get_guild_config (w : world) (g : Z) (key : pystr)
    (default_value : cfgval) (c : config_table) : cfgval :=
  if negb (pool w) || fault w 0 || fault w 1 || fault w 2 then default_value
  else match find (cfg_match g key) c with
       | Some row =>
           if py_isdigit (cfg_value row)
           then match py_int (cfg_value row) with
                | Some n => CfgInt n
                | None => default_value
                end
           else CfgStr (cfg_value row)
       | None => default_value
       end.

End Config.

(** * The rest of the helpers ([bot/utils.py]) *)

(** [Colors.PRIMARY] and [Colors.RANK_COLORS]. *)
Definition PRIMARY : Z := 0x2C3E50.

Definition RANK_COLORS : list (string * Z) :=
  [ ("Demon God"%string, 0x36393F);
    ("Heavenly Demon"%string, 0x4B0082);
    ("Supreme Demon"%string, 0xE74C3C);
    ("Guardian"%string, 0x3498DB);
    ("Demon Council"%string, 0x9B59B6);
    ("Young Master"%string, 0x3498DB);
    ("Core Disciple"%string, 0xF1C40F);
    ("Inner Disciple"%string, 0x3498DB);
    ("Outer Disciple"%string, 0x95A5A6);
    ("Servant"%string, 0x7F8C8D) ].

Fixpoint str_dict_get {V} (k : string) (d : list (string * V)) : option V :=
  match d with
  | [] => None
  | (k', v) :: d' => if String.eqb k' k then Some v else str_dict_get k d'
  end.

(** [get_rank_color]: [RANK_COLORS.get(rank_title, PRIMARY)]. *)
Definition get_rank_color (rank_title : string) : Z :=
  match str_dict_get rank_title RANK_COLORS with
  | Some c => c
  | None => PRIMARY
  end.

Definition rank_progression : list (string * Z) :=
  [ ("Servant"%string, 0); ("Outer Disciple"%string, 10);
    ("Inner Disciple"%string, 350); ("Core Disciple"%string, 750) ].

Definition special_ranks : list string :=
  [ "Demon God"; "Heavenly Demon"; "Guardian"; "Supreme Demon";
    "Demon Council"; "Young Master" ]%string.

(** The loop of [get_next_rank_info] over the progression: at the rank,
    the entry after it if there is one. *)
Fixpoint next_in_progression (current_rank : string)
    (progression : list (string * Z)) : option (Z * string) :=
  match progression with
  | [] => None
  | (rank_name, _) :: rest =>
      if String.eqb current_rank rank_name
      then match rest with
           | (next_rank_name, next_threshold) :: _ =>
               Some (next_threshold, next_rank_name)
           | [] => None
           end
      else next_in_progression current_rank rest
  end.

(** [get_next_rank_info]: the current rank, and the next threshold with
    the next rank's name when there is one. *)
Definition get_next_rank_info (points : Z) (m : option member)
  : string * option (Z * string) :=
  let current_rank := get_rank_title_by_points points m in
  if existsb (String.eqb current_rank) special_ranks
  then (current_rank, None)
  else (current_rank, next_in_progression current_rank rank_progression).

(** [get_user_rank_position]: one more than the index of the first row
    with at most [user_points] points, or one more than the length. *)
Fixpoint rank_position_from (i : Z) (user_points : Z) (data : list lbrow)
  : Z :=
  match data with
  | [] => i + 1
  | row :: rest =>
      if lb_points row <=? user_points then i + 1
      else rank_position_from (i + 1) user_points rest
  end.

Definition get_user_rank_position (user_points : Z) (data : list lbrow) : Z :=
  rank_position_from 0 user_points data.

(** [s[:k]] for any integer [k]: a negative [k] counts from the end. *)
Definition py_slice_to (k : Z) (s : pystr) : pystr :=
  if k <? 0 then firstn (length s - Z.to_nat (- k)) s
  else firstn (Z.to_nat k) s.

(** [truncate_text]. *)
Definition truncate_text (text : pystr) (max_length : Z) : pystr :=
  if py_len text <=? max_length then text
  else py_slice_to (max_length - 3) text ++ lit "...".

(** [format_points_change]. *)
Definition format_points_change (change : Z) : pystr :=
  if change >? 0 then lit "+" ++ py_str change
  else if change <? 0 then py_str change
  else lit "0".

(** * Leaderboard views ([bot/commands.py]) *)

(** A [LeaderboardView] object.  [view_id] stands for the identity of the
    object (the class defines no equality, so [in] and [remove] on the
    list of views compare identities); [has_message] tells whether
    [self.message] is set; the three [..._disabled] fields are the
    [disabled] flags of the buttons Previous, My Stats and Next. *)
Record view : Type := mkView {
  view_id : nat;
  v_guild_id : Z;
  v_per_page : Z;
  current_page : Z;
  v_total_pages : Z;
  leaderboard_data : list lbrow;
  v_total_guild_points : Z;
  is_active : bool;
  has_message : bool;
  previous_disabled : bool;
  stats_disabled : bool;
  next_disabled : bool;
  stopped : bool
}.

(** What [message.edit] does: it succeeds, raises [discord.NotFound],
    raises another [discord.HTTPException] with a status, or raises
    something else. *)
Inductive edit_result : Type :=
| EditOk
| EditNotFound
| EditHttp (status : Z)
| EditError.

(** The environment of one refresh of a view: the environments of its two
    ledger reads and the outcome of the edit of its message. *)
Record view_env : Type := mkViewEnv {
  lb_world : world;
  total_world : world;
  edit_outcome : edit_result
}.

(** [fetch_leaderboard_data]: the page, the page number and the number of
    pages come from [_get_leaderboard_async], the total from
    [get_total_guild_points]; the manager has no attribute [bot], so
    [self.guild] keeps its value [None]. *)
Definition fetch_leaderboard_data (e : view_env) (t : table) (v : view)
  : view :=
  let '(data, page, total) :=
    _get_leaderboard_async (lb_world e) (v_guild_id v) (current_page v)
                           (v_per_page v) t in
  mkView (view_id v) (v_guild_id v) (v_per_page v) page total data
         (get_total_guild_points (total_world e) (v_guild_id v) t)
         (is_active v) (has_message v) (previous_disabled v)
         (stats_disabled v) (next_disabled v) (stopped v).

(** [update_button_states]. *)
Definition update_button_states (v : view) : view :=
  mkView (view_id v) (v_guild_id v) (v_per_page v) (current_page v)
         (v_total_pages v) (leaderboard_data v) (v_total_guild_points v)
         (is_active v) (has_message v)
         (current_page v <=? 1) (stats_disabled v)
         (current_page v >=? v_total_pages v) (stopped v).

(** The state of the object after [self.is_active = False] and
    [cleanup_view]: every button disabled, the view stopped.  Its removal
    from the list of views is [remove_view] below. *)
Definition retire (v : view) : view :=
  mkView (view_id v) (v_guild_id v) (v_per_page v) (current_page v)
         (v_total_pages v) (leaderboard_data v) (v_total_guild_points v)
         false (has_message v) true true true true.

(** Whether the edit tells that the message is gone. *)
Definition message_gone (r : edit_result) : bool :=
  match r with
  | EditNotFound => true
  | EditHttp status => status =? 404
  | _ => false
  end.

(** [auto_update_leaderboard]: the state of the object afterwards, and
    whether it took itself out of the list of views. *)
Definition auto_update_leaderboard (e : view_env) (t : table) (v : view)
  : view * bool :=
  let v1 := fetch_leaderboard_data e t v in
  if has_message v1
  then
    let v2 := update_button_states v1 in
    if message_gone (edit_outcome e) then (retire v2, true) else (v2, false)
  else (v1, false).

(** [active_leaderboard_views.remove(view)]: the first occurrence. *)
Fixpoint remove_view (id : nat) (views : list view) : list view :=
  match views with
  | [] => []
  | x :: rest =>
      if (view_id x =? id)%nat then rest else x :: remove_view id rest
  end.

(** The object [v] mutated in place: every reference to it in the list
    sees its new state. *)
Definition store_view (v : view) (views : list view) : list view :=
  map (fun x => if (view_id x =? view_id v)%nat then v else x) views.

(** [update_active_leaderboards]: the loop over the copy
    [active_leaderboard_views[:]], acting on the list itself. *)
Fixpoint update_views (env : nat -> view_env) (t : table) (g : Z)
    (snapshot : list view) (views : list view) : list view :=
  match snapshot with
  | [] => views
  | v :: rest =>
      if (v_guild_id v =? g) && is_active v
      then
        let '(v', removed) := auto_update_leaderboard (env (view_id v)) t v in
        update_views env t g rest
          (if removed then remove_view (view_id v) views
           else store_view v' views)
      else update_views env t g rest views
  end.

Definition update_active_leaderboards (env : nat -> view_env) (t : table)
    (g : Z) (active_leaderboard_views : list view) : list view :=
  update_views env t g active_leaderboard_views active_leaderboard_views.

Definition with_page (page : Z) (v : view) : view :=
  mkView (view_id v) (v_guild_id v) (v_per_page v) page
         (v_total_pages v) (leaderboard_data v) (v_total_guild_points v)
         (is_active v) (has_message v) (previous_disabled v)
         (stats_disabled v) (next_disabled v) (stopped v).

(** [previous_page] and [next_page]: the page moves by one when the guard
    allows, the data are fetched again and [update_embed] sets the
    buttons; whether the interaction can be answered does not change the
    view. *)
Definition previous_page (e : view_env) (t : table) (v : view) : view :=
  if current_page v >? 1
  then update_button_states
         (fetch_leaderboard_data e t (with_page (current_page v - 1) v))
  else v.

Definition next_page (e : view_env) (t : table) (v : view) : view :=
  if current_page v <? v_total_pages v
  then update_button_states
         (fetch_leaderboard_data e t (with_page (current_page v + 1) v))
  else v.

(** * Role commands and role rewards
      ([bot/role_commands.py], [bot/role_rewards.py]) *)

(** What [assignrolepoints] answers. *)
Inductive role_reply : Type :=
| InvalidRoleId
| RoleNotFound
| NoMembersFound
| AssignmentComplete (success_count members_processed : nat).

(** The loop of [assign_role_points] over [members_with_role]: the [k]-th
    call of [update_points] runs in the environment [ws k]; the count is
    [success_count]. *)
Fixpoint assign_loop (ws : nat -> world) (k : nat) (g pts : Z)
    (ms : list member) (t : table) : nat * table :=
  match ms with
  | [] => (0%nat, t)
  | m :: rest =>
      let '(success, t1) :=
        update_points (ws k) g (member_id m) pts (Some (display_name m)) t in
      let '(n, t2) := assign_loop ws (S k) g pts rest t1 in
      (if success then S n else n, t2)
  end.

Section RoleCommands.

Variable py_int : pystr -> option Z.

(** [assign_role_points]: [guild_roles] holds the ids of the roles of the
    guild ([guild.get_role] gives [None] for any other id), [members] is
    [guild.members].  The amount is passed to [update_points] as it
    is. *)
Definition assign_role_points (ws : nat -> world) (g : Z)
    (guild_roles : list Z) (members : list member) (role_id : pystr)
    (pts : Z) (t : table) : role_reply * table :=
  match py_int role_id with
  | None => (InvalidRoleId, t)
  | Some role_id_int =>
      if negb (is_in role_id_int guild_roles) then (RoleNotFound, t)
      else
        let members_with_role :=
          filter (fun m => negb (bot m) && is_in role_id_int (roles m))
                 members in
        match members_with_role with
        | [] => (NoMembersFound, t)
        | _ :: _ =>
            let '(success_count, t') :=
              assign_loop ws 0 g pts members_with_role t in
            (AssignmentComplete success_count (length members_with_role),
             t')
        end
  end.

End RoleCommands.

(** What [removepoints] answers. *)
Inductive remove_reply : Type :=
| RemoveInvalidTarget
| RemoveNotPositive
| RemoveTooMany
| PointsRemoved (old_points points_removed new_points : Z)
| RemovalFailed.

(** [remove_points]: the amount, once checked, is applied negated. *)
Definition remove_points (w1 w2 w3 : world) (g : Z) (user : member)
    (pts : Z) (t : table) : remove_reply * table :=
  if bot user then (RemoveInvalidTarget, t)
  else if pts <=? 0 then (RemoveNotPositive, t)
  else if pts >? 10000 then (RemoveTooMany, t)
  else
    let current_stats := get_user_stats w1 g (member_id user) t in
    let old_points :=
      match current_stats with Some s => st_points s | None => 0 end in
    let '(success, t') :=
      update_points w2 g (member_id user) (- pts)
                    (Some (display_name user)) t in
    if success
    then
      let updated_stats := get_user_stats w3 g (member_id user) t' in
      let new_points :=
        match updated_stats with Some s => st_points s | None => 0 end in
      (PointsRemoved old_points pts new_points, t')
    else (RemovalFailed, t').

(** A Python dictionary with integer keys: [d[k] = v]. *)
Fixpoint py_dict_set (k v : Z) (d : list (Z * Z)) : list (Z * Z) :=
  match d with
  | [] => [(k, v)]
  | (k', v') :: d' =>
      if k' =? k then (k, v) :: d' else (k', v') :: py_dict_set k v d'
  end.

(** The sum of the configured points over the roles of a member. *)
Definition member_rewards (role_config : list (Z * Z)) (m : member) : Z :=
  fold_left (fun total r =>
               match dict_get r role_config with
               | Some p => total + p
               | None => total
               end)
            (roles m) 0.

(** The environment of the turn of one member in a distribution: the
    [datetime.now()] read for the member and the environment of the
    [update_points] call. *)
Record reward_env : Type := mkRewardEnv {
  reward_now : Z;
  reward_world : world
}.

Section RoleRewards.

(** [(now - last_reward).total_seconds() >=
    self.reward_intervals.get(guild_id, 24) * 3600], a comparison of
    floating-point seconds, as a test on the two time stamps. *)
Variable interval_elapsed : Z -> Z -> bool.

(** The turn of one member in [_distribute_role_rewards]: the state is
    the ledger, [self.last_reward_time[guild_id]] and
    [rewards_distributed].  The two [get_user_stats] reads around the
    update only feed a log record and are left out. *)
Definition reward_member (e : reward_env) (g : Z)
    (role_config : list (Z * Z)) (m : member)
    (st : table * list (Z * Z) * nat) : table * list (Z * Z) * nat :=
  let '(t, last_reward_time, rewards_distributed) := st in
  if bot m then st
  else
    let rewards := member_rewards role_config m in
    if rewards >? 0
    then
      if match dict_get (member_id m) last_reward_time with
         | None => true
         | Some last_reward => interval_elapsed last_reward (reward_now e)
         end
      then
        let '(success, t') :=
          update_points (reward_world e) g (member_id m) rewards
                        (Some (display_name m)) t in
        if success
        then (t', py_dict_set (member_id m) (reward_now e) last_reward_time,
              S rewards_distributed)
        else (t', last_reward_time, rewards_distributed)
      else st
    else st.

Fixpoint reward_loop (env : nat -> reward_env) (k : nat) (g : Z)
    (role_config : list (Z * Z)) (ms : list member)
    (st : table * list (Z * Z) * nat) : table * list (Z * Z) * nat :=
  match ms with
  | [] => st
  | m :: rest =>
      reward_loop env (S k) g role_config rest
                  (reward_member (env k) g role_config m st)
  end.

(** [_distribute_role_rewards]: [guild_members] is [None] when the guild
    is not found; the result holds the ledger, the times of the last
    rewards and the number of rewards, which decides whether the
    leaderboard views are refreshed afterwards. *)
Definition _distribute_role_rewards (env : nat -> reward_env) (g : Z)
    (guild_members : option (list member)) (role_config : list (Z * Z))
    (t : table) (last_reward_time : list (Z * Z))
  : table * list (Z * Z) * nat :=
  match guild_members with
  | None => (t, last_reward_time, 0%nat)
  | Some members =>
      match role_config with
      | [] => (t, last_reward_time, 0%nat)
      | _ :: _ =>
          reward_loop env 0 g role_config members
                      (t, last_reward_time, 0%nat)
      end
  end.

End RoleRewards.

(** * Promotion notices ([bot/events.py]) *)

(** The table [rank_roles] of [check_rank_promotion]: for a role, the
    rank it stands for and the points it requires. *)
Definition event_rank_roles : list (Z * (string * Z)) :=
  [ (1391059979167072286, ("Core Disciple"%string, 750));
    (1391060071189971075, ("Core Disciple"%string, 750));
    (1382602945752727613, ("Core Disciple"%string, 750));
    (1268528848740290580, ("Inner Disciple"%string, 350));
    (1308823860740624384, ("Inner Disciple"%string, 350));
    (1391059841505689680, ("Inner Disciple"%string, 350));
    (1389474689818296370, ("Outer Disciple"%string, 10));
    (1266826177163694181, ("Outer Disciple"%string, 10));
    (1308823565881184348, ("Outer Disciple"%string, 10));
    (1266143259801948261, ("Demon God"%string, 0));
    (1281115906717650985, ("Heavenly Demon"%string, 0));
    (1276607675735736452, ("Guardian"%string, 0));
    (1304283446016868424, ("Supreme Demon"%string, 0));
    (1266242655642456074, ("Demon Council"%string, 0));
    (1390279781827874937, ("Young Master"%string, 0)) ].

(** [check_rank_promotion]: the added roles for which
    [send_rank_promotion_congratulations] is called, with the rank named,
    in the order the roles are visited. *)
Fixpoint check_rank_promotion (added_roles : list Z) (current_points : Z)
  : list (Z * string) :=
  match added_roles with
  | [] => []
  | role :: rest =>
      match dict_get role event_rank_roles with
      | Some (rank_name, required_points) =>
          if current_points >=? required_points
          then (role, rank_name) :: check_rank_promotion rest current_points
          else check_rank_promotion rest current_points
      | None => check_rank_promotion rest current_points
      end
  end.

(** A text channel of the guild; [can_send] is
    [channel.permissions_for(guild.me).send_messages]. *)
Record channel : Type := mkChannel {
  channel_id : Z;
  channel_name : pystr;
  can_send : bool
}.

Definition preferred_names : list pystr :=
  [lit "general"; lit "announcements"; lit "leaderboard"; lit "bot-commands"].

(** The first loop of [send_to_fallback_channel]: for each preferred name
    the first channel of that name ([discord.utils.get]) is tried. *)
Fixpoint first_preferred (names : list pystr) (text_channels : list channel)
  : option channel :=
  match names with
  | [] => None
  | name :: rest =>
      match find (fun c => pystr_eqb (channel_name c) name) text_channels with
      | Some c =>
          if can_send c then Some c else first_preferred rest text_channels
      | None => first_preferred rest text_channels
      end
  end.

(** [send_to_fallback_channel]: the channel the notice is sent to. *)
Definition send_to_fallback_channel (text_channels : list channel)
  : option channel :=
  match first_preferred preferred_names text_channels with
  | Some c => Some c
  | None => find can_send text_channels
  end.

(** Truthiness of a configuration value ([if notification_channel_id:]). *)
Definition cfg_truthy (v : cfgval) : bool :=
  match v with
  | CfgNone => false
  | CfgInt z => negb (z =? 0)
  | CfgStr s => match s with [] => false | _ :: _ => true end
  end.

(** The channel on which [send_rank_promotion_congratulations] calls
    [channel.send], once the embed is built, for the configured value read
    by [get_guild_config]; [get_channel] is [guild.get_channel], which knows
    channels by their integer id only. *)
Definition notification_channel (notification_channel_id : cfgval)
    (get_channel : Z -> option channel) (text_channels : list channel)
  : option channel :=
  if cfg_truthy notification_channel_id
  then
    match
      match notification_channel_id with
      | CfgInt id => get_channel id
      | _ => None
      end
    with
    | Some c =>
        if can_send c then Some c
        else send_to_fallback_channel text_channels
    | None => send_to_fallback_channel text_channels
    end
  else send_to_fallback_channel text_channels.

(** * Vocabulary of the properties *)

(** The table after the optional upsert at the head of the transaction. *)
Definition ensured (w : world) (g u : Z) (name : option pystr) (t : table)
  : table :=
  match name with
  | Some nm =>
      if supplied name
      then sql_upsert w (new_entry w g u nm) (set_username nm) t
      else t
  | None => t
  end.

(** The storage calls of a successful [update_points] up to the commit:
    acquire, begin, the optional upsert, the read, the update, the read
    for the log record and the commit; the release of the connection is
    the call after these. *)
Definition update_points_calls (name : option pystr) : nat :=
  if supplied name then 7%nat else 6%nat.

(** [ORDER BY points DESC, last_updated ASC] as a relation. *)
Definition ranks_before (a b : entry) : Prop :=
  points b < points a \/
  (points a = points b /\ last_updated a <= last_updated b).

(** The guild's rows in leaderboard order. *)
Definition full_ordering (g : Z) (t : table) : list entry :=
  order_by before (filter (in_guild g) t).

(** The rows of page [p]: the window of [per_page] rows at offset
    [(p - 1) * per_page] of the numbered full ordering. *)
Definition page_rows (g p per_page : Z) (t : table) : list lbrow :=
  map format_row
      (firstn (Z.to_nat per_page)
              (skipn (Z.to_nat ((p - 1) * per_page))
                     (number_from 1 (full_ordering g t)))).

(** A sample environment (pool set, no fault) and a sample guild with two
    entries. *)
Definition w_ok : world := mkWorld true 1000 1000 (fun _ => false).

Definition alice : entry := mkEntry 1 7 (lit "alice") 100 10 10.

Definition bob : entry := mkEntry 1 8 (lit "bob") 50 20 20.

(** An entry that holds the largest value of the [INTEGER] column, and an
    environment in which the seventh storage call raises and no other:
    for an [update_points] without a username that is the release of the
    connection, after the commit. *)
Definition midas : entry := mkEntry 1 9 (lit "midas") 2147483647 30 30.

Definition w_release : world :=
  mkWorld true 1000 1000 (fun n => Nat.eqb n 6).

(** The disciple tiers with the points each requires. *)
Definition tiers : list (string * Z) :=
  [("Core Disciple"%string, 750); ("Inner Disciple"%string, 350);
   ("Outer Disciple"%string, 10)].

(** The member holds no role of any tier the points qualify for. *)
Definition no_matching_role (points : Z) (m : member) : Prop :=
  forall title threshold,
    In (title, threshold) tiers -> threshold <= points ->
    user_has_role title m = false.

(** Sample members: one with a Core-tier role, one with no tier role. *)
Definition core_member : member :=
  mkMember 42 false (lit "hermes") [5; 1391060071189971075].

Definition plain_member : member := mkMember 43 false (lit "novice") [5].

(** What a broadcast for guild [g] makes of one view of the list: a view
    of another guild or an inactive one stays, a view whose message is
    gone leaves the list, any other is refreshed. *)
Definition refresh_step (env : nat -> view_env) (t : table) (g : Z)
    (v : view) : list view :=
  if (v_guild_id v =? g) && is_active v
  then
    if snd (auto_update_leaderboard (env (view_id v)) t v) then []
    else [fst (auto_update_leaderboard (env (view_id v)) t v)]
  else [v].

(** The points a user holds, 0 for a user with no entry. *)
Definition points_or_zero (g u : Z) (t : table) : Z :=
  match fetch_points g u t with
  | Some c => c
  | None => 0
  end.

(** The storage calls of an [update_points] succeed up to the commit, and
    the call after the commit, the release of the connection, raises. *)
Definition release_fails (w : world) (name : option pystr) : Prop :=
  (forall n, (n < update_points_calls name)%nat -> fault w n = false) /\
  fault w (update_points_calls name) = true.

(** Every stored value of [points] is at most the largest value of the
    [INTEGER] column. *)
Definition points_in_range (t : table) : Prop :=
  Forall (fun e => points e <= int4_max) t.

(** Whether the [INTEGER] column can hold the points of user [u] raised
    by [d]. *)
Definition fits (g u d : Z) (t : table) : bool :=
  points_or_zero g u t + d <=? int4_max.

(** Whether the turn of member [m] in a distribution rewards the member:
    not a bot, a positive sum over the roles, and no earlier reward or
    one old enough. *)
Definition reward_due (interval_elapsed : Z -> Z -> bool) (now : Z)
    (role_config last_reward_time : list (Z * Z)) (m : member) : bool :=
  negb (bot m)
  && (member_rewards role_config m >? 0)
  && match dict_get (member_id m) last_reward_time with
     | None => true
     | Some last_reward => interval_elapsed last_reward now
     end.

(** Whether the turn of member [m] leaves a reward in the ledger: the
    member is due and the column can hold the new total. *)
Definition rewarded (interval_elapsed : Z -> Z -> bool) (now : Z)
    (role_config last_reward_time : list (Z * Z)) (g : Z) (t : table)
    (m : member) : bool :=
  reward_due interval_elapsed now role_config last_reward_time m
  && fits g (member_id m) (member_rewards role_config m) t.

(** A sample environment of a view, and two sample views of guild 1. *)
Definition e_ok : view_env := mkViewEnv w_ok w_ok EditOk.

Definition e_gone : view_env := mkViewEnv w_ok w_ok EditNotFound.

Definition view_a : view :=
  mkView 0 1 1 1 1 [] 0 true true false false false false.

Definition view_b : view :=
  mkView 1 1 1 2 2 [] 0 true true false false false false.

(** A sample member with a special role. *)
Definition demon_god : member :=
  mkMember 46 false (lit "lord") [1266143259801948261].

(** The range of a 64-bit integer of the store. *)
Definition storage_int (z : Z) : Prop := - 2 ^ 63 <= z < 2 ^ 63.

(** A page row whose rank and points are integers of the store. *)
Definition row_in_range (row : lbrow) : Prop :=
  storage_int (rank row) /\ storage_int (lb_points row).

(** A long page: 600 rows ranked 1 to 600. *)
Definition long_page : list lbrow :=
  map (fun k => mkRow (Z.of_nat k) (py_str (Z.of_nat k)) (lit "disciple")
                      500 0)
      (seq 1 600).

(** * Properties *)

(** ** Rows found by key *)

Lemma same_key_true g u e :
  same_key g u e = true <-> guild_id e = g /\ user_id e = u.
Proof. unfold same_key. rewrite andb_true_iff, !Z.eqb_eq. tauto. Qed.

Lemma same_key_other g u g' u' e :
  same_key g u e = true -> same_key g' u' e = true -> g' = g /\ u' = u.
Proof. rewrite !same_key_true. intuition congruence. Qed.

Lemma existsb_find (p : entry -> bool) t :
  existsb p t = match find p t with Some _ => true | None => false end.
Proof. induction t as [|e t IH]; simpl; [reflexivity|]. destruct (p e); auto. Qed.

Lemma find_filter_length (p : entry -> bool) t e :
  find p t = Some e -> (1 <= length (filter p t))%nat.
Proof.
  induction t as [|x t IH]; simpl; [discriminate|].
  destruct (p x); simpl; intros; [lia | auto].
Qed.

(** An in-place rewrite of rows that keeps their key commutes with the
    look-up by key. *)
Lemma find_map_keep g u (f : entry -> entry) t :
  (forall e, key_of (f e) = key_of e) ->
  find (same_key g u) (map f t) = option_map f (find (same_key g u) t).
Proof.
  intros Hk. induction t as [|e t IH]; simpl; [reflexivity|].
  assert (same_key g u (f e) = same_key g u e) as ->.
  { unfold same_key. specialize (Hk e). unfold key_of in Hk.
    injection Hk as -> ->. reflexivity. }
  destruct (same_key g u e); simpl; auto.
Qed.

Lemma find_app_new g u t e :
  find (same_key g u) (t ++ [e]) =
  match find (same_key g u) t with
  | Some x => Some x
  | None => if same_key g u e then Some e else None
  end.
Proof.
  induction t as [|x t IH]; simpl; [reflexivity|].
  destruct (same_key g u x); auto.
Qed.

Lemma find_filter_out g u g' u' t :
  find (same_key g' u') (filter (fun e => negb (same_key g u e)) t) =
  if (g' =? g) && (u' =? u) then None else find (same_key g' u') t.
Proof.
  induction t as [|x t IH]; simpl.
  - destruct ((g' =? g) && (u' =? u)); reflexivity.
  - destruct (same_key g u x) eqn:Hx; simpl.
    + rewrite IH. destruct ((g' =? g) && (u' =? u)) eqn:Hg; [reflexivity|].
      destruct (same_key g' u' x) eqn:Hy; [|reflexivity].
      destruct (same_key_other _ _ _ _ _ Hx Hy) as [-> ->].
      rewrite !Z.eqb_refl in Hg. discriminate.
    + destruct (same_key g' u' x) eqn:Hy; [|exact IH].
      destruct ((g' =? g) && (u' =? u)) eqn:Hg; [|reflexivity].
      apply andb_true_iff in Hg as [Hg1 Hg2].
      apply Z.eqb_eq in Hg1, Hg2. subst. congruence.
Qed.

(** What [UPDATE ... WHERE guild_id = g AND user_id = u] leaves under each
    key. *)
Lemma find_sql_update w g u set g' u' t :
  (forall e, key_of (set e) = key_of e) ->
  find (same_key g' u') (snd (sql_update w (same_key g u) set t)) =
  option_map (fun e => if same_key g u e
                       then update_last_updated w (set e) else e)
             (find (same_key g' u') t).
Proof.
  intros Hk. unfold sql_update. simpl. apply find_map_keep.
  intros e. destruct (same_key g u e); [|reflexivity].
  rewrite <- (Hk e). reflexivity.
Qed.

Lemma key_set_username nm e : key_of (set_username nm e) = key_of e.
Proof. reflexivity. Qed.

Lemma key_set_username_touch w nm e :
  key_of (set_username_touch w nm e) = key_of e.
Proof. reflexivity. Qed.

Lemma key_set_points w p e : key_of (set_points w p e) = key_of e.
Proof. reflexivity. Qed.

(** What the upsert of a member leaves under each key. *)
Lemma find_sql_upsert w g u nm set g' u' t :
  (forall e, key_of (set e) = key_of e) ->
  find (same_key g' u') (sql_upsert w (new_entry w g u nm) set t) =
  match find (same_key g u) t with
  | Some _ =>
      option_map (fun e => if same_key g u e
                           then update_last_updated w (set e) else e)
                 (find (same_key g' u') t)
  | None =>
      match find (same_key g' u') t with
      | Some x => Some x
      | None => if (g =? g') && (u =? u')
                then Some (new_entry w g u nm) else None
      end
  end.
Proof.
  intros Hk. unfold sql_upsert. simpl guild_id. simpl user_id.
  rewrite existsb_find. destruct (find (same_key g u) t).
  - apply find_sql_update, Hk.
  - rewrite find_app_new. reflexivity.
Qed.

(** ** [update_points] *)

Ltac run_calls :=
  unfold try_except, transaction, bind, acquire, query, call, ret, py_raise.

Lemma faulted_dec w k :
  faulted w k \/ (forall n, (n < k)%nat -> fault w n = false).
Proof.
  induction k as [|k [IH|IH]].
  - right. intros n Hn. lia.
  - left. destruct IH as [n [Hn Hf]]. exists n. split; [lia | exact Hf].
  - destruct (fault w k) eqn:Hk.
    + left. exists k. split; [lia | exact Hk].
    + right. intros n Hn.
      destruct (Nat.eq_dec n k) as [-> | Hne]; [exact Hk | apply IH; lia].
Qed.

Lemma no_fault_bounded w k :
  no_fault w -> forall n, (n < k)%nat -> fault w n = false.
Proof. intros H n _. apply H. Qed.

Lemma clamp_max c d : (if c + d <? 0 then 0 else c + d) = Z.max 0 (c + d).
Proof. destruct (Z.ltb_spec (c + d) 0); lia. Qed.

Lemma update_rows_positive g u t c :
  fetch_points g u t = Some c ->
  (Z.of_nat (length (filter (same_key g u) t)) =? 0) = false.
Proof.
  unfold fetch_points. intros H.
  destruct (find (same_key g u) t) as [e|] eqn:He; [|discriminate].
  apply find_filter_length in He. apply Z.eqb_neq. lia.
Qed.

(** With the pool set and no fault among its calls up to the commit,
    [update_points] is its sequence of statements: the entry is read
    after the optional upsert; a new value that the [INTEGER] column
    cannot hold makes the [UPDATE] raise, which undoes the upsert too;
    otherwise the row is rewritten, and the result is [True] unless the
    release of the connection raises. *)
Lemma update_points_run w g u d name t :
  pool w = true ->
  (forall n, (n < update_points_calls name)%nat -> fault w n = false) ->
  update_points w g u d name t =
  match fetch_points g u (ensured w g u name t) with
  | None => (false, ensured w g u name t)
  | Some c =>
      if int4 (Z.max 0 (c + d))
      then (negb (fault w (update_points_calls name)),
            snd (sql_update w (same_key g u) (set_points w (Z.max 0 (c + d)))
                            (ensured w g u name t)))
      else (false, t)
  end.
Proof.
  intros Hp Hf. unfold update_points, ensured. rewrite Hp. simpl negb. cbv iota.
  run_calls. unfold update_points_calls in *. revert Hf.
  destruct name as [nm|]; [destruct (supplied (Some nm))|];
    cbn [supplied]; cbv iota; intros Hf; rewrite ?Hf by lia;
    match goal with
    | |- context [fetch_points g u ?t1] =>
        destruct (fetch_points g u t1) as [c|] eqn:Hc; rewrite ?Hf by lia;
        [|reflexivity]
    end;
    rewrite clamp_max;
    (destruct (int4 (Z.max 0 (c + d))); [|reflexivity]);
    cbn [sql_update fst snd];
    rewrite (update_rows_positive _ _ _ _ Hc); rewrite ?Hf by lia;
    match goal with
    | |- context [fault w ?k] => destruct (fault w k); reflexivity
    end.
Qed.

Lemma fetch_points_ensured w g u name t g' u' :
  fetch_points g' u' (ensured w g u name t) =
  match fetch_points g' u' t with
  | Some c => Some c
  | None => if supplied name && ((g =? g') && (u =? u')) then Some 0 else None
  end.
Proof.
  unfold ensured, fetch_points.
  destruct name as [nm|]; [|simpl; destruct (find _ t); reflexivity].
  destruct (supplied (Some nm)); [|simpl; destruct (find _ t); reflexivity].
  rewrite find_sql_upsert by apply key_set_username.
  destruct (find (same_key g u) t) eqn:Hgu.
  - destruct (find (same_key g' u') t) as [x|] eqn:Hx; simpl.
    + destruct (same_key g u x); reflexivity.
    + destruct ((g =? g') && (u =? u')) eqn:Hg; [|reflexivity].
      apply andb_true_iff in Hg as [Hg1 Hg2].
      apply Z.eqb_eq in Hg1, Hg2. subst. congruence.
  - destruct (find (same_key g' u') t) as [x|] eqn:Hx; simpl; [reflexivity|].
    destruct ((g =? g') && (u =? u')); reflexivity.
Qed.

(** The clamped value fits the [INTEGER] column exactly when the sum does
    not exceed its largest value. *)
Lemma int4_clamped c d : int4 (Z.max 0 (c + d)) = (c + d <=? int4_max).
Proof.
  unfold int4, int4_max.
  destruct (Z.leb_spec (c + d) 2147483647);
    destruct (Z.leb_spec (-2147483648) (Z.max 0 (c + d)));
    destruct (Z.leb_spec (Z.max 0 (c + d)) 2147483647);
    try reflexivity; lia.
Qed.

(** The entry the transaction works on, in terms of the table before. *)
Lemma ensured_points w g u name t c :
  fetch_points g u (ensured w g u name t) = Some c ->
  points_or_zero g u t = c /\
  ~ (fetch_points g u t = None /\ supplied name = false).
Proof.
  rewrite fetch_points_ensured, !Z.eqb_refl, andb_true_r.
  unfold points_or_zero. destruct (fetch_points g u t) as [c0|].
  - intros H. injection H as <-. split; [reflexivity|].
    intros [H _]. discriminate.
  - destruct (supplied name); [|discriminate].
    intros H. injection H as <-. split; [reflexivity|].
    intros [_ H]. discriminate.
Qed.

(** C1 (as the code has it).  With the pool set and no storage fault,
    [update_points] on an existing entry with [c] points and a delta [d]
    such that [c + d] does not exceed 2147483647, the largest value of
    the [INTEGER] column [points], returns [True] and leaves
    [max(0, c + d)] points under that key, so a delta that would go below
    zero is truncated to [-c] and not rejected, and the points of every
    other key are unchanged; when [c + d] exceeds 2147483647 the [UPDATE]
    is rejected, the call returns [False] and the table is what it
    was. *)
Theorem update_points_clamps w g u d name t c :
  pool w = true -> no_fault w ->
  fetch_points g u t = Some c ->
  (c + d <= int4_max ->
   fst (update_points w g u d name t) = true /\
   fetch_points g u (snd (update_points w g u d name t))
     = Some (Z.max 0 (c + d)) /\
   (forall g' u', (g', u') <> (g, u) ->
      fetch_points g' u' (snd (update_points w g u d name t))
        = fetch_points g' u' t)) /\
  (int4_max < c + d -> update_points w g u d name t = (false, t)).
Proof.
  intros Hp Hf Hc.
  rewrite (update_points_run w g u d name t Hp (no_fault_bounded w _ Hf)).
  pose proof (fetch_points_ensured w g u name t g u) as He.
  rewrite Hc in He. rewrite He, int4_clamped, (Hf _). cbn [negb].
  destruct (Z.leb_spec (c + d) int4_max) as [Hle|Hgt];
    (split; [|intros; try reflexivity; lia]); [|intros; lia].
  intros _. cbn [fst snd].
  assert (Hfind : exists e, find (same_key g u) (ensured w g u name t) = Some e).
  { unfold fetch_points in He.
    destruct (find (same_key g u) (ensured w g u name t)) as [e|];
      [eauto | discriminate]. }
  destruct Hfind as [e Hfind].
  split; [reflexivity|]. split.
  - unfold fetch_points.
    rewrite find_sql_update by apply key_set_points.
    rewrite Hfind. simpl.
    assert (same_key g u e = true) as ->
      by (apply find_some in Hfind; tauto).
    reflexivity.
  - intros g' u' Hdiff. unfold fetch_points at 1.
    rewrite find_sql_update by apply key_set_points.
    pose proof (fetch_points_ensured w g u name t g' u') as He'.
    assert (Hne : (g =? g') && (u =? u') = false).
    { destruct (Z.eqb_spec g g'); [|reflexivity].
      destruct (Z.eqb_spec u u'); [|reflexivity]. subst. congruence. }
    rewrite Hne in He'.
    rewrite andb_false_r in He'.
    assert (He2 : fetch_points g' u' (ensured w g u name t) = fetch_points g' u' t)
      by (rewrite He'; destruct (fetch_points g' u' t); reflexivity).
    rewrite <- He2. unfold fetch_points.
    destruct (find (same_key g' u') (ensured w g u name t)) as [x|] eqn:Hx;
      [|reflexivity].
    simpl. destruct (same_key g u x) eqn:Hgx; [|reflexivity].
    apply find_some in Hx. destruct Hx as [_ Hx].
    destruct (same_key_other _ _ _ _ _ Hgx Hx) as [-> ->].
    rewrite !Z.eqb_refl in Hne. discriminate.
Qed.

Ltac fault_step :=
  match goal with
  | |- context [if fault ?w ?n then _ else _] =>
      destruct (fault w n) eqn:?; cbv beta iota zeta; try reflexivity
  end.

Ltac update_step c d :=
  fault_step; rewrite ?clamp_max;
  destruct (int4 (Z.max 0 (c + d))); cbv beta iota zeta; [|reflexivity].

(** A fault in any of its storage calls up to the commit makes
    [update_points] return [False] with the table as it was: the
    transaction is rolled back. *)
Lemma update_points_fault w g u d name t :
  pool w = true -> faulted w (update_points_calls name) ->
  update_points w g u d name t = (false, t).
Proof.
  intros Hp [n [Hn Hfn]].
  pose proof (fetch_points_ensured w g u name t g u) as He.
  unfold update_points. rewrite Hp. simpl negb. cbv iota.
  unfold update_points_calls, ensured in *.
  run_calls. unfold sql_update.
  destruct name as [nm|]; [destruct (supplied (Some nm)) eqn:Hs|];
    cbn [supplied andb] in *; cbv beta iota zeta in *.
  - rewrite !Z.eqb_refl in He. cbn [andb] in He.
    do 4 fault_step.
    destruct (fetch_points g u (sql_upsert w (new_entry w g u nm)
                                           (set_username nm) t))
      as [c|] eqn:Hc; [|destruct (fetch_points g u t); discriminate].
    cbv beta iota zeta. update_step c d.
    rewrite (update_rows_positive _ _ _ _ Hc). cbv beta iota zeta.
    do 2 fault_step.
    exfalso. do 7 (destruct n as [|n]; [congruence|]). lia.
  - do 3 fault_step.
    destruct (fetch_points g u t) as [c|] eqn:Hc; cbv beta iota zeta;
      [|fault_step; fault_step; reflexivity].
    update_step c d.
    rewrite (update_rows_positive _ _ _ _ Hc). cbv beta iota zeta.
    do 2 fault_step.
    exfalso. do 6 (destruct n as [|n]; [congruence|]). lia.
  - do 3 fault_step.
    destruct (fetch_points g u t) as [c|] eqn:Hc; cbv beta iota zeta;
      [|fault_step; fault_step; reflexivity].
    update_step c d.
    rewrite (update_rows_positive _ _ _ _ Hc). cbv beta iota zeta.
    do 2 fault_step.
    exfalso. do 6 (destruct n as [|n]; [congruence|]). lia.
Qed.

(** The floor of the schema, [CHECK (points >= 0)], is kept by
    [update_points] in every environment. *)
Lemma sql_update_nonneg w p set t :
  (forall e, 0 <= points e -> 0 <= points (set e)) ->
  Forall (fun e => 0 <= points e) t ->
  Forall (fun e => 0 <= points e) (snd (sql_update w p set t)).
Proof.
  intros Hset Ht. unfold sql_update. cbn [snd]. apply Forall_map.
  eapply Forall_impl; [|exact Ht]. intros e He. cbv beta.
  destruct (p e); [apply Hset, He | exact He].
Qed.

Lemma ensured_nonneg w g u name t :
  Forall (fun e => 0 <= points e) t ->
  Forall (fun e => 0 <= points e) (ensured w g u name t).
Proof.
  intros Ht. unfold ensured. destruct name as [nm|]; [|exact Ht].
  destruct (supplied (Some nm)); [|exact Ht].
  unfold sql_upsert. destruct (existsb _ t).
  - apply sql_update_nonneg; [auto | exact Ht].
  - apply Forall_app. split; [exact Ht|]. repeat constructor. simpl. lia.
Qed.

Lemma update_points_keeps_nonneg w g u d name t :
  Forall (fun e => 0 <= points e) t ->
  Forall (fun e => 0 <= points e) (snd (update_points w g u d name t)).
Proof.
  intros Ht. destruct (pool w) eqn:Hp.
  2:{ unfold update_points. rewrite Hp. exact Ht. }
  destruct (faulted_dec w (update_points_calls name)) as [Hf|Hf].
  { rewrite (update_points_fault w g u d name t Hp Hf). exact Ht. }
  rewrite (update_points_run w g u d name t Hp Hf).
  pose proof (ensured_nonneg w g u name t Ht) as He.
  destruct (fetch_points g u (ensured w g u name t)) as [c|]; [|exact He].
  destruct (int4 (Z.max 0 (c + d))); [|exact Ht].
  cbn [snd fst].
  apply (sql_update_nonneg w (same_key g u)
           (set_points w (Z.max 0 (c + d))) _); [|exact He].
  intros e _. simpl. lia.
Qed.

(** C6 (as the code has it).  [update_points] returns a boolean on every
    input (nothing is raised to the caller), and it returns [False]
    exactly in these cases: the storage layer is at fault (the pool is
    not set, or one of the storage calls raises, the release of the
    connection included); the entry does not exist and no username is
    supplied to create it; or the new value exceeds 2147483647 and the
    [UPDATE] is rejected.  When it returns [False] the table is what it
    was before the call, except when the call that raises is the release
    of the connection after the commit: then the result is [False] and
    the new value is in the table. *)
Theorem update_points_soft_failure w g u d name t :
  (fst (update_points w g u d name t) = false <->
   (pool w = false \/ faulted w (S (update_points_calls name)))
   \/ (fetch_points g u t = None /\ supplied name = false)
   \/ int4_max < points_or_zero g u t + d)
  /\ (fst (update_points w g u d name t) = false ->
      snd (update_points w g u d name t) = t \/ release_fails w name)
  /\ (pool w = true -> release_fails w name ->
      forall c,
        fetch_points g u (ensured w g u name t) = Some c ->
        c + d <= int4_max ->
        fst (update_points w g u d name t) = false /\
        fetch_points g u (snd (update_points w g u d name t))
          = Some (Z.max 0 (c + d))).
Proof.
  split; [|split].
  - destruct (pool w) eqn:Hp.
    2:{ unfold update_points. rewrite Hp. simpl. split; auto. }
    destruct (faulted_dec w (update_points_calls name)) as [Hf|Hf].
    { rewrite (update_points_fault w g u d name t Hp Hf). simpl.
      split; [|reflexivity]. intros _. left. right.
      destruct Hf as [n [Hn Hfn]]. exists n. split; [lia | exact Hfn]. }
    rewrite (update_points_run w g u d name t Hp Hf).
    destruct (fetch_points g u (ensured w g u name t)) as [c|] eqn:Hc.
    + destruct (ensured_points w g u name t c Hc) as [Hpz Hpresent].
      rewrite int4_clamped, Hpz.
      destruct (Z.leb_spec (c + d) int4_max) as [Hle|Hgt]; cbn [fst].
      * split.
        -- intros Hr. left. right. exists (update_points_calls name).
           split; [lia|]. destruct (fault w (update_points_calls name));
             [reflexivity | discriminate].
        -- intros [[H | [n [Hn Hfn]]] | [H | H]];
             [discriminate | | contradiction | lia].
           assert (n = update_points_calls name) as ->.
           { destruct (Nat.eq_dec n (update_points_calls name)) as [E|E];
               [exact E|]. rewrite (Hf n) in Hfn by lia. discriminate. }
           rewrite Hfn. reflexivity.
      * split; [|reflexivity]. intros _. right. right. exact Hgt.
    + cbn [fst]. split; [|reflexivity]. intros _. right. left.
      rewrite fetch_points_ensured, !Z.eqb_refl, andb_true_r in Hc.
      destruct (fetch_points g u t); [discriminate|].
      destruct (supplied name); [discriminate | split; reflexivity].
  - destruct (pool w) eqn:Hp.
    2:{ unfold update_points. rewrite Hp. auto. }
    destruct (faulted_dec w (update_points_calls name)) as [Hf|Hf].
    { rewrite (update_points_fault w g u d name t Hp Hf). auto. }
    rewrite (update_points_run w g u d name t Hp Hf).
    destruct (fetch_points g u (ensured w g u name t)) as [c|] eqn:Hc.
    + destruct (int4 (Z.max 0 (c + d))); [|auto]. cbn [fst snd].
      intros Hr. right. split; [exact Hf|].
      destruct (fault w (update_points_calls name));
        [reflexivity | discriminate].
    + intros _. left. cbn [snd].
      rewrite fetch_points_ensured, !Z.eqb_refl, andb_true_r in Hc.
      unfold ensured. destruct (fetch_points g u t); [discriminate|].
      destruct (supplied name) eqn:Hs; [discriminate|].
      destruct name; reflexivity.
  - intros Hp [Hf Hrel] c Hc Hle.
    rewrite (update_points_run w g u d name t Hp Hf).
    rewrite Hc, int4_clamped, Hrel.
    destruct (Z.leb_spec (c + d) int4_max); [|lia]. cbn [fst snd negb].
    split; [reflexivity|].
    unfold fetch_points in *.
    rewrite find_sql_update by apply key_set_points.
    destruct (find (same_key g u) (ensured w g u name t)) as [e|] eqn:He;
      [|discriminate].
    simpl. assert (same_key g u e = true) as ->
      by (apply find_some in He; tauto).
    reflexivity.
Qed.

(** ** [add_member] *)

Lemma add_member_run w g u name t :
  pool w = true -> fault w 0 = false -> fault w 1 = false ->
  add_member w g u name t =
  (PyNone, sql_upsert w (new_entry w g u name) (set_username_touch w name) t).
Proof.
  intros Hp H0 H1. unfold add_member. rewrite Hp. simpl negb. cbv iota.
  run_calls. rewrite H0, H1. destruct (fault w 2); reflexivity.
Qed.

(** Every path of [add_member] returns [None], and the table it leaves is
    either the one it found or the one after the upsert. *)
Lemma add_member_cases w g u name t :
  fst (add_member w g u name t) = PyNone /\
  (snd (add_member w g u name t) = t \/
   snd (add_member w g u name t) =
   sql_upsert w (new_entry w g u name) (set_username_touch w name) t).
Proof.
  unfold add_member. destruct (pool w); simpl negb; cbv iota; [|auto].
  run_calls. destruct (fault w 0); [auto|]. destruct (fault w 1); [auto|].
  destruct (fault w 2); auto.
Qed.

(** [add_member] never changes the points of an entry that exists, in any
    environment. *)
Lemma add_member_keeps_points w g u name t g' u' c :
  fetch_points g' u' t = Some c ->
  fetch_points g' u' (snd (add_member w g u name t)) = Some c.
Proof.
  intros Hc. destruct (add_member_cases w g u name t) as [_ [-> | ->]];
    [exact Hc|].
  unfold fetch_points in *.
  rewrite find_sql_upsert by apply key_set_username_touch.
  destruct (find (same_key g' u') t) as [x|] eqn:Hx; [|discriminate].
  destruct (find (same_key g u) t); simpl; [|exact Hc].
  destruct (same_key g u x); exact Hc.
Qed.


(** ** [remove_member] *)

Lemma filter_key_unique g u t :
  NoDup (map key_of t) -> (length (filter (same_key g u) t) <= 1)%nat.
Proof.
  induction t as [|x t IH]; simpl; intros Hnd; [lia|].
  inversion Hnd as [|k ks Hnotin Hnd']; subst.
  destruct (same_key g u x) eqn:Hx; [|auto].
  assert (Hnone : filter (same_key g u) t = []).
  { destruct (filter (same_key g u) t) as [|y l] eqn:Hf; [reflexivity|].
    exfalso. apply Hnotin.
    assert (Hy : In y (filter (same_key g u) t)) by (rewrite Hf; left; reflexivity).
    apply filter_In in Hy. destruct Hy as [Hin Hy].
    apply same_key_true in Hx, Hy.
    apply in_map_iff. exists y. split; [|exact Hin].
    unfold key_of. destruct Hx, Hy. congruence. }
  rewrite Hnone. simpl. lia.
Qed.

Lemma remove_member_run w g u t :
  pool w = true -> fault w 0 = false -> fault w 1 = false ->
  fault w 2 = false ->
  remove_member w g u t =
  ((PyNone,
    if Z.of_nat (length (filter (same_key g u) t)) =? 1
    then INFO else WARNING),
   filter (fun e => negb (same_key g u e)) t).
Proof.
  intros Hp H0 H1 H2. unfold remove_member. rewrite Hp. simpl negb. cbv iota.
  run_calls. rewrite H0, H1. cbn [sql_delete]. rewrite H2.
  destruct (_ =? 1); reflexivity.
Qed.

(** C8 (as the code has it).  [remove_member] returns [None] on every
    path, whether or not a row was removed.  With the pool set and no
    storage fault it deletes the rows of the key and leaves the others;
    the number of rows deleted only selects the record it logs: [INFO]
    for exactly one row, [WARNING] otherwise, and under the primary-key
    constraint that is [INFO] exactly when the entry was present. *)
Theorem remove_member_returns_none w g u t :
  fst (fst (remove_member w g u t)) = PyNone /\
  (pool w = true -> no_fault w ->
   find (same_key g u) (snd (remove_member w g u t)) = None /\
   (forall g' u', (g', u') <> (g, u) ->
      find (same_key g' u') (snd (remove_member w g u t))
      = find (same_key g' u') t) /\
   (NoDup (map key_of t) ->
    snd (fst (remove_member w g u t)) =
    match find (same_key g u) t with Some _ => INFO | None => WARNING end)).
Proof.
  split.
  - unfold remove_member. destruct (pool w); simpl negb; cbv iota;
      [|reflexivity].
    run_calls. destruct (fault w 0); [reflexivity|].
    destruct (fault w 1); [reflexivity|]. cbn [sql_delete].
    destruct (fault w 2); [reflexivity|].
    destruct (_ =? 1); reflexivity.
  - intros Hp Hf.
    rewrite (remove_member_run w g u t Hp (Hf _) (Hf _) (Hf _)).
    cbn [fst snd]. split; [|split].
    + rewrite find_filter_out, !Z.eqb_refl. reflexivity.
    + intros g' u' Hne. rewrite find_filter_out.
      destruct (Z.eqb_spec g' g); [|reflexivity].
      destruct (Z.eqb_spec u' u); [|reflexivity]. subst. congruence.
    + intros Hnd. pose proof (filter_key_unique g u t Hnd) as Hle.
      destruct (find (same_key g u) t) as [x|] eqn:Hx.
      * apply find_filter_length in Hx.
        replace (length (filter (same_key g u) t)) with 1%nat by lia.
        reflexivity.
      * assert (Hz : filter (same_key g u) t = []).
        { destruct (filter (same_key g u) t) as [|y l] eqn:Hfl; [reflexivity|].
          assert (Hy : In y (filter (same_key g u) t))
            by (rewrite Hfl; left; reflexivity).
          apply filter_In in Hy. destruct Hy as [Hin Hy].
          exfalso. apply (find_none _ _ Hx) in Hin. congruence. }
        rewrite Hz. reflexivity.
Qed.

(** ** Ordering and numbering of rows *)

Section OrderByFacts.
Context {A : Type} (le : A -> A -> bool).
Hypothesis le_total : forall a b, le a b = false -> le b a = true.
Hypothesis le_trans : forall a b c, le a b = true -> le b c = true -> le a c = true.

Lemma insert_row_perm x l : Permutation (insert_row le x l) (x :: l).
Proof.
  induction l as [|y l IH]; simpl; [reflexivity|].
  destruct (le x y); [reflexivity|].
  rewrite IH. apply perm_swap.
Qed.

Lemma order_by_perm l : Permutation (order_by le l) l.
Proof.
  induction l as [|x l IH]; simpl; [reflexivity|].
  rewrite insert_row_perm. constructor. exact IH.
Qed.

Lemma insert_row_sorted x l :
  StronglySorted (fun a b => le a b = true) l ->
  StronglySorted (fun a b => le a b = true) (insert_row le x l).
Proof.
  induction l as [|y l IH]; simpl; intros Hs.
  - repeat constructor.
  - inversion Hs as [|y' l' Hl Hall]; subst.
    destruct (le x y) eqn:Hxy.
    + constructor; [exact Hs|]. constructor; [exact Hxy|].
      eapply Forall_impl; [|exact Hall]. intros z Hz. eapply le_trans; eauto.
    + constructor; [apply IH, Hl|].
      eapply Permutation_Forall; [symmetry; apply insert_row_perm|].
      constructor; [apply le_total, Hxy | exact Hall].
Qed.

Lemma order_by_sorted l :
  StronglySorted (fun a b => le a b = true) (order_by le l).
Proof.
  induction l as [|x l IH]; simpl; [constructor|].
  apply insert_row_sorted, IH.
Qed.

(** Ordering rows that are already in order changes nothing. *)
Lemma order_by_of_sorted l :
  StronglySorted (fun a b => le a b = true) l -> order_by le l = l.
Proof.
  induction l as [|x l IH]; simpl; intros Hs; [reflexivity|].
  inversion Hs as [|x' l' Hl Hall]; subst. rewrite (IH Hl).
  destruct l as [|y l]; simpl; [reflexivity|].
  inversion Hall as [|y' l' Hxy _]; subst. rewrite Hxy. reflexivity.
Qed.

End OrderByFacts.

Lemma number_from_length {A} k (l : list A) :
  length (number_from k l) = length l.
Proof. revert k. induction l; simpl; intros; [reflexivity|]. rewrite IHl. reflexivity. Qed.

Lemma number_from_nth {A} k (l : list A) i :
  nth_error (number_from k l) i =
  option_map (fun x => (k + Z.of_nat i, x)) (nth_error l i).
Proof.
  revert k i. induction l as [|x l IH]; intros k [|i]; simpl; try reflexivity.
  - rewrite Z.add_0_r. reflexivity.
  - rewrite IH. destruct (nth_error l i); simpl; [|reflexivity].
    f_equal. f_equal. lia.
Qed.

Lemma number_from_sorted {A} (le : A -> A -> bool) k l :
  StronglySorted (fun a b => le a b = true) l ->
  StronglySorted (fun a b => le (snd a) (snd b) = true) (number_from k l).
Proof.
  intros Hs. revert k. induction Hs as [|x l Hl IH Hall]; intros k; simpl.
  - constructor.
  - constructor; [apply IH|].
    clear IH Hl. generalize (k + 1). induction Hall; intros k'; simpl;
      constructor; auto.
Qed.

Lemma nth_error_window {A} (l : list A) n k i :
  nth_error (firstn n (skipn k l)) i =
  if (i <? n)%nat then nth_error l (k + i) else None.
Proof.
  destruct (Nat.ltb_spec i n) as [Hlt|Hge].
  - rewrite nth_error_firstn.
    destruct (Nat.ltb_spec i n); [|lia]. apply nth_error_skipn.
  - apply nth_error_None. rewrite length_firstn. lia.
Qed.

Lemma before_spec a b : before a b = true <-> ranks_before a b.
Proof.
  unfold before, ranks_before.
  rewrite orb_true_iff, andb_true_iff, Z.ltb_lt, Z.eqb_eq, Z.leb_le. tauto.
Qed.

Lemma before_total a b : before a b = false -> before b a = true.
Proof.
  unfold before. intros H. apply orb_false_iff in H as [H1 H2].
  apply Z.ltb_ge in H1. apply andb_false_iff in H2.
  apply orb_true_iff. rewrite andb_true_iff, Z.ltb_lt, Z.eqb_eq, Z.leb_le.
  destruct H2 as [H2|H2]; [apply Z.eqb_neq in H2 | apply Z.leb_gt in H2]; lia.
Qed.

Lemma before_trans a b c :
  before a b = true -> before b c = true -> before a c = true.
Proof. rewrite !before_spec. unfold ranks_before. lia. Qed.

Lemma strongly_sorted_impl {A} (R S : A -> A -> Prop) l :
  (forall a b, R a b -> S a b) -> StronglySorted R l -> StronglySorted S l.
Proof.
  intros HRS Hs. induction Hs as [|x l Hl IH Hall]; constructor; [exact IH|].
  eapply Forall_impl; [|exact Hall]. intros b. apply HRS.
Qed.

Lemma full_ordering_sorted g t : StronglySorted ranks_before (full_ordering g t).
Proof.
  eapply strongly_sorted_impl;
    [|apply (order_by_sorted before before_total before_trans)].
  intros a b. apply before_spec.
Qed.

Lemma full_ordering_perm g t :
  Permutation (full_ordering g t) (filter (in_guild g) t).
Proof. apply order_by_perm. Qed.

Lemma visible_in_guild g t :
  Forall (fun e => 0 <= points e) t ->
  filter (visible g) t = filter (in_guild g) t.
Proof.
  intros H. apply filter_ext_in. intros e He. unfold visible.
  rewrite Forall_forall in H. specialize (H e He).
  destruct (Z.leb_spec 0 (points e)); [|lia]. apply andb_true_r.
Qed.

(** The page query gives the window of the numbered full ordering. *)
Lemma page_query_window g per_page offset t :
  Forall (fun e => 0 <= points e) t ->
  0 <= per_page -> 0 <= offset ->
  page_query g per_page offset t =
  Some (firstn (Z.to_nat per_page)
               (skipn (Z.to_nat offset) (number_from 1 (full_ordering g t)))).
Proof.
  intros Hinv Hpp Hoff. unfold page_query, row_number_over, limit_offset.
  rewrite (visible_in_guild g t Hinv).
  rewrite order_by_of_sorted.
  - destruct (Z.ltb_spec per_page 0); [lia|].
    destruct (Z.ltb_spec offset 0); [lia|]. reflexivity.
  - apply number_from_sorted.
    apply (order_by_sorted before before_total before_trans).
Qed.

(** ** [_get_leaderboard_async] *)

Lemma full_ordering_length g t :
  length (full_ordering g t) = length (filter (in_guild g) t).
Proof. apply Permutation_length, full_ordering_perm. Qed.

Lemma total_pages_bounds n per_page :
  0 < n -> 0 < per_page ->
  1 <= (n + per_page - 1) / per_page /\
  ((n + per_page - 1) / per_page - 1) * per_page < n.
Proof.
  intros Hn Hpp.
  pose proof (Z.div_mod (n + per_page - 1) per_page ltac:(lia)) as Hdm.
  pose proof (Z.mod_pos_bound (n + per_page - 1) per_page Hpp) as Hm.
  split; [apply Z.div_le_lower_bound; lia | nia].
Qed.

Lemma get_leaderboard_run w g page per_page t :
  pool w = true -> no_fault w ->
  Forall (fun e => 0 <= points e) t ->
  0 < per_page -> filter (in_guild g) t <> [] ->
  _get_leaderboard_async w g page per_page t =
  let total_pages :=
    Z.max 1 ((Z.of_nat (length (full_ordering g t)) + per_page - 1)
             / per_page) in
  let p := Z.max 1 (Z.min page total_pages) in
  (page_rows g p per_page t, p, total_pages).
Proof.
  intros Hp Hf Hinv Hpp Hne. unfold _get_leaderboard_async. rewrite Hp.
  simpl negb. cbv iota. run_calls. rewrite !Hf.
  rewrite (visible_in_guild g t Hinv), full_ordering_length.
  set (n := Z.of_nat (length (filter (in_guild g) t))).
  assert (Hn : 0 < n).
  { unfold n. destruct (filter (in_guild g) t); [congruence | simpl; lia]. }
  destruct (Z.eqb_spec n 0); [lia|].
  destruct (Z.eqb_spec per_page 0); [lia|].
  rewrite !Hf. cbv zeta.
  destruct (total_pages_bounds n per_page Hn Hpp) as [Htp _].
  rewrite page_query_window by (try assumption; nia).
  cbn [option_map]. rewrite !Hf. reflexivity.
Qed.

(** C2.  For a guild with at least one entry and any requested page (pool
    set, no storage fault, stored points non-negative as the schema
    requires, positive page size), [_get_leaderboard_async] returns the
    page number clamped into [1, total_pages] and the rows at offsets
    [(page - 1) * per_page ...] of the one full ordering of the guild's
    entries by points descending, then [last_updated] ascending; the row
    at offset [k] of that ordering carries rank [k + 1], so ranks continue
    from one page to the next. *)
Theorem get_leaderboard_ranks w g page per_page t :
  pool w = true -> no_fault w ->
  Forall (fun e => 0 <= points e) t ->
  0 < per_page -> filter (in_guild g) t <> [] ->
  let full := full_ordering g t in
  let total_pages :=
    Z.max 1 ((Z.of_nat (length full) + per_page - 1) / per_page) in
  let p := Z.max 1 (Z.min page total_pages) in
  let offset := (p - 1) * per_page in
  exists rows,
    _get_leaderboard_async w g page per_page t = (rows, p, total_pages) /\
    Permutation full (filter (in_guild g) t) /\
    StronglySorted ranks_before full /\
    1 <= p <= total_pages /\
    (p = page <-> 1 <= page <= total_pages) /\
    Z.of_nat (length rows) = Z.min per_page (Z.of_nat (length full) - offset) /\
    (0 < length rows)%nat /\
    (forall i, (i < length rows)%nat ->
       exists e,
         nth_error full (Z.to_nat offset + i) = Some e /\
         nth_error rows i = Some (format_row (offset + Z.of_nat i + 1, e))).
Proof.
  intros Hp Hf Hinv Hpp Hne full total_pages p offset.
  exists (page_rows g p per_page t).
  assert (Hn : 0 < Z.of_nat (length full)).
  { unfold full. rewrite full_ordering_length.
    destruct (filter (in_guild g) t); [congruence | simpl; lia]. }
  destruct (total_pages_bounds _ per_page Hn Hpp) as [Htp Hlast].
  assert (Hoff : 0 <= offset < Z.of_nat (length full)) by (unfold offset; nia).
  assert (Hlen : Z.of_nat (length (page_rows g p per_page t))
                 = Z.min per_page (Z.of_nat (length full) - offset)).
  { unfold page_rows. rewrite length_map, length_firstn, length_skipn.
    rewrite number_from_length. fold full. fold offset. lia. }
  split; [apply get_leaderboard_run; assumption|].
  split; [apply full_ordering_perm|].
  split; [apply full_ordering_sorted|].
  split; [unfold p; lia|].
  split; [unfold p; lia|].
  split; [exact Hlen|].
  split; [lia|].
  intros i Hi.
  destruct (nth_error full (Z.to_nat offset + i)) as [e|] eqn:He.
  2:{ apply nth_error_None in He. lia. }
  exists e. split; [reflexivity|].
  unfold page_rows. rewrite nth_error_map, nth_error_window.
  destruct (Nat.ltb_spec i (Z.to_nat per_page)).
  2:{ exfalso. clear - Hlen Hi H Hpp. lia. }
  fold offset. rewrite number_from_nth. fold full. rewrite He.
  cbn [option_map]. do 3 f_equal. clearbody offset. lia.
Qed.

(** C4 (as the code has it).  For a guild with no entry,
    [_get_leaderboard_async] returns [([], 0, 0)] in every environment:
    the test [total_members == 0] returns before [total_pages] is
    computed, so its floor of 1 does not apply. *)
Theorem get_leaderboard_empty_guild w g page per_page t :
  filter (in_guild g) t = [] ->
  _get_leaderboard_async w g page per_page t = ([], 0, 0).
Proof.
  intros He. unfold _get_leaderboard_async.
  destruct (pool w); simpl negb; cbv iota; [|reflexivity].
  assert (Hv : filter (visible g) t = []).
  { induction t as [|x t IH]; simpl in *; [reflexivity|].
    unfold visible at 1. destruct (in_guild g x); [discriminate|].
    simpl. apply IH, He. }
  run_calls. destruct (fault w 0); [reflexivity|].
  destruct (fault w 1); [reflexivity|]. rewrite Hv.
  cbn [length Z.of_nat Z.eqb]. destruct (fault w 2); reflexivity.
Qed.

(** ** [get_user_stats] *)

Lemma find_hd_filter (p : entry -> bool) t : find p t = hd_error (filter p t).
Proof.
  induction t as [|x t IH]; simpl; [reflexivity|]. destruct (p x); auto.
Qed.

Lemma order_by_single {A} (le : A -> A -> bool) l :
  (length l <= 1)%nat -> order_by le l = l.
Proof.
  destruct l as [|x [|y l]]; simpl; intros H; try reflexivity. lia.
Qed.

(** The rank computed by the statistics query is the row number in a
    window that holds the rows of the requested key only. *)
Lemma stats_query_rank g u t s : stats_query g u t = Some s -> st_rank s = 1.
Proof.
  unfold stats_query, row_number_over.
  destruct (order_by before (filter (same_key g u) t)) as [|e l]; simpl;
    [discriminate|].
  intros H. injection H as <-. reflexivity.
Qed.

(** Whatever the guild holds, the rank [get_user_stats] reports is 1. *)
Lemma get_user_stats_rank_one w g u t s :
  get_user_stats w g u t = Some s -> st_rank s = 1.
Proof.
  unfold get_user_stats. destruct (pool w); simpl negb; cbv iota;
    [|discriminate].
  run_calls. destruct (fault w 0); [discriminate|].
  destruct (fault w 1); [discriminate|].
  destruct (fault w 2); [discriminate|]. simpl. apply stats_query_rank.
Qed.

(** The other keys of the dictionary are those of the entry, and a user
    with no entry gives [None]. *)
Lemma get_user_stats_found w g u t :
  pool w = true -> no_fault w -> NoDup (map key_of t) ->
  get_user_stats w g u t =
  option_map (fun e => mkStats (username e) (points e) 1 (last_updated e)
                               (created_at e))
             (find (same_key g u) t).
Proof.
  intros Hp Hf Hnd. unfold get_user_stats. rewrite Hp. simpl negb. cbv iota.
  run_calls. rewrite !Hf. cbn [fst]. unfold stats_query, row_number_over.
  rewrite order_by_single by apply filter_key_unique, Hnd.
  rewrite find_hd_filter.
  destruct (filter (same_key g u) t); reflexivity.
Qed.

(** ** The statistics and the page of a sample guild *)

(** C5.  In a guild where alice has 100 points and bob 50,
    [get_user_stats] reports rank 1 for bob, the user with the
    second-highest points, while the leaderboard page of the same guild
    gives him rank 2. *)
Theorem get_user_stats_second_place :
  get_user_stats w_ok 1 8 [alice; bob]
    = Some (mkStats (lit "bob") 50 1 20 20) /\
  map (fun r => (rank r, lb_username r))
      (fst (fst (_get_leaderboard_async w_ok 1 1 10 [alice; bob])))
    = [(1, lit "alice"); (2, lit "bob")].
Proof. split; reflexivity. Qed.

(** C4, counterexample: the empty guild gives [([], 0, 0)], not
    [([], 1, 1)]. *)
Lemma get_leaderboard_empty_not_one :
  _get_leaderboard_async w_ok 1 1 50 [] <> ([], 1, 1).
Proof. vm_compute. discriminate. Qed.

Lemma get_leaderboard_empty_guild_witness :
  _get_leaderboard_async w_ok 1 1 50 [] = ([], 0, 0).
Proof. apply (get_leaderboard_empty_guild w_ok 1 1 50 []). reflexivity. Defined.

(** C8, counterexample: the entry is present and is removed, and the
    value returned is not truthy. *)
Lemma remove_member_present_not_truthy :
  find (same_key 1 8) [alice; bob] = Some bob /\
  snd (remove_member w_ok 1 8 [alice; bob]) = [alice] /\
  truthy (fst (fst (remove_member w_ok 1 8 [alice; bob]))) <> true.
Proof. repeat split. vm_compute. discriminate. Qed.

Lemma w_ok_no_fault : no_fault w_ok.
Proof. intros n. reflexivity. Qed.

Lemma remove_member_returns_none_witness :
  fst (fst (remove_member w_ok 1 8 [alice; bob])) = PyNone /\
  find (same_key 1 8) (snd (remove_member w_ok 1 8 [alice; bob])) = None.
Proof.
  destruct (remove_member_returns_none w_ok 1 8 [alice; bob]) as [H1 H2].
  split; [exact H1|].
  exact (proj1 (H2 eq_refl w_ok_no_fault)).
Defined.

(** C1, counterexample: an existing entry holds 2147483647 points and
    the delta is 1; with the pool set and no storage fault the call
    returns [False], not [True], and the entry holds 2147483647 points as
    before, not [max(0, 2147483647 + 1)]. *)
Lemma update_points_over_int4 :
  fetch_points 1 9 [alice; midas] = Some 2147483647 /\
  fst (update_points w_ok 1 9 1 None [alice; midas]) = false /\
  fetch_points 1 9 (snd (update_points w_ok 1 9 1 None [alice; midas]))
    = Some 2147483647 /\
  fetch_points 1 9 (snd (update_points w_ok 1 9 1 None [alice; midas]))
    <> Some (Z.max 0 (2147483647 + 1)).
Proof. repeat split. vm_compute. discriminate. Qed.

Lemma update_points_clamps_witness :
  fst (update_points w_ok 1 8 (-1000) None [alice; bob]) = true /\
  fetch_points 1 8 (snd (update_points w_ok 1 8 (-1000) None [alice; bob]))
    = Some 0.
Proof.
  destruct (update_points_clamps w_ok 1 8 (-1000) None [alice; bob] 50
              eq_refl w_ok_no_fault eq_refl) as [Hfits _].
  destruct Hfits as [H1 [H2 _]]; [unfold int4_max; lia|].
  split; [exact H1 | exact H2].
Defined.

Lemma update_points_soft_failure_witness :
  fst (update_points w_ok 1 9 5 None [alice; bob]) = false /\
  snd (update_points w_ok 1 9 5 None [alice; bob]) = [alice; bob].
Proof.
  destruct (update_points_soft_failure w_ok 1 9 5 None [alice; bob])
    as [Hiff [Hsame _]].
  assert (Hfalse : fst (update_points w_ok 1 9 5 None [alice; bob]) = false).
  { apply (proj2 Hiff). right. left. split; reflexivity. }
  split; [exact Hfalse|].
  destruct (Hsame Hfalse) as [Ht | [_ Hrel]]; [exact Ht | discriminate Hrel].
Defined.

(** C6, counterexamples.  The pool is set, no storage call raises and the
    entry exists, with 2147483647 points: a delta of 1 gives [False].
    And in an environment where the one call that raises is the release
    of the connection, after the commit, the call on bob's 50 points with
    a delta of 5 returns [False] and the table is not what it was: bob
    holds 55 points. *)
Lemma update_points_false_cases :
  (pool w_ok = true /\ no_fault w_ok /\
   fetch_points 1 9 [alice; midas] = Some 2147483647 /\
   fst (update_points w_ok 1 9 1 None [alice; midas]) = false) /\
  (fst (update_points w_release 1 8 5 None [alice; bob]) = false /\
   fetch_points 1 8 (snd (update_points w_release 1 8 5 None [alice; bob]))
     = Some 55 /\
   snd (update_points w_release 1 8 5 None [alice; bob]) <> [alice; bob]).
Proof.
  split.
  - repeat split.
  - repeat split. vm_compute. discriminate.
Qed.


Lemma get_leaderboard_ranks_witness :
  exists rows,
    _get_leaderboard_async w_ok 1 2 1 [alice; bob] = (rows, 2, 2) /\
    map rank rows = [2].
Proof.
  assert (Hne : filter (in_guild 1) [alice; bob] <> []) by discriminate.
  assert (Hinv : Forall (fun e => 0 <= points e) [alice; bob])
    by (repeat constructor; discriminate).
  destruct (get_leaderboard_ranks w_ok 1 2 1 [alice; bob]
              eq_refl w_ok_no_fault Hinv eq_refl Hne)
    as [rows [H1 _]].
  exists rows. split; [exact H1|].
  vm_compute in H1. injection H1 as <-. reflexivity.
Defined.

(** ** Rank resolver *)

Lemma user_has_role_spec title m :
  user_has_role title m = true <->
  exists r, In r (roles m) /\ In r (rank_roles title).
Proof.
  unfold user_has_role, is_in. rewrite existsb_exists.
  split; intros [r [Hr H]]; exists r; split; auto.
  - apply existsb_exists in H. destruct H as [x [Hx Heq]].
    apply Z.eqb_eq in Heq. subst. exact Hx.
  - apply existsb_exists. exists r. split; [exact H | apply Z.eqb_refl].
Qed.

Lemma first_special_some rs title :
  first_special rs = Some title ->
  exists r, In r rs /\ dict_get r special_roles = Some title.
Proof.
  induction rs as [|r rs IH]; cbn [first_special]; [discriminate|].
  destruct (dict_get r special_roles) as [t0|] eqn:Hr.
  - intros H. injection H as <-. exists r. split; [left; reflexivity | exact Hr].
  - intros H. destruct (IH H) as [r' [Hin Hd]]. exists r'.
    split; [right; exact Hin | exact Hd].
Qed.

Lemma first_special_none rs :
  first_special rs = None <->
  (forall r, In r rs -> dict_get r special_roles = None).
Proof.
  induction rs as [|r rs IH]; cbn [first_special].
  - split; [intros _ r [] | reflexivity].
  - destruct (dict_get r special_roles) as [t0|] eqn:Hr.
    + split; [discriminate|]. intros H.
      rewrite (H r) in Hr by (left; reflexivity). discriminate.
    + rewrite IH. split.
      * intros H r' [<-|Hin]; [exact Hr | apply H, Hin].
      * intros H r' Hin. apply H. right. exact Hin.
Qed.

(** C3.  The priority rules of [get_rank_title_by_points] for a member:
    when a held role is a special role the result is the title mapped to
    a held special role (the first one in the order of [member.roles]),
    whatever the points; otherwise 750 points or more with a Core-tier
    role give "Core Disciple"; otherwise, when no role of a tier the
    points qualify for is held, 350 points or more (750 or more
    included) give "Inner Disciple" and 10 to 349 give "Outer Disciple";
    and fewer than 10 points give "Servant". *)
Theorem rank_priority points m :
  (forall r title,
     In r (roles m) -> dict_get r special_roles = Some title ->
     exists r' title',
       In r' (roles m) /\ dict_get r' special_roles = Some title' /\
       first_special (roles m) = Some title' /\
       get_rank_title_by_points points (Some m) = title') /\
  ((forall r, In r (roles m) -> dict_get r special_roles = None) ->
   (750 <= points -> user_has_role "Core Disciple" m = true ->
    get_rank_title_by_points points (Some m) = "Core Disciple"%string) /\
   (no_matching_role points m -> 350 <= points ->
    get_rank_title_by_points points (Some m) = "Inner Disciple"%string) /\
   (no_matching_role points m -> 10 <= points < 350 ->
    get_rank_title_by_points points (Some m) = "Outer Disciple"%string) /\
   (points < 10 ->
    get_rank_title_by_points points (Some m) = "Servant"%string)).
Proof.
  split.
  - intros r title Hin Hd.
    destruct (first_special (roles m)) as [t0|] eqn:Hfs.
    + destruct (first_special_some _ _ Hfs) as [r' [Hin' Hd']].
      exists r', t0. repeat split; auto.
      unfold get_rank_title_by_points. rewrite Hfs. reflexivity.
    + rewrite first_special_none in Hfs. rewrite (Hfs r Hin) in Hd.
      discriminate.
  - intros Hnone. apply first_special_none in Hnone.
    unfold get_rank_title_by_points, points_only. rewrite Hnone.
    repeat split.
    + intros Hp Hc. rewrite Hc.
      destruct (Z.leb_spec 750 points); [reflexivity | lia].
    + intros Hno Hp.
      assert (Hi : user_has_role "Inner Disciple" m = false)
        by (apply (Hno _ 350); [simpl; auto | lia]).
      assert (Ho : user_has_role "Outer Disciple" m = false)
        by (apply (Hno _ 10); [simpl; auto | lia]).
      rewrite Hi, Ho, !andb_false_r.
      destruct (Z.leb_spec 750 points) as [H750|H750].
      * rewrite (Hno _ 750) by (simpl; auto). simpl.
        destruct (Z.ltb_spec points 10); [lia | reflexivity].
      * simpl. destruct (Z.ltb_spec points 10); [lia|].
        destruct (Z.leb_spec 350 points); [reflexivity | lia].
    + intros Hno Hp.
      assert (Ho : user_has_role "Outer Disciple" m = false)
        by (apply (Hno _ 10); [simpl; auto | lia]).
      rewrite Ho, !andb_false_r.
      destruct (Z.leb_spec 750 points); [lia|].
      destruct (Z.leb_spec 350 points); [lia|].
      destruct (Z.leb_spec 10 points); [|lia]. simpl.
      destruct (Z.ltb_spec points 10); [lia | reflexivity].
    + intros Hp.
      destruct (Z.leb_spec 750 points); [lia|].
      destruct (Z.leb_spec 350 points); [lia|].
      destruct (Z.leb_spec 10 points); [lia|]. simpl.
      destruct (Z.ltb_spec points 10); [reflexivity | lia].
Qed.

(** Without a member object the rank is the one given by points alone. *)
Lemma rank_without_member points :
  get_rank_title_by_points points None =
  if 350 <=? points then "Inner Disciple"%string
  else if 10 <=? points then "Outer Disciple"%string else "Servant"%string.
Proof.
  unfold get_rank_title_by_points, points_only.
  destruct (Z.leb_spec 750 points), (Z.leb_spec 350 points); try reflexivity.
  lia.
Qed.

Lemma rank_priority_witness :
  get_rank_title_by_points 760 (Some core_member) = "Core Disciple"%string /\
  get_rank_title_by_points 760 (Some plain_member) = "Inner Disciple"%string.
Proof.
  split.
  - apply (proj2 (rank_priority 760 core_member)).
    + intros r [<-|[<-|[]]]; reflexivity.
    + lia.
    + reflexivity.
  - apply (proj2 (rank_priority 760 plain_member)).
    + intros r [<-|[]]; reflexivity.
    + intros title threshold [H|[H|[H|[]]]] _; injection H as <- <-;
        reflexivity.
    + lia.
Defined.

(** ** [str] of an integer reads back as that integer *)

Lemma digits_of_app fuel : forall n acc,
  digits_of fuel n acc = digits_of fuel n [] ++ acc.
Proof.
  induction fuel as [|f IH]; intros n acc; cbn [digits_of]; [reflexivity|].
  cbv zeta. destruct (n <? 10); [reflexivity|].
  rewrite (IH _ (_ :: acc)), (IH _ [_]), <- app_assoc. reflexivity.
Qed.

Lemma digits_value_app l1 : forall l2 acc,
  digits_value (l1 ++ l2) acc =
  match digits_value l1 acc with
  | Some v => digits_value l2 v
  | None => None
  end.
Proof.
  induction l1 as [|c l1 IH]; intros l2 acc; simpl; [reflexivity|].
  destruct ((48 <=? c) && (c <=? 57))%N; [apply IH | reflexivity].
Qed.

Lemma digits_value_digit d v :
  0 <= d < 10 ->
  digits_value [(48 + Z.to_N d)%N] v = Some (10 * v + d).
Proof.
  intros Hd. cbn [digits_value].
  destruct (N.leb_spec 48 (48 + Z.to_N d)); [|lia].
  destruct (N.leb_spec (48 + Z.to_N d) 57); [|lia].
  cbn [andb]. f_equal. lia.
Qed.

Lemma digits_of_value fuel : forall n,
  0 <= n < 2 ^ Z.of_nat fuel -> (1 <= fuel)%nat ->
  digits_value (digits_of fuel n []) 0 = Some n.
Proof.
  induction fuel as [|f IH]; intros n Hn Hf; [lia|].
  cbn [digits_of]. cbv zeta.
  pose proof (Z.mod_pos_bound n 10 ltac:(lia)) as Hm.
  destruct (Z.ltb_spec n 10) as [Hlt|Hge].
  - rewrite digits_value_digit by exact Hm.
    rewrite Z.mod_small by lia. f_equal; lia.
  - rewrite digits_of_app, digits_value_app.
    assert (Hpow : 2 ^ Z.of_nat (S f) = 2 * 2 ^ Z.of_nat f).
    { replace (Z.of_nat (S f)) with (Z.of_nat f + 1) by lia.
      rewrite Z.pow_add_r, Z.pow_1_r by lia. lia. }
    assert (Hf1 : (1 <= f)%nat).
    { destruct f; [simpl in Hn; lia | lia]. }
    assert (Hdiv : 0 <= n / 10 < 2 ^ Z.of_nat f).
    { split; [apply Z.div_pos; lia|].
      apply Z.div_lt_upper_bound; lia. }
    rewrite (IH _ Hdiv Hf1), digits_value_digit by exact Hm.
    f_equal. pose proof (Z.div_mod n 10 ltac:(lia)). lia.
Qed.

Lemma str_of_nonneg_value n :
  0 <= n -> digits_value (str_of_nonneg n) 0 = Some n.
Proof.
  intros Hn. unfold str_of_nonneg. apply digits_of_value; [|lia].
  split; [exact Hn|].
  destruct (Z.eq_dec n 0) as [-> | Hne]; [reflexivity|].
  rewrite Nat2Z.inj_succ, Z2Nat.id by apply Z.log2_nonneg.
  apply Z.log2_spec. lia.
Qed.

(** Reading back the decimal string of an integer gives the integer, so
    [int(str(user_id))] is [user_id]. *)
Lemma decimal_int_py_str z : decimal_int (py_str z) = Some z.
Proof.
  unfold py_str. destruct (Z.ltb_spec z 0) as [Hneg|Hpos].
  - pose proof (str_of_nonneg_value (- z) ltac:(lia)) as Hv.
    cbn [decimal_int]. rewrite N.eqb_refl.
    destruct (str_of_nonneg (- z)) as [|c s'] eqn:Hs.
    + simpl in Hv. injection Hv as Hv. lia.
    + rewrite Hv. simpl. f_equal. lia.
  - pose proof (str_of_nonneg_value z Hpos) as Hv.
    destruct (str_of_nonneg z) as [|c s'] eqn:Hs.
    + unfold str_of_nonneg in Hs. cbn [digits_of] in Hs. cbv zeta in Hs.
      destruct (z <? 10); [discriminate|].
      rewrite digits_of_app in Hs. apply app_eq_nil in Hs.
      destruct Hs as [_ Hs]. discriminate.
    + unfold decimal_int. rewrite Hv.
      cbn [digits_value] in Hv.
      destruct (N.eqb_spec c minus_sign) as [->|]; [|reflexivity].
      discriminate.
Qed.

(** ** Lengths of formatted numbers *)

Lemma digits_of_length fuel : forall n acc (k : nat),
  0 <= n < 10 ^ Z.of_nat k -> (1 <= k)%nat ->
  (length (digits_of fuel n acc) <= k + length acc)%nat.
Proof.
  induction fuel as [|f IH]; intros n acc k Hn Hk; simpl; [lia|].
  destruct (Z.ltb_spec n 10) as [Hlt|Hge]; simpl; [lia|].
  destruct k as [|[|k]]; [lia | simpl in Hn; lia |].
  specialize (IH (n / 10) ((48 + Z.to_N (n mod 10))%N :: acc) (S k)).
  simpl length in IH.
  assert (Hdiv : 0 <= n / 10 < 10 ^ Z.of_nat (S k)).
  { replace (Z.of_nat (S (S k))) with (Z.of_nat (S k) + 1) in Hn by lia.
    rewrite Z.pow_add_r, Z.pow_1_r in Hn by lia.
    split; [apply Z.div_pos; lia|].
    apply Z.div_lt_upper_bound; lia. }
  specialize (IH Hdiv ltac:(lia)). lia.
Qed.

Lemma str_of_nonneg_length n (k : nat) :
  0 <= n < 10 ^ Z.of_nat k -> (1 <= k)%nat ->
  (length (str_of_nonneg n) <= k)%nat.
Proof.
  intros Hn Hk. unfold str_of_nonneg.
  pose proof (digits_of_length (S (Z.to_nat (Z.log2 n))) n [] k Hn Hk) as H.
  cbn [length] in H. rewrite Nat.add_0_r in H. exact H.
Qed.

Lemma py_str_length z : storage_int z -> (length (py_str z) <= 20)%nat.
Proof.
  unfold storage_int, py_str. intros Hz.
  destruct (Z.ltb_spec z 0); simpl length.
  - pose proof (str_of_nonneg_length (- z) 19 ltac:(simpl; lia) ltac:(lia)). lia.
  - pose proof (str_of_nonneg_length z 19 ltac:(simpl; lia) ltac:(lia)). lia.
Qed.

Lemma group_from_cons k d rest :
  group_from k (d :: rest) =
  if match rest with [] => false | _ :: _ => true end && (k =? 2)%nat
  then d :: comma :: group_from 0 rest
  else d :: group_from (S k) rest.
Proof. destruct rest, k as [|[|[|k]]]; reflexivity. Qed.

Lemma group_from_length k l : (length (group_from k l) <= 2 * length l)%nat.
Proof.
  revert k. induction l as [|d rest IH]; intros k; [simpl; lia|].
  rewrite group_from_cons.
  destruct (match rest with [] => false | _ :: _ => true end && (k =? 2)%nat);
    cbn [length]; [specialize (IH 0%nat) | specialize (IH (S k))]; lia.
Qed.

Lemma py_format_commas_length z :
  storage_int z -> (length (py_format_commas z) <= 39)%nat.
Proof.
  unfold storage_int, py_format_commas, grouped. intros Hz.
  destruct (Z.ltb_spec z 0); simpl length; rewrite length_rev.
  - pose proof (group_from_length 0 (rev (str_of_nonneg (- z)))) as Hg.
    rewrite length_rev in Hg.
    pose proof (str_of_nonneg_length (- z) 19 ltac:(simpl; lia) ltac:(lia)). lia.
  - pose proof (group_from_length 0 (rev (str_of_nonneg z))) as Hg.
    rewrite length_rev in Hg.
    pose proof (str_of_nonneg_length z 19 ltac:(simpl; lia) ltac:(lia)). lia.
Qed.

Lemma rank_display_length r :
  storage_int r -> (length (rank_display r) <= 22)%nat.
Proof.
  intros Hr. unfold rank_display.
  destruct (r =? 1); [simpl; lia|]. destruct (r =? 2); [simpl; lia|].
  destruct (r =? 3); [simpl; lia|].
  rewrite length_app. pose proof (py_str_length r Hr). simpl. lia.
Qed.

Lemma username_display_length name :
  (length (username_display name) <= 15)%nat.
Proof.
  unfold username_display, py_len, slice_to.
  destruct (Z.ltb_spec 12 (Z.of_nat (length name))).
  - rewrite length_app, length_firstn.
    change (length (lit "...")) with 3%nat. lia.
  - lia.
Qed.

Lemma dict_get_in {V} k (d : list (Z * V)) v :
  dict_get k d = Some v -> In v (map snd d).
Proof.
  induction d as [|[k' v'] d IH]; simpl; [discriminate|].
  destruct (k' =? k); [intros H; injection H as <-; auto | auto].
Qed.

Lemma rank_title_length points m :
  (length (lit (get_rank_title_by_points points m)) <= 14)%nat.
Proof.
  assert (Hp : (length (lit (points_only points)) <= 14)%nat).
  { unfold points_only.
    destruct (750 <=? points); [simpl; lia|].
    destruct (350 <=? points); [simpl; lia|].
    destruct (10 <=? points); simpl; lia. }
  unfold get_rank_title_by_points. destruct m as [m|]; [|exact Hp].
  destruct (first_special (roles m)) as [title|] eqn:Hfs.
  - destruct (first_special_some _ _ Hfs) as [r [_ Hd]].
    apply dict_get_in in Hd. simpl in Hd.
    repeat (destruct Hd as [<-|Hd]; [simpl; lia|]). destruct Hd.
  - destruct ((750 <=? points) && user_has_role "Core Disciple" m);
      [simpl; lia|].
    destruct ((350 <=? points) && user_has_role "Inner Disciple" m);
      [simpl; lia|].
    destruct ((10 <=? points) && user_has_role "Outer Disciple" m);
      [simpl; lia|].
    destruct (points <? 10); [simpl; lia | exact Hp].
Qed.

Lemma entry_text_length py_int g row :
  row_in_range row -> py_len (entry_text py_int g row) <= 102.
Proof.
  intros [Hr Hpts]. unfold entry_text, py_len. rewrite !length_app.
  pose proof (rank_display_length _ Hr).
  pose proof (username_display_length (lb_username row)).
  pose proof (py_format_commas_length _ Hpts).
  pose proof (rank_title_length (lb_points row)
                                (discord_member_of py_int g row)).
  simpl length. lia.
Qed.

(** ** Ranking blocks of the renderer *)

Lemma set_nth_length {A} i (v : A) l : length (set_nth i v l) = length l.
Proof.
  revert i. induction l as [|x l IH]; intros [|i]; simpl; auto.
Qed.

Lemma set_nth_Forall {A} (P : A -> Prop) i v l :
  Forall P l -> P v -> Forall P (set_nth i v l).
Proof.
  intros Hl Hv. revert i. induction Hl as [|x l Hx Hl IH]; intros [|i]; simpl;
    constructor; auto.
Qed.

(** One iteration keeps [current_field] the index of the last text and
    moves it by at most one. *)
Lemma add_entry_index texts cf entry :
  length texts = S cf ->
  length (fst (add_entry (texts, cf) entry))
    = S (snd (add_entry (texts, cf) entry)) /\
  (snd (add_entry (texts, cf) entry) <= S cf)%nat.
Proof.
  intros Hl. unfold add_entry.
  destruct (950 <? py_len (nth cf texts [] ++ entry)); cbn [fst snd].
  - rewrite length_app. simpl. lia.
  - rewrite set_nth_length. lia.
Qed.

(** A text never grows past 950 characters: a line that would make it
    longer starts the next text. *)
Lemma add_entry_lengths texts cf entry :
  Forall (fun text => py_len text <= 950) texts ->
  py_len entry <= 950 ->
  Forall (fun text => py_len text <= 950)
         (fst (add_entry (texts, cf) entry)).
Proof.
  intros Ht He. unfold add_entry.
  destruct (Z.ltb_spec 950 (py_len (nth cf texts [] ++ entry))); cbn [fst].
  - apply Forall_app. split; [exact Ht | constructor; [exact He | constructor]].
  - apply set_nth_Forall; assumption.
Qed.

Section RendererFacts.
Variable py_int : pystr -> option Z.

Lemma fill_fields_index g rows : forall st,
  length (fst st) = S (snd st) -> (snd st < 20)%nat ->
  length (fst (fill_fields py_int g rows st))
    = S (snd (fill_fields py_int g rows st)) /\
  (snd (fill_fields py_int g rows st) <= 20)%nat.
Proof.
  induction rows as [|row rest IH]; intros [texts cf] Hl Hcf;
    cbn [fst snd] in *; cbn [fill_fields].
  - cbn [fst snd]. lia.
  - destruct (add_entry_index texts cf (entry_text py_int g row) Hl)
      as [Hl' Hcf'].
    destruct (Nat.leb_spec 20 (snd (add_entry (texts, cf)
                                      (entry_text py_int g row)))).
    + split; [exact Hl' | lia].
    + apply IH; assumption.
Qed.

Lemma fill_fields_lengths g rows : forall st,
  Forall (fun row => py_len (entry_text py_int g row) <= 950) rows ->
  Forall (fun text => py_len text <= 950) (fst st) ->
  Forall (fun text => py_len text <= 950)
         (fst (fill_fields py_int g rows st)).
Proof.
  induction rows as [|row rest IH]; intros [texts cf] Hrows Hst;
    cbn [fst] in *; cbn [fill_fields]; [exact Hst|].
  inversion Hrows as [|r l Hrow Hrest]; subst.
  pose proof (add_entry_lengths texts cf _ Hst Hrow) as Hnext.
  destruct (20 <=? snd (add_entry (texts, cf) (entry_text py_int g row)))%nat;
    [exact Hnext|].
  apply IH; assumption.
Qed.

Lemma rankings_texts_count g rows :
  (length (rankings_texts py_int g rows) <= 21)%nat.
Proof.
  unfold rankings_texts.
  destruct (fill_fields_index g rows ([[]], 0%nat) eq_refl ltac:(simpl; lia))
    as [Hl Hcf].
  lia.
Qed.

Lemma ranking_fields_count g rows :
  (length (ranking_fields py_int g rows) <= 21)%nat.
Proof.
  unfold ranking_fields. rewrite length_map.
  pose proof (filter_length_le strip_nonempty (rankings_texts py_int g rows)).
  pose proof (rankings_texts_count g rows). lia.
Qed.

End RendererFacts.

(** C9 (as the code has it).  For every list of page rows the renderer
    makes at most 21 ranking blocks (the loop stops once [current_field]
    has reached 20, which is the index of the twenty-first text), so the
    embed has at most 22 fields with the statistics block, under the limit
    of 25; and when the ranks and points of the rows are integers of the
    store, no ranking block is longer than 950 characters, below the
    limit of 1024: a line that would take a block past 950 starts a new
    block. *)
Theorem ranking_fields_bounds py_int format_large_number g rows
    current_page total_pages guild_name total_guild_points :
  (length (ranking_fields py_int g rows) <= 21)%nat /\
  (length (fields (create_leaderboard_embed py_int format_large_number rows
                     current_page total_pages guild_name g
                     total_guild_points)) <= 22)%nat /\
  (Forall row_in_range rows ->
   Forall (fun f => py_len (field_value f) <= 950)
          (ranking_fields py_int g rows)).
Proof.
  split; [apply ranking_fields_count|]. split.
  - unfold create_leaderboard_embed. destruct rows as [|row rest].
    + simpl. lia.
    + cbn [fields]. rewrite length_app.
      pose proof (ranking_fields_count py_int g (row :: rest)).
      simpl length. lia.
  - intros Hrows. unfold ranking_fields. apply Forall_map. cbn [field_value].
    apply Forall_forall. intros text Hin. apply filter_In in Hin.
    destruct Hin as [Hin _]. revert text Hin. apply Forall_forall.
    unfold rankings_texts. apply fill_fields_lengths.
    + eapply Forall_impl; [|exact Hrows]. intros row Hrow.
      pose proof (entry_text_length py_int g row Hrow). lia.
    + cbn [fst]. constructor; [unfold py_len; simpl; lia | constructor].
Qed.

(** C9, counterexample: on the long page the renderer makes 21 ranking
    blocks. *)
Lemma ranking_fields_twenty_one :
  length (ranking_fields decimal_int None long_page) = 21%nat /\
  ~ (length (ranking_fields decimal_int None long_page) <= 20)%nat.
Proof.
  assert (H : length (ranking_fields decimal_int None long_page) = 21%nat)
    by (vm_compute; reflexivity).
  split; [exact H | rewrite H; lia].
Qed.

Lemma ranking_fields_bounds_witness :
  Forall (fun f => py_len (field_value f) <= 950)
         (ranking_fields decimal_int None
            [mkRow 1 (py_str 7) (lit "alice") 100 10;
             mkRow 2 (py_str 8) (lit "bob") 50 20]).
Proof.
  apply (proj2 (proj2 (ranking_fields_bounds decimal_int py_str
                         None
                         [mkRow 1 (py_str 7) (lit "alice") 100 10;
                          mkRow 2 (py_str 8) (lit "bob") 50 20]
                         1 1 (lit "sect") None))).
  repeat constructor; simpl; lia.
Defined.

(** ** Checks of the formatting functions and of the scenarios *)

Example py_str_1234 : py_str 1234 = lit "1234".
Proof. reflexivity. Qed.
Example py_str_neg : py_str (-10000) = lit "-10000".
Proof. reflexivity. Qed.
Example py_str_zero : py_str 0 = lit "0".
Proof. reflexivity. Qed.
Example commas_big : py_format_commas 2147483647 = lit "2,147,483,647".
Proof. reflexivity. Qed.
Example commas_small : py_format_commas 999 = lit "999".
Proof. reflexivity. Qed.
Example commas_neg : py_format_commas (-1000) = lit "-1,000".
Proof. reflexivity. Qed.
Example commas_six : py_format_commas 123456 = lit "123,456".
Proof. reflexivity. Qed.

Example validate_in_range :
  validate_points_input decimal_int (lit "-10000") = Some (-10000).
Proof. reflexivity. Qed.

Example validate_out_of_range :
  validate_points_input decimal_int (lit "10001") = None.
Proof. reflexivity. Qed.

Example validate_not_a_number :
  validate_points_input decimal_int (lit "ten") = None.
Proof. reflexivity. Qed.

(** The clamp scenario: 5 points and a delta of -1000 leave 0 points. *)
Example clamp_scenario :
  let five := mkEntry 1 9 (lit "carol") 5 30 30 in
  fst (update_points w_ok 1 9 (-1000) None [five]) = true /\
  map points (snd (update_points w_ok 1 9 (-1000) None [five])) = [0].
Proof. split; reflexivity. Qed.

(** 760 points: a Core-tier role gives Core Disciple, an Outer-tier role
    alone gives Outer Disciple, no tier role gives Inner Disciple. *)
Example rank_scenarios :
  get_rank_title_by_points 760 (Some core_member) = "Core Disciple"%string /\
  get_rank_title_by_points 760
    (Some (mkMember 44 false (lit "outer") [1389474689818296370]))
    = "Outer Disciple"%string /\
  get_rank_title_by_points 760 (Some plain_member) = "Inner Disciple"%string /\
  get_rank_title_by_points 5
    (Some (mkMember 45 false (lit "lord") [1266143259801948261]))
    = "Demon God"%string.
Proof. repeat split. Qed.

Example entry_text_first :
  entry_text decimal_int None
    (mkRow 1 (py_str 7) (lit "a_very_long_username") 1234567 10)
  = lit "1st a_very_long_... - 1,234,567 pts " ++ [bullet]
    ++ lit " Inner Disciple" ++ [newline].
Proof. reflexivity. Qed.

(** * Further properties of the ledger store *)

(** ** The constraints of the schema are kept *)

Lemma keys_sql_update w p set t :
  (forall e, key_of (set e) = key_of e) ->
  map key_of (snd (sql_update w p set t)) = map key_of t.
Proof.
  intros Hk. unfold sql_update. cbn [snd]. rewrite map_map.
  apply map_ext. intros e. destruct (p e); [|reflexivity].
  rewrite <- (Hk e). reflexivity.
Qed.

Lemma keys_sql_upsert w g u nm set t :
  (forall e, key_of (set e) = key_of e) ->
  NoDup (map key_of t) ->
  NoDup (map key_of (sql_upsert w (new_entry w g u nm) set t)).
Proof.
  intros Hk Hnd. unfold sql_upsert. cbn [guild_id user_id new_entry].
  destruct (existsb (same_key g u) t) eqn:Hex.
  - rewrite keys_sql_update by exact Hk. exact Hnd.
  - rewrite map_app. cbn [map]. apply NoDup_app; [exact Hnd | |].
    + repeat constructor. intros [].
    + intros k Hin [<-|[]]. apply in_map_iff in Hin.
      destruct Hin as [e [Hke Hin]].
      assert (Hs : same_key g u e = true).
      { apply same_key_true. unfold key_of in Hke. cbn in Hke.
        injection Hke as -> ->. split; reflexivity. }
      assert (Hall : forall x, In x t -> same_key g u x = false).
      { intros x Hx. destruct (same_key g u x) eqn:Hsx; [|reflexivity].
        assert (existsb (same_key g u) t = true)
          by (apply existsb_exists; exists x; auto).
        congruence. }
      rewrite (Hall e Hin) in Hs. discriminate.
Qed.

Lemma keys_filter (p : entry -> bool) t :
  NoDup (map key_of t) -> NoDup (map key_of (filter p t)).
Proof.
  induction t as [|x t IH]; simpl; intros Hnd; [constructor|].
  inversion Hnd as [|k ks Hnotin Hnd']; subst.
  destruct (p x); simpl; [|apply IH, Hnd'].
  constructor; [|apply IH, Hnd'].
  intros Hin. apply Hnotin. apply in_map_iff in Hin.
  destruct Hin as [e [He Hin]]. apply filter_In in Hin.
  apply in_map_iff. exists e. tauto.
Qed.

Lemma remove_member_cases w g u t :
  snd (remove_member w g u t) = t \/
  snd (remove_member w g u t) = filter (fun e => negb (same_key g u e)) t.
Proof.
  unfold remove_member. destruct (pool w); simpl negb; cbv iota; [|auto].
  run_calls. destruct (fault w 0); [auto|]. destruct (fault w 1); [auto|].
  cbn [sql_delete]. right. destruct (fault w 2); [reflexivity|].
  destruct (_ =? 1); reflexivity.
Qed.

Lemma upsert_nonneg w g u nm set t :
  (forall e, 0 <= points e -> 0 <= points (set e)) ->
  Forall (fun e => 0 <= points e) t ->
  Forall (fun e => 0 <= points e)
         (sql_upsert w (new_entry w g u nm) set t).
Proof.
  intros Hset Ht. unfold sql_upsert. destruct (existsb _ t).
  - apply sql_update_nonneg; assumption.
  - apply Forall_app. split; [exact Ht|]. repeat constructor. simpl. lia.
Qed.

Lemma update_points_cases w g u d name t :
  snd (update_points w g u d name t) = t \/
  snd (update_points w g u d name t) = ensured w g u name t \/
  exists c,
    snd (update_points w g u d name t) =
    snd (sql_update w (same_key g u) (set_points w (Z.max 0 (c + d)))
                    (ensured w g u name t)).
Proof.
  destruct (pool w) eqn:Hp.
  2:{ left. unfold update_points. rewrite Hp. reflexivity. }
  destruct (faulted_dec w (update_points_calls name)) as [Hf|Hf].
  { left. rewrite (update_points_fault w g u d name t Hp Hf). reflexivity. }
  rewrite (update_points_run w g u d name t Hp Hf).
  destruct (fetch_points g u (ensured w g u name t)) as [c|]; [|auto].
  destruct (int4 (Z.max 0 (c + d))); [|auto].
  right. right. exists c. reflexivity.
Qed.

Lemma keys_ensured w g u name t :
  NoDup (map key_of t) -> NoDup (map key_of (ensured w g u name t)).
Proof.
  intros Hnd. unfold ensured. destruct name as [nm|]; [|exact Hnd].
  destruct (supplied (Some nm)); [|exact Hnd].
  apply keys_sql_upsert; [apply key_set_username | exact Hnd].
Qed.

(** X1.  The three mutations keep the primary key unique and the points
    non-negative, in every environment (faults included). *)
Theorem ledger_inv_kept w g u d name nm t :
  ledger_inv t ->
  ledger_inv (snd (add_member w g u nm t)) /\
  ledger_inv (snd (update_points w g u d name t)) /\
  ledger_inv (snd (remove_member w g u t)).
Proof.
  intros [Hnd Hpos]. unfold ledger_inv. repeat split.
  - destruct (add_member_cases w g u nm t) as [_ [-> | ->]]; [exact Hnd|].
    apply keys_sql_upsert; [apply key_set_username_touch | exact Hnd].
  - destruct (add_member_cases w g u nm t) as [_ [-> | ->]]; [exact Hpos|].
    apply upsert_nonneg; [auto | exact Hpos].
  - destruct (update_points_cases w g u d name t) as [-> | [-> | [c ->]]].
    + exact Hnd.
    + apply keys_ensured, Hnd.
    + rewrite keys_sql_update by apply key_set_points.
      apply keys_ensured, Hnd.
  - apply update_points_keeps_nonneg, Hpos.
  - destruct (remove_member_cases w g u t) as [-> | ->]; [exact Hnd|].
    apply keys_filter, Hnd.
  - destruct (remove_member_cases w g u t) as [-> | ->]; [exact Hpos|].
    apply Forall_forall. intros e He. apply filter_In in He.
    rewrite Forall_forall in Hpos. apply Hpos. tauto.
Qed.

Lemma sample_ledger_inv : ledger_inv [alice; bob].
Proof.
  split.
  - repeat constructor; simpl; intuition discriminate.
  - repeat constructor; discriminate.
Qed.

Lemma ledger_inv_kept_witness :
  ledger_inv (snd (update_points w_ok 1 8 (-1000) (Some (lit "bob"))
                     [alice; bob])).
Proof.
  exact (proj1 (proj2 (ledger_inv_kept w_ok 1 8 (-1000) (Some (lit "bob"))
                         (lit "bob") [alice; bob] sample_ledger_inv))).
Defined.

(** ** [update_points]: first grant, sequences, guild total *)

(** The entry under the key after an update whose result the column can
    hold. *)
Lemma update_points_stores w g u d name t c :
  pool w = true -> no_fault w ->
  fetch_points g u (ensured w g u name t) = Some c ->
  c + d <= int4_max ->
  fst (update_points w g u d name t) = true /\
  fetch_points g u (snd (update_points w g u d name t))
    = Some (Z.max 0 (c + d)).
Proof.
  intros Hp Hf Hc Hle.
  rewrite (update_points_run w g u d name t Hp (no_fault_bounded w _ Hf)).
  rewrite Hc, int4_clamped, (Hf _).
  destruct (Z.leb_spec (c + d) int4_max); [|lia]. cbn [fst snd negb].
  split; [reflexivity|].
  unfold fetch_points in *.
  rewrite find_sql_update by apply key_set_points.
  destruct (find (same_key g u) (ensured w g u name t)) as [e|] eqn:He;
    [|discriminate].
  simpl. assert (same_key g u e = true) as ->
    by (apply find_some in He; tauto).
  reflexivity.
Qed.

(** An update whose result the column cannot hold changes nothing: the
    upsert made in the same transaction is undone with it. *)
Lemma update_points_rejected w g u d name t c :
  pool w = true -> no_fault w ->
  fetch_points g u (ensured w g u name t) = Some c ->
  int4_max < c + d ->
  update_points w g u d name t = (false, t).
Proof.
  intros Hp Hf Hc Hgt.
  rewrite (update_points_run w g u d name t Hp (no_fault_bounded w _ Hf)).
  rewrite Hc, int4_clamped.
  destruct (Z.leb_spec (c + d) int4_max); [lia | reflexivity].
Qed.

(** X2.  A first grant.  For a user with no entry, [update_points] with a
    username creates the entry and applies the delta to 0 points (pool
    set, no fault): with a delta of at most 2147483647 it returns [True]
    and leaves [max(0, d)] points under the truncated username; with a
    larger delta the [UPDATE] is rejected, the insert is rolled back with
    it, and the call returns [False] with the table as it was, so no
    entry is created. *)
Theorem update_points_first_grant w g u d nm t :
  pool w = true -> no_fault w ->
  fetch_points g u t = None -> supplied (Some nm) = true ->
  (d <= int4_max ->
   fst (update_points w g u d (Some nm) t) = true /\
   fetch_points g u (snd (update_points w g u d (Some nm) t))
     = Some (Z.max 0 d) /\
   option_map username
     (find (same_key g u) (snd (update_points w g u d (Some nm) t)))
     = Some (slice_to 255 nm)) /\
  (int4_max < d -> update_points w g u d (Some nm) t = (false, t)).
Proof.
  intros Hp Hf Habs Hs.
  pose proof (fetch_points_ensured w g u (Some nm) t g u) as He.
  rewrite Habs, Hs, !Z.eqb_refl in He. cbn [andb] in He.
  split.
  - intros Hle.
    destruct (update_points_stores w g u d (Some nm) t 0 Hp Hf He Hle)
      as [H1 H2].
    split; [exact H1|]. split; [exact H2|].
    rewrite (update_points_run w g u d (Some nm) t Hp
               (no_fault_bounded w _ Hf)).
    rewrite He, int4_clamped.
    destruct (Z.leb_spec (0 + d) int4_max); [|lia]. cbn [fst snd].
    rewrite find_sql_update by apply key_set_points.
    unfold ensured. rewrite Hs.
    rewrite find_sql_upsert by apply key_set_username.
    unfold fetch_points in Habs.
    destruct (find (same_key g u) t); [discriminate|].
    rewrite !Z.eqb_refl. cbn [andb option_map].
    unfold same_key, new_entry. cbn. rewrite !Z.eqb_refl. reflexivity.
  - intros Hgt.
    apply (update_points_rejected w g u d (Some nm) t 0 Hp Hf He Hgt).
Qed.

Lemma update_points_first_grant_witness :
  fetch_points 1 9
    (snd (update_points w_ok 1 9 (-3) (Some (lit "carol")) [alice; bob]))
  = Some 0.
Proof.
  destruct (update_points_first_grant w_ok 1 9 (-3) (lit "carol")
              [alice; bob] eq_refl w_ok_no_fault eq_refl eq_refl)
    as [Hfits _].
  destruct Hfits as [_ [H _]]; [unfold int4_max; lia | exact H].
Defined.

Lemma ensured_present w g u name t c :
  fetch_points g u t = Some c ->
  fetch_points g u (ensured w g u name t) = Some c.
Proof.
  intros Hc. rewrite fetch_points_ensured, Hc. reflexivity.
Qed.

(** X3.  Two updates in a row (pool set, no fault, each new value within
    the [INTEGER] column).  The second delta applies to the clamped
    result of the first: from [c] points, [d1] then [d2] leave
    [max(0, max(0, c + d1) + d2)], which is [c + d1 + d2] when the first
    update does not go below zero and the sum does not either; the floor
    makes the order of the deltas matter otherwise. *)
Theorem update_points_sequence w1 w2 g u d1 d2 n1 n2 t c :
  pool w1 = true -> no_fault w1 -> pool w2 = true -> no_fault w2 ->
  fetch_points g u t = Some c ->
  c + d1 <= int4_max -> Z.max 0 (c + d1) + d2 <= int4_max ->
  fetch_points g u
    (snd (update_points w2 g u d2 n2 (snd (update_points w1 g u d1 n1 t))))
  = Some (Z.max 0 (Z.max 0 (c + d1) + d2)) /\
  (0 <= c + d1 -> 0 <= c + d1 + d2 ->
   fetch_points g u
     (snd (update_points w2 g u d2 n2 (snd (update_points w1 g u d1 n1 t))))
   = Some (c + d1 + d2)).
Proof.
  intros Hp1 Hf1 Hp2 Hf2 Hc Hle1 Hle2.
  destruct (update_points_stores w1 g u d1 n1 t c Hp1 Hf1
              (ensured_present w1 g u n1 t c Hc) Hle1) as [_ H1].
  destruct (update_points_stores w2 g u d2 n2 _ _ Hp2 Hf2
              (ensured_present w2 g u n2 _ _ H1) Hle2) as [_ H2].
  split; [exact H2|]. intros Ha Hb. rewrite H2. f_equal. lia.
Qed.

Lemma update_points_sequence_witness :
  fetch_points 1 8
    (snd (update_points w_ok 1 8 60 None
            (snd (update_points w_ok 1 8 (-100) None [alice; bob]))))
  = Some 60.
Proof.
  refine (proj1 (update_points_sequence w_ok w_ok 1 8 (-100) 60 None None
                  [alice; bob] 50 eq_refl w_ok_no_fault eq_refl w_ok_no_fault
                  eq_refl _ _)); unfold int4_max; lia.
Defined.

(** The sum read by [get_total_guild_points]. *)
Lemma get_total_guild_points_run w g t :
  pool w = true -> fault w 0 = false -> fault w 1 = false ->
  fault w 2 = false ->
  get_total_guild_points w g t = sum_points (filter (in_guild g) t).
Proof.
  intros Hp H0 H1 H2. unfold get_total_guild_points. rewrite Hp. simpl negb.
  cbv iota. run_calls. rewrite H0, H1, H2. cbn [fst].
  destruct (Z.eqb_spec (sum_points (filter (in_guild g) t)) 0) as [->|];
    reflexivity.
Qed.

Lemma sum_points_nonneg l :
  Forall (fun e => 0 <= points e) l -> 0 <= sum_points l.
Proof.
  induction 1 as [|e l He Hl IH]; [reflexivity|].
  change (0 <= points e + sum_points l). lia.
Qed.

Lemma sum_points_cons e l : sum_points (e :: l) = points e + sum_points l.
Proof. reflexivity. Qed.

(** Rewriting the one row of a key moves the guild's sum by the change of
    that row's points. *)
Lemma sum_points_rewrite g u g' (f : entry -> entry) t e0 :
  (forall e, key_of (f e) = key_of e) ->
  NoDup (map key_of t) ->
  find (same_key g u) t = Some e0 ->
  sum_points (filter (in_guild g')
                     (map (fun e => if same_key g u e then f e else e) t))
  = sum_points (filter (in_guild g') t)
    + (if g' =? g then points (f e0) - points e0 else 0).
Proof.
  intros Hk. induction t as [|x t IH]; intros Hnd Hfind; [discriminate|].
  inversion Hnd as [|k ks Hnotin Hnd']; subst.
  cbn [find] in Hfind. cbn [map].
  destruct (same_key g u x) eqn:Hx.
  - injection Hfind as <-.
    assert (Hrest : map (fun e => if same_key g u e then f e else e) t = t).
    { rewrite <- (map_id t) at 2. apply map_ext_in. intros e He.
      destruct (same_key g u e) eqn:Hse; [|reflexivity].
      exfalso. apply Hnotin. apply in_map_iff. exists e. split; [|exact He].
      apply same_key_true in Hx, Hse. unfold key_of.
      destruct Hx, Hse. congruence. }
    rewrite Hrest. cbn [filter].
    assert (Hg : in_guild g' (f x) = in_guild g' x).
    { unfold in_guild. specialize (Hk x). unfold key_of in Hk.
      injection Hk as -> _. reflexivity. }
    rewrite Hg. apply same_key_true in Hx. destruct Hx as [Hgx _].
    assert (Hgx' : in_guild g' x = (g' =? g))
      by (unfold in_guild; rewrite Hgx; apply Z.eqb_sym).
    rewrite Hgx'. destruct (g' =? g); rewrite ?sum_points_cons; lia.
  - cbn [filter]. specialize (IH Hnd' Hfind).
    destruct (in_guild g' x); rewrite ?sum_points_cons; lia.
Qed.

Lemma sum_points_ensured w g u name t g' c :
  NoDup (map key_of t) -> fetch_points g u t = Some c ->
  sum_points (filter (in_guild g') (ensured w g u name t))
  = sum_points (filter (in_guild g') t).
Proof.
  intros Hnd Hc. unfold ensured. destruct name as [nm|]; [|reflexivity].
  destruct (supplied (Some nm)); [|reflexivity].
  unfold sql_upsert. cbn [guild_id user_id new_entry]. rewrite existsb_find.
  unfold fetch_points in Hc.
  destruct (find (same_key g u) t) as [e0|] eqn:He; [|discriminate].
  unfold sql_update. cbn [snd].
  rewrite (sum_points_rewrite g u g'
             (fun e => update_last_updated w (set_username nm e)) t e0);
    [|reflexivity | exact Hnd | exact He].
  cbn. destruct (g' =? g); lia.
Qed.

(** X4.  The guild total follows the applied delta.  After an
    [update_points] on an entry with [c] points (unique keys, pool set,
    no fault), the total read by [get_total_guild_points] for the entry's
    guild has moved by [max(0, c + d) - c], the delta actually applied,
    when [c + d] is at most 2147483647, and has not moved when [c + d] is
    larger and the update is rejected; the total of every other guild is
    unchanged. *)
Theorem guild_total_after_update w w' g u d name t c g' :
  pool w = true -> no_fault w -> pool w' = true -> no_fault w' ->
  NoDup (map key_of t) -> fetch_points g u t = Some c ->
  get_total_guild_points w' g' (snd (update_points w g u d name t))
  = get_total_guild_points w' g' t
    + (if (g' =? g) && (c + d <=? int4_max)
       then Z.max 0 (c + d) - c else 0).
Proof.
  intros Hp Hf Hp' Hf' Hnd Hc.
  rewrite !(get_total_guild_points_run w' g') by auto.
  rewrite (update_points_run w g u d name t Hp (no_fault_bounded w _ Hf)).
  rewrite (ensured_present w g u name t c Hc), int4_clamped.
  destruct (c + d <=? int4_max); cbn [fst snd].
  2:{ rewrite andb_false_r. lia. }
  rewrite andb_true_r.
  unfold sql_update. cbn [snd].
  pose proof (ensured_present w g u name t c Hc) as Hc'.
  unfold fetch_points in Hc'.
  destruct (find (same_key g u) (ensured w g u name t)) as [e1|] eqn:He1;
    [|discriminate].
  cbn in Hc'. injection Hc' as Hc'.
  rewrite (sum_points_rewrite g u g'
             (fun e => update_last_updated w
                         (set_points w (Z.max 0 (c + d)) e))
             (ensured w g u name t) e1);
    [|reflexivity | apply keys_ensured, Hnd | exact He1].
  rewrite (sum_points_ensured w g u name t g' c Hnd Hc).
  cbn. rewrite Hc'. reflexivity.
Qed.

Lemma guild_total_after_update_witness :
  get_total_guild_points w_ok 1
    (snd (update_points w_ok 1 8 (-1000) None [alice; bob])) = 100.
Proof.
  assert (Hnd : NoDup (map key_of [alice; bob])).
  { repeat constructor; simpl; intuition discriminate. }
  exact (guild_total_after_update w_ok w_ok 1 8 (-1000) None [alice; bob] 50 1
           eq_refl w_ok_no_fault eq_refl w_ok_no_fault Hnd eq_refl).
Defined.

(** ** The pages of a guild together *)

Lemma firstn_plus {A} a : forall b (l : list A),
  firstn (a + b) l = firstn a l ++ firstn b (skipn a l).
Proof.
  induction a as [|a IH]; intros b l; [reflexivity|].
  destruct l as [|x l]; simpl.
  - rewrite firstn_nil. reflexivity.
  - rewrite IH. reflexivity.
Qed.

Lemma concat_windows {A} (k : nat) (l : list A) n :
  concat (map (fun i => firstn k (skipn (i * k) l)) (seq 0 n))
  = firstn (n * k) l.
Proof.
  induction n as [|n IH]; [reflexivity|].
  rewrite seq_S, map_app, concat_app, IH. cbn [map concat plus].
  rewrite app_nil_r.
  replace (S n * k)%nat with (n * k + k)%nat by lia.
  symmetry. apply firstn_plus.
Qed.

Lemma total_pages_cover n per_page :
  0 < n -> 0 < per_page -> n <= (n + per_page - 1) / per_page * per_page.
Proof.
  intros Hn Hpp.
  pose proof (Z.div_mod (n + per_page - 1) per_page ltac:(lia)) as Hdm.
  pose proof (Z.mod_pos_bound (n + per_page - 1) per_page Hpp) as Hm.
  nia.
Qed.

(** X5.  The pages partition the guild.  Reading pages 1, 2, ..., up to the
    [total_pages] the function reports gives, one after the other, every
    entry of the guild exactly once, in leaderboard order and with ranks
    1, 2, ...: no entry is skipped or repeated between pages. *)
Theorem pages_cover_guild w g per_page t :
  pool w = true -> no_fault w ->
  Forall (fun e => 0 <= points e) t ->
  0 < per_page -> filter (in_guild g) t <> [] ->
  concat
    (map (fun p =>
            fst (fst (_get_leaderboard_async w g (Z.of_nat p) per_page t)))
         (seq 1 (Z.to_nat (snd (_get_leaderboard_async w g 1 per_page t)))))
  = map format_row (number_from 1 (full_ordering g t)).
Proof.
  intros Hp Hf Hinv Hpp Hne.
  assert (Hn : 0 < Z.of_nat (length (full_ordering g t))).
  { rewrite full_ordering_length.
    destruct (filter (in_guild g) t); [congruence | simpl; lia]. }
  destruct (total_pages_bounds _ per_page Hn Hpp) as [Htp _].
  pose proof (total_pages_cover _ per_page Hn Hpp) as Hcover.
  set (tp := (Z.of_nat (length (full_ordering g t)) + per_page - 1)
             / per_page) in *.
  assert (Hrun : forall page,
    _get_leaderboard_async w g page per_page t =
    (page_rows g (Z.max 1 (Z.min page (Z.max 1 tp))) per_page t,
     Z.max 1 (Z.min page (Z.max 1 tp)), Z.max 1 tp)).
  { intros page. apply (get_leaderboard_run w g page per_page t); assumption. }
  rewrite (Hrun 1). cbn [snd].
  replace (Z.max 1 tp) with tp in * by lia.
  rewrite <- seq_shift, map_map.
  assert (Hpages : forall i, In i (seq 0 (Z.to_nat tp)) ->
    fst (fst (_get_leaderboard_async w g (Z.of_nat (S i)) per_page t))
    = map format_row
        (firstn (Z.to_nat per_page)
                (skipn (i * Z.to_nat per_page)
                       (number_from 1 (full_ordering g t))))).
  { intros i Hi. apply in_seq in Hi. rewrite (Hrun (Z.of_nat (S i))).
    cbn [fst]. unfold page_rows.
    replace (Z.max 1 (Z.min (Z.of_nat (S i)) tp)) with (Z.of_nat (S i))
      by lia.
    replace (Z.to_nat ((Z.of_nat (S i) - 1) * per_page))
      with (i * Z.to_nat per_page)%nat by nia.
    reflexivity. }
  rewrite (map_ext_in _ _ _ Hpages).
  rewrite <- (map_map (fun i => firstn (Z.to_nat per_page)
                                (skipn (i * Z.to_nat per_page)
                                   (number_from 1 (full_ordering g t))))
                      (map format_row)).
  rewrite <- concat_map, concat_windows. f_equal.
  apply firstn_all2. rewrite number_from_length. nia.
Qed.

Lemma pages_cover_guild_witness :
  concat
    (map (fun p => fst (fst (_get_leaderboard_async w_ok 1 (Z.of_nat p) 1
                               [alice; bob])))
         (seq 1 (Z.to_nat (snd (_get_leaderboard_async w_ok 1 1 1
                                  [alice; bob])))))
  = map format_row (number_from 1 (full_ordering 1 [alice; bob])).
Proof.
  assert (Hne : filter (in_guild 1) [alice; bob] <> []) by discriminate.
  assert (Hinv : Forall (fun e => 0 <= points e) [alice; bob])
    by (repeat constructor; discriminate).
  exact (pages_cover_guild w_ok 1 1 [alice; bob] eq_refl w_ok_no_fault Hinv
           eq_refl Hne).
Defined.

(** ** [search_users] *)

(** X6.  The ranks of a search.  [search_users] returns at most 50 rows, the
    first rows of the matching entries in leaderboard order, and the
    [rank] of the row at position [i] is [i + 1]: the position among the
    matches of this search, not the rank in the guild. *)
Theorem search_users_ranks ilike w g text t :
  pool w = true -> no_fault w ->
  let matches :=
    filter (fun e => in_guild g e
                     && ilike (username e) ([percent] ++ text ++ [percent]))
           t in
  let rows := search_users ilike w g text t in
  length rows = Nat.min 50 (length matches) /\
  (forall i, (i < length rows)%nat ->
     exists e,
       nth_error (order_by before matches) i = Some e /\
       In e matches /\
       nth_error rows i = Some (format_row (Z.of_nat i + 1, e))).
Proof.
  intros Hp Hf matches rows.
  assert (Hrows : rows = map format_row
                    (firstn 50 (number_from 1 (order_by before matches)))).
  { unfold rows, search_users. rewrite Hp. simpl negb. cbv iota.
    run_calls. rewrite !Hf. cbn [fst]. unfold search_query, row_number_over.
    fold matches. rewrite order_by_of_sorted; [reflexivity|].
    apply number_from_sorted.
    apply (order_by_sorted before before_total before_trans). }
  assert (Hlen : length rows = Nat.min 50 (length matches)).
  { rewrite Hrows, length_map, length_firstn, number_from_length.
    rewrite (Permutation_length (order_by_perm before matches)).
    reflexivity. }
  split; [exact Hlen|].
  intros i Hi.
  destruct (nth_error (order_by before matches) i) as [e|] eqn:He.
  2:{ apply nth_error_None in He.
      rewrite (Permutation_length (order_by_perm before matches)) in He. lia. }
  exists e. split; [reflexivity|]. split.
  - apply (Permutation_in _ (order_by_perm before matches)).
    eapply nth_error_In. exact He.
  - rewrite Hrows, nth_error_map, nth_error_firstn.
    destruct (Nat.ltb_spec i 50); [|lia].
    rewrite number_from_nth, He. cbn [option_map].
    do 3 f_equal. lia.
Qed.

(** The search runs on the sample guild with a matcher that accepts every
    row: bob is second of two matches. *)
Lemma search_users_ranks_witness :
  map rank (search_users (fun _ _ => true) w_ok 1 (lit "b") [bob; alice])
  = [1; 2].
Proof.
  destruct (search_users_ranks (fun _ _ => true) w_ok 1 (lit "b") [bob; alice]
              eq_refl w_ok_no_fault) as [Hlen _].
  revert Hlen. vm_compute. reflexivity.
Defined.

(** ** [initialize_guild] *)

Lemma add_member_other w g u nm t g' u' :
  (g', u') <> (g, u) ->
  fetch_points g' u' (snd (add_member w g u nm t)) = fetch_points g' u' t.
Proof.
  intros Hne. destruct (add_member_cases w g u nm t) as [_ [-> | ->]];
    [reflexivity|].
  unfold fetch_points.
  rewrite find_sql_upsert by apply key_set_username_touch.
  assert (Hk : (g =? g') && (u =? u') = false).
  { destruct (Z.eqb_spec g g'); [|reflexivity].
    destruct (Z.eqb_spec u u'); [|reflexivity]. subst. congruence. }
  rewrite Hk.
  destruct (find (same_key g' u') t) as [x|] eqn:Hx;
    destruct (find (same_key g u) t); cbn [option_map]; try reflexivity.
  destruct (same_key g u x) eqn:Hgx; [|reflexivity].
  apply find_some in Hx. destruct Hx as [_ Hx].
  destruct (same_key_other _ _ _ _ _ Hgx Hx) as [-> ->]. congruence.
Qed.

Lemma add_member_present w g u nm t :
  pool w = true -> no_fault w ->
  fetch_points g u (snd (add_member w g u nm t)) <> None.
Proof.
  intros Hp Hf. rewrite (add_member_run w g u nm t Hp (Hf _) (Hf _)).
  cbn [snd]. unfold fetch_points.
  rewrite find_sql_upsert by apply key_set_username_touch.
  destruct (find (same_key g u) t) as [x|]; cbn [option_map]; [discriminate|].
  rewrite !Z.eqb_refl. discriminate.
Qed.

Lemma add_member_monotone w g u nm t g' u' :
  fetch_points g' u' t <> None ->
  fetch_points g' u' (snd (add_member w g u nm t)) <> None.
Proof.
  destruct (fetch_points g' u' t) as [c|] eqn:Hc; [|congruence].
  intros _. rewrite (add_member_keeps_points w g u nm t g' u' c Hc).
  discriminate.
Qed.

Lemma add_members_keep ws g ms : forall k t g' u' c,
  fetch_points g' u' t = Some c ->
  fetch_points g' u' (add_members ws k g ms t) = Some c.
Proof.
  induction ms as [|m ms IH]; intros k t g' u' c Hc; [exact Hc|].
  cbn [add_members]. apply IH. apply add_member_keeps_points, Hc.
Qed.

Lemma add_members_present ws g ms : forall k t m,
  (forall j, pool (ws j) = true /\ no_fault (ws j)) ->
  In m ms ->
  fetch_points g (member_id m) (add_members ws k g ms t) <> None.
Proof.
  induction ms as [|m0 ms IH]; intros k t m Hws Hin; [destruct Hin|].
  cbn [add_members]. destruct Hin as [<- | Hin]; [|apply IH; assumption].
  destruct (fetch_points g (member_id m0)
              (snd (add_member (ws k) g (member_id m0) (display_name m0) t)))
    as [c|] eqn:Hc.
  - rewrite (add_members_keep ws g ms _ _ _ _ c Hc). discriminate.
  - exfalso. revert Hc. apply add_member_present; apply Hws.
Qed.

Lemma add_members_only ws g ms : forall k t g' u',
  fetch_points g' u' t = None ->
  (forall m, In m ms -> (g', u') <> (g, member_id m)) ->
  fetch_points g' u' (add_members ws k g ms t) = None.
Proof.
  induction ms as [|m0 ms IH]; intros k t g' u' Hc Hms; [exact Hc|].
  cbn [add_members]. apply IH.
  - rewrite add_member_other; [exact Hc | apply Hms; left; reflexivity].
  - intros m Hm. apply Hms. right. exact Hm.
Qed.

(** X7.  What [initialize_guild] does to the ledger.  In every environment
    it leaves the points of the entries that exist untouched and creates
    no entry for a bot or for a user who is not a member; and when the
    pool is set and no storage call fails, every member that is not a bot
    has an entry afterwards. *)
Theorem initialize_guild_members w ws g members t :
  (forall g' u' c,
     fetch_points g' u' t = Some c ->
     fetch_points g' u' (initialize_guild w ws g members t) = Some c) /\
  (forall g' u',
     fetch_points g' u' t = None ->
     (forall m, In m members -> bot m = false ->
                (g', u') <> (g, member_id m)) ->
     fetch_points g' u' (initialize_guild w ws g members t) = None) /\
  (pool w = true -> (forall j, pool (ws j) = true /\ no_fault (ws j)) ->
   forall m, In m members -> bot m = false ->
     fetch_points g (member_id m) (initialize_guild w ws g members t)
     <> None).
Proof.
  unfold initialize_guild. repeat split.
  - intros g' u' c Hc. destruct (pool w); simpl negb; cbv iota; [|exact Hc].
    apply add_members_keep, Hc.
  - intros g' u' Hc Hms. destruct (pool w); simpl negb; cbv iota; [|exact Hc].
    apply add_members_only; [exact Hc|].
    intros m Hm. apply filter_In in Hm. destruct Hm as [Hin Hb].
    apply Hms; [exact Hin|]. destruct (bot m); [discriminate | reflexivity].
  - intros Hp Hws m Hin Hb. rewrite Hp. simpl negb. cbv iota.
    apply add_members_present; [exact Hws|].
    apply filter_In. split; [exact Hin|]. rewrite Hb. reflexivity.
Qed.

Lemma initialize_guild_members_witness :
  fetch_points 1 43
    (initialize_guild w_ok (fun _ => w_ok) 1 [core_member; plain_member]
                      [alice; bob]) <> None.
Proof.
  apply (proj2 (proj2 (initialize_guild_members w_ok (fun _ => w_ok) 1
                         [core_member; plain_member] [alice; bob]))
           eq_refl (fun _ => conj eq_refl w_ok_no_fault) plain_member).
  - right. left. reflexivity.
  - reflexivity.
Defined.

(** ** [cleanup_old_data] *)

(** X8.  [cleanup_old_data] removes nothing.  Whatever the age limit, the
    rows and the environment, it returns [None] and leaves the table as
    it was: the cutoff date raises before the [DELETE] is sent. *)
Theorem cleanup_old_data_keeps_table w days_old t :
  cleanup_old_data w days_old t = (PyNone, t).
Proof.
  unfold cleanup_old_data. destruct (pool w); simpl negb; cbv iota;
    [|reflexivity].
  run_calls. destruct (fault w 0); reflexivity.
Qed.

(** ** Leaving and joining again *)

Lemma get_user_stats_absent w g u t :
  fetch_points g u t = None -> get_user_stats w g u t = None.
Proof.
  intros Habs. unfold get_user_stats. destruct (pool w); simpl negb; cbv iota;
    [|reflexivity].
  run_calls. destruct (fault w 0); [reflexivity|].
  destruct (fault w 1); [reflexivity|].
  destruct (fault w 2); [reflexivity|]. cbn [fst].
  unfold stats_query, row_number_over, fetch_points in *.
  rewrite find_hd_filter in Habs.
  destruct (filter (same_key g u) t); [reflexivity | discriminate].
Qed.

(** X9.  No tombstone.  After [remove_member] (pool set, no fault) the user
    has no statistics, and an [add_member] that follows gives an entry
    with 0 points: the points held before leaving are not restored. *)
Theorem rejoin_starts_from_zero w1 w2 w3 g u nm t :
  pool w1 = true -> no_fault w1 -> pool w2 = true -> no_fault w2 ->
  get_user_stats w3 g u (snd (remove_member w1 g u t)) = None /\
  fetch_points g u
    (snd (add_member w2 g u nm (snd (remove_member w1 g u t)))) = Some 0.
Proof.
  intros Hp1 Hf1 Hp2 Hf2.
  rewrite (remove_member_run w1 g u t Hp1 (Hf1 _) (Hf1 _) (Hf1 _)). cbn [snd].
  assert (Habs : fetch_points g u
                   (filter (fun e => negb (same_key g u e)) t) = None).
  { unfold fetch_points. rewrite find_filter_out, !Z.eqb_refl. reflexivity. }
  split; [apply get_user_stats_absent, Habs|].
  rewrite (add_member_run w2 g u nm _ Hp2 (Hf2 _) (Hf2 _)). cbn [snd].
  unfold fetch_points in *.
  rewrite find_sql_upsert by apply key_set_username_touch.
  destruct (find (same_key g u) (filter (fun e => negb (same_key g u e)) t));
    [discriminate|].
  rewrite !Z.eqb_refl. reflexivity.
Qed.

Lemma rejoin_starts_from_zero_witness :
  fetch_points 1 7
    (snd (add_member w_ok 1 7 (lit "alice")
            (snd (remove_member w_ok 1 7 [alice; bob])))) = Some 0.
Proof.
  exact (proj2 (rejoin_starts_from_zero w_ok w_ok w_ok 1 7 (lit "alice")
                  [alice; bob] eq_refl w_ok_no_fault eq_refl w_ok_no_fault)).
Defined.

(** ** The [addpoints] command on an amount in range *)

Lemma stats_points_found w g u t :
  pool w = true -> no_fault w -> NoDup (map key_of t) ->
  match get_user_stats w g u t with
  | Some s => st_points s
  | None => 0
  end
  = match fetch_points g u t with Some c => c | None => 0 end.
Proof.
  intros Hp Hf Hnd. rewrite (get_user_stats_found w g u t Hp Hf Hnd).
  unfold fetch_points. destruct (find (same_key g u) t); reflexivity.
Qed.

(** X10.  The answer of [addpoints].  For a member that is not a bot, with a
    display name, and an amount within the limit (pool set, no fault,
    unique keys): when the previous points (0 for a user with no entry,
    who gets one) plus the amount do not exceed 2147483647, the command
    reports the previous points, the amount asked for, and the new total
    [max(0, previous + amount)], which is what the ledger then holds, so
    the reported change is the amount asked for even when the floor
    applied a smaller one; when they do exceed it, the command answers
    that the update failed and the ledger is as it was. *)
Theorem add_points_reply w1 w2 w3 g user pts t :
  bot user = false -> supplied (Some (display_name user)) = true ->
  -10000 <= pts <= 10000 ->
  pool w1 = true -> no_fault w1 -> pool w2 = true -> no_fault w2 ->
  pool w3 = true -> no_fault w3 -> NoDup (map key_of t) ->
  let previous :=
    match fetch_points g (member_id user) t with
    | Some c => c
    | None => 0
    end in
  (previous + pts <= int4_max ->
   fst (add_points w1 w2 w3 g user pts t)
     = PointsUpdated previous pts (Z.max 0 (previous + pts)) /\
   fetch_points g (member_id user) (snd (add_points w1 w2 w3 g user pts t))
     = Some (Z.max 0 (previous + pts))) /\
  (int4_max < previous + pts ->
   add_points w1 w2 w3 g user pts t = (UpdateFailed, t)).
Proof.
  intros Hb Hs Hr Hp1 Hf1 Hp2 Hf2 Hp3 Hf3 Hnd previous.
  unfold add_points. rewrite Hb.
  destruct (Z.ltb_spec pts (-10000)); [lia|].
  destruct (Z.gtb_spec pts 10000); [lia|]. cbn [orb].
  assert (He : fetch_points g (member_id user)
                 (ensured w2 g (member_id user) (Some (display_name user)) t)
               = Some previous).
  { rewrite fetch_points_ensured, Hs, !Z.eqb_refl. unfold previous.
    destruct (fetch_points g (member_id user) t); reflexivity. }
  split.
  - intros Hle.
    destruct (update_points_stores w2 g (member_id user) pts
                (Some (display_name user)) t previous Hp2 Hf2 He Hle)
      as [Hok Hnew].
    destruct (update_points w2 g (member_id user) pts
                (Some (display_name user)) t) as [success t'] eqn:Hup.
    cbn [fst snd] in *. subst success.
    assert (Hnd' : NoDup (map key_of t')).
    { destruct (update_points_cases w2 g (member_id user) pts
                  (Some (display_name user)) t) as [Hc | [Hc | [c Hc]]];
        rewrite Hup in Hc; cbn [snd] in Hc; subst t'.
      - exact Hnd.
      - apply keys_ensured, Hnd.
      - rewrite keys_sql_update by apply key_set_points.
        apply keys_ensured, Hnd. }
    rewrite (stats_points_found w1 g (member_id user) t Hp1 Hf1 Hnd).
    rewrite (stats_points_found w3 g (member_id user) t' Hp3 Hf3 Hnd').
    rewrite Hnew. cbn [fst snd]. split; [reflexivity | exact Hnew].
  - intros Hgt.
    rewrite (update_points_rejected w2 g (member_id user) pts
               (Some (display_name user)) t previous Hp2 Hf2 He Hgt).
    reflexivity.
Qed.

Lemma add_points_reply_witness :
  fst (add_points w_ok w_ok w_ok 1 core_member (-10) [alice; bob])
  = PointsUpdated 0 (-10) 0.
Proof.
  assert (Hnd : NoDup (map key_of [alice; bob])).
  { repeat constructor; simpl; intuition discriminate. }
  destruct (add_points_reply w_ok w_ok w_ok 1 core_member (-10)
              [alice; bob] eq_refl eq_refl ltac:(lia) eq_refl
              w_ok_no_fault eq_refl w_ok_no_fault eq_refl w_ok_no_fault
              Hnd) as [Hfits _].
  destruct Hfits as [H _]; [cbn; unfold int4_max; lia | exact H].
Defined.

(** ** The guild configuration *)

Lemma pystr_eqb_refl s : pystr_eqb s s = true.
Proof.
  induction s as [|c s IH]; [reflexivity|].
  cbn [pystr_eqb]. rewrite N.eqb_refl. exact IH.
Qed.

Lemma cfg_match_new g key value : cfg_match g key (mkConfig g key value) = true.
Proof.
  unfold cfg_match. cbn. rewrite Z.eqb_refl, pystr_eqb_refl. reflexivity.
Qed.

(** Writing a key and looking it up gives the text written. *)
Lemma cfg_find_upsert g key value c :
  option_map cfg_value (find (cfg_match g key) (cfg_upsert g key value c))
  = Some value.
Proof.
  unfold cfg_upsert. destruct (existsb (cfg_match g key) c) eqn:Hex.
  - induction c as [|r c IH]; [discriminate|].
    cbn [map find]. destruct (cfg_match g key r) eqn:Hr.
    + rewrite cfg_match_new. reflexivity.
    + rewrite Hr. apply IH. cbn [existsb] in Hex. rewrite Hr in Hex.
      exact Hex.
  - induction c as [|r c IH]; cbn [app find].
    + rewrite cfg_match_new. reflexivity.
    + cbn [existsb] in Hex. apply orb_false_iff in Hex as [Hr Hex].
      rewrite Hr. apply IH, Hex.
Qed.

Lemma digits_of_ascii fuel : forall n acc,
  Forall (fun c => (48 <= c <= 57)%N) acc ->
  Forall (fun c => (48 <= c <= 57)%N) (digits_of fuel n acc).
Proof.
  induction fuel as [|f IH]; intros n acc Hacc; cbn [digits_of]; [exact Hacc|].
  cbv zeta.
  pose proof (Z.mod_pos_bound n 10 ltac:(lia)) as Hm.
  assert (Hd : Forall (fun c => (48 <= c <= 57)%N)
                      ((48 + Z.to_N (n mod 10))%N :: acc))
    by (constructor; [lia | exact Hacc]).
  destruct (n <? 10); [exact Hd | apply IH, Hd].
Qed.

Lemma str_of_nonneg_nonempty n : str_of_nonneg n <> [].
Proof.
  unfold str_of_nonneg. cbn [digits_of]. cbv zeta.
  destruct (n <? 10); [discriminate|].
  rewrite digits_of_app. intros H. apply app_eq_nil in H.
  destruct H as [_ H]. discriminate.
Qed.

Section ConfigFacts.
Variable is_digit_char : N -> bool.
Variable py_int : pystr -> option Z.
Hypothesis ascii_digits : forall c, (48 <= c <= 57)%N -> is_digit_char c = true.
Hypothesis minus_no_digit : is_digit_char minus_sign = false.
Hypothesis int_of_str : forall z, py_int (py_str z) = Some z.

Lemma isdigit_nonneg z : 0 <= z -> py_isdigit is_digit_char (py_str z) = true.
Proof.
  intros Hz. unfold py_str. destruct (Z.ltb_spec z 0); [lia|].
  unfold py_isdigit.
  destruct (str_of_nonneg z) as [|c s] eqn:Hs;
    [exfalso; exact (str_of_nonneg_nonempty z Hs)|].
  rewrite <- Hs. apply forallb_forall. intros x Hx.
  apply ascii_digits.
  pose proof (digits_of_ascii (S (Z.to_nat (Z.log2 z))) z [] (Forall_nil _))
    as Hall.
  rewrite Forall_forall in Hall. apply Hall. exact Hx.
Qed.

Lemma isdigit_negative z : z < 0 -> py_isdigit is_digit_char (py_str z) = false.
Proof.
  intros Hz. unfold py_str. destruct (Z.ltb_spec z 0); [|lia].
  cbn [py_isdigit forallb]. rewrite minus_no_digit. reflexivity.
Qed.

(** X11.  What comes back from the configuration.  After a successful
    [set_guild_config], [get_guild_config] on the same key (no fault)
    gives back a non-negative integer as that integer and a text that is
    not made of digits as that text; but a negative integer comes back as
    its text, and a text made of digits comes back as the integer it
    reads as. *)
Theorem guild_config_round_trip w1 w2 g key v default_value c :
  pool w1 = true -> no_fault w1 -> pool w2 = true -> no_fault w2 ->
  fst (set_guild_config w1 g key v c) = true /\
  get_guild_config is_digit_char py_int w2 g key default_value
                   (snd (set_guild_config w1 g key v c))
  = match v with
    | CfgInt z => if 0 <=? z then CfgInt z else CfgStr (py_str z)
    | CfgStr s =>
        if py_isdigit is_digit_char s
        then match py_int s with
             | Some n => CfgInt n
             | None => default_value
             end
        else CfgStr s
    | CfgNone =>
        if py_isdigit is_digit_char (lit "None")
        then match py_int (lit "None") with
             | Some n => CfgInt n
             | None => default_value
             end
        else CfgStr (lit "None")
    end.
Proof.
  intros Hp1 Hf1 Hp2 Hf2. unfold set_guild_config, get_guild_config.
  rewrite Hp1, Hp2, !Hf1, !Hf2. cbn [negb orb fst snd].
  split; [reflexivity|].
  pose proof (cfg_find_upsert g key (cfg_str v) c) as Hfind.
  destruct (find (cfg_match g key) (cfg_upsert g key (cfg_str v) c))
    as [row|]; [|discriminate].
  cbn [option_map] in Hfind. injection Hfind as ->.
  destruct v as [|z|s]; cbn [cfg_str]; try reflexivity.
  destruct (Z.leb_spec 0 z).
  - rewrite (isdigit_nonneg z) by assumption. rewrite int_of_str.
    reflexivity.
  - rewrite (isdigit_negative z) by assumption. reflexivity.
Qed.

End ConfigFacts.

(** [str.isdigit] restricted to the ASCII digits. *)
Lemma guild_config_round_trip_witness :
  get_guild_config (fun c => (48 <=? c) && (c <=? 57))%N decimal_int w_ok 1
                   (lit "notification_channel") CfgNone
                   (snd (set_guild_config w_ok 1 (lit "notification_channel")
                                          (CfgInt 1234567890) []))
  = CfgInt 1234567890.
Proof.
  refine (proj2 (guild_config_round_trip
                   (fun c => (48 <=? c) && (c <=? 57))%N decimal_int
                   _ _ decimal_int_py_str w_ok w_ok 1
                   (lit "notification_channel") (CfgInt 1234567890) CfgNone []
                   eq_refl w_ok_no_fault eq_refl w_ok_no_fault)).
  - intros c Hc. apply andb_true_iff. split; apply N.leb_le; lia.
  - reflexivity.
Defined.

(** * Further properties of the helpers *)

(** ** Ranks, colours and the next rank *)

(** The titles the resolver can return. *)
Lemma rank_title_range points m :
  In (get_rank_title_by_points points m)
     [ "Demon God"; "Heavenly Demon"; "Guardian"; "Supreme Demon";
       "Demon Council"; "Young Master"; "Core Disciple"; "Inner Disciple";
       "Outer Disciple"; "Servant" ]%string.
Proof.
  assert (Hp : In (points_only points)
                 [ "Demon God"; "Heavenly Demon"; "Guardian"; "Supreme Demon";
                   "Demon Council"; "Young Master"; "Core Disciple";
                   "Inner Disciple"; "Outer Disciple"; "Servant" ]%string).
  { unfold points_only.
    destruct (750 <=? points); [simpl; tauto|].
    destruct (350 <=? points); [simpl; tauto|].
    destruct (10 <=? points); simpl; tauto. }
  unfold get_rank_title_by_points. destruct m as [m|]; [|exact Hp].
  destruct (first_special (roles m)) as [title|] eqn:Hfs.
  - destruct (first_special_some _ _ Hfs) as [r [_ Hd]].
    apply dict_get_in in Hd. simpl in Hd. simpl. tauto.
  - destruct ((750 <=? points) && user_has_role "Core Disciple" m);
      [simpl; tauto|].
    destruct ((350 <=? points) && user_has_role "Inner Disciple" m);
      [simpl; tauto|].
    destruct ((10 <=? points) && user_has_role "Outer Disciple" m);
      [simpl; tauto|].
    destruct (points <? 10); [simpl; tauto | exact Hp].
Qed.

(** X12.  Every rank has its colour.  Whatever the points and the member,
    the title the resolver returns is a key of [RANK_COLORS], so
    [get_rank_color] of a resolved rank is the colour of the table and
    never the default. *)
Theorem resolved_rank_has_colour points m :
  str_dict_get (get_rank_title_by_points points m) RANK_COLORS
  = Some (get_rank_color (get_rank_title_by_points points m)).
Proof.
  pose proof (rank_title_range points m) as Hin.
  unfold get_rank_color.
  repeat (destruct Hin as [<- | Hin]; [reflexivity|]). destruct Hin.
Qed.

(** X13.  The next rank.  A member who holds a special role has no next
    rank, whatever the points; a Core Disciple has none either; and when
    no member is given the next rank follows the points alone, so that
    from 750 points on the function still names Core Disciple at 750 as
    the next rank, a threshold that is not above the points. *)
Theorem next_rank_info points m :
  (forall mb, m = Some mb -> first_special (roles mb) <> None ->
     snd (get_next_rank_info points m) = None) /\
  (get_rank_title_by_points points m = "Core Disciple"%string ->
   snd (get_next_rank_info points m) = None) /\
  get_next_rank_info points None =
    (if points <? 10
     then ("Servant"%string, Some (10, "Outer Disciple"%string))
     else if points <? 350
     then ("Outer Disciple"%string, Some (350, "Inner Disciple"%string))
     else ("Inner Disciple"%string, Some (750, "Core Disciple"%string))).
Proof.
  split; [|split].
  - intros mb -> Hsp. unfold get_next_rank_info.
    destruct (first_special (roles mb)) as [title|] eqn:Hfs; [|congruence].
    assert (Hr : get_rank_title_by_points points (Some mb) = title)
      by (unfold get_rank_title_by_points; rewrite Hfs; reflexivity).
    rewrite Hr. destruct (first_special_some _ _ Hfs) as [r [_ Hd]].
    apply dict_get_in in Hd. simpl in Hd.
    repeat (destruct Hd as [<- | Hd]; [reflexivity|]). destruct Hd.
  - intros Hr. unfold get_next_rank_info. rewrite Hr. reflexivity.
  - unfold get_next_rank_info. rewrite rank_without_member.
    destruct (Z.ltb_spec points 10); destruct (Z.leb_spec 350 points);
      destruct (Z.leb_spec 10 points); destruct (Z.ltb_spec points 350);
      try lia; reflexivity.
Qed.

Lemma next_rank_info_witness :
  snd (get_next_rank_info 5 (Some demon_god)) = None.
Proof.
  apply (proj1 (next_rank_info 5 (Some demon_god)) demon_god eq_refl).
  discriminate.
Defined.

(** ** [get_user_rank_position] *)

Lemma rank_position_shift data : forall i user_points,
  rank_position_from i user_points data
  = i + rank_position_from 0 user_points data.
Proof.
  induction data as [|row rest IH]; intros i p; cbn [rank_position_from].
  - lia.
  - destruct (lb_points row <=? p); [lia|].
    rewrite (IH (i + 1)), (IH (0 + 1)). lia.
Qed.

Lemma filter_none_above user_points c rest :
  Forall (fun b => lb_points b <= c) rest -> c <= user_points ->
  filter (fun r => user_points <? lb_points r) rest = [].
Proof.
  intros Hall Hc. induction Hall as [|x rest Hx Hall IH]; [reflexivity|].
  cbn [filter]. destruct (Z.ltb_spec user_points (lb_points x)); [lia|].
  exact IH.
Qed.

(** X14.  The position of a score.  [get_user_rank_position] is always
    between 1 and the number of rows plus 1; on rows in descending order
    of points it is one more than the number of rows with strictly more
    points than the user. *)
Theorem rank_position_counts user_points data :
  1 <= get_user_rank_position user_points data
    <= Z.of_nat (length data) + 1 /\
  (StronglySorted (fun a b => lb_points b <= lb_points a) data ->
   get_user_rank_position user_points data
   = 1 + Z.of_nat (length (filter (fun r => user_points <? lb_points r)
                                  data))).
Proof.
  unfold get_user_rank_position. split.
  - induction data as [|row rest IH]; cbn [rank_position_from length].
    + lia.
    + destruct (lb_points row <=? user_points); [lia|].
      rewrite rank_position_shift. lia.
  - induction 1 as [|row rest Hs IH Hall];
      cbn [rank_position_from filter]; [reflexivity|].
    destruct (Z.leb_spec (lb_points row) user_points) as [Hle|Hgt].
    + destruct (Z.ltb_spec user_points (lb_points row)); [lia|].
      assert (Hnone : filter (fun r => user_points <? lb_points r) rest = []).
      { apply filter_none_above with (c := lb_points row); assumption. }
      rewrite Hnone. reflexivity.
    + destruct (Z.ltb_spec user_points (lb_points row)); [|lia].
      rewrite rank_position_shift, IH. cbn [length]. lia.
Qed.

Lemma rank_position_counts_witness :
  get_user_rank_position 60
    [mkRow 1 (py_str 7) (lit "alice") 100 10;
     mkRow 2 (py_str 8) (lit "bob") 50 20] = 2.
Proof.
  apply (proj2 (rank_position_counts 60
                  [mkRow 1 (py_str 7) (lit "alice") 100 10;
                   mkRow 2 (py_str 8) (lit "bob") 50 20])).
  repeat constructor; simpl; lia.
Defined.

(** ** [truncate_text] *)

(** X15.  The bound of a truncation.  With a limit of at least 3,
    [truncate_text] returns a text no longer than the limit: the text
    itself when it fits, and otherwise its first [max_length - 3]
    characters followed by three dots. *)
Theorem truncate_text_bound text max_length :
  3 <= max_length ->
  py_len (truncate_text text max_length) <= max_length /\
  (py_len text <= max_length -> truncate_text text max_length = text) /\
  (max_length < py_len text ->
   truncate_text text max_length
   = firstn (Z.to_nat (max_length - 3)) text ++ lit "...").
Proof.
  intros Hm. unfold truncate_text, py_slice_to.
  destruct (Z.leb_spec (py_len text) max_length) as [Hfit|Hlong].
  - split; [exact Hfit|]. split; [reflexivity | lia].
  - destruct (Z.ltb_spec (max_length - 3) 0); [lia|].
    split; [|split; [lia | reflexivity]].
    unfold py_len in *. rewrite length_app, length_firstn.
    change (length (lit "...")) with 3%nat. lia.
Qed.

Lemma truncate_text_bound_witness :
  truncate_text (lit "Heavenly Demon Sect") 10 = lit "Heavenl...".
Proof.
  apply (proj2 (proj2 (truncate_text_bound (lit "Heavenly Demon Sect") 10
                         ltac:(lia)))).
  vm_compute. reflexivity.
Defined.

(** Below 3 the slice counts from the end and the result grows. *)
Example truncate_text_small_limit :
  truncate_text (lit "abcdef") 2 = lit "abcde...".
Proof. reflexivity. Qed.

(** ** The renderer drops no row of a page *)

Lemma set_nth_last {A} (init : list A) last v :
  set_nth (length init) v (init ++ [last]) = init ++ [v].
Proof.
  induction init as [|x init IH]; [reflexivity|].
  cbn [length app set_nth]. rewrite IH. reflexivity.
Qed.

Lemma py_len_app a b : py_len (a ++ b) = py_len a + py_len b.
Proof. unfold py_len. rewrite length_app. lia. Qed.

Lemma concat_snoc (init : list pystr) (last : pystr) :
  concat (init ++ [last]) = concat init ++ last.
Proof. rewrite concat_app. cbn [concat]. rewrite app_nil_r. reflexivity. Qed.

Lemma strip_nonempty_app a b :
  strip_nonempty (a ++ b) = strip_nonempty a || strip_nonempty b.
Proof. apply existsb_app. Qed.

(** A block with no text, or one that [strip] does not empty. *)
Lemma concat_filter_nonblank texts :
  Forall (fun text => text = [] \/ strip_nonempty text = true) texts ->
  concat (filter strip_nonempty texts) = concat texts.
Proof.
  induction 1 as [|text texts [-> | Ht] Hall IH]; cbn [filter concat].
  - reflexivity.
  - cbn [strip_nonempty existsb app]. exact IH.
  - rewrite Ht. cbn [concat]. rewrite IH. reflexivity.
Qed.

Section RendererKeepsRows.
Variable py_int : pystr -> option Z.
Variable g : option guild.

Lemma entry_text_nonblank row :
  strip_nonempty (entry_text py_int g row) = true.
Proof.
  unfold strip_nonempty. apply existsb_exists. exists 45%N.
  split; [|reflexivity].
  unfold entry_text. apply in_or_app. right. apply in_or_app. right.
  apply in_or_app. right. apply in_or_app. left. simpl. tauto.
Qed.

Lemma add_entry_last (init : list pystr) (last entry : pystr) :
  add_entry (init ++ [last], length init) entry
  = if 950 <? py_len (last ++ entry)
    then ((init ++ [last]) ++ [entry], S (length init))
    else (init ++ [last ++ entry], length init).
Proof.
  unfold add_entry. rewrite nth_middle, set_nth_last. reflexivity.
Qed.

Lemma fill_fields_all rows : forall (init : list pystr) (last : pystr),
  849 * Z.of_nat (length init) <= py_len (concat init) ->
  py_len (concat init) + py_len last + 102 * Z.of_nat (length rows)
    < 849 * 20 ->
  Forall (fun row => py_len (entry_text py_int g row) <= 102) rows ->
  Forall (fun text => text = [] \/ strip_nonempty text = true)
         (init ++ [last]) ->
  concat (fst (fill_fields py_int g rows (init ++ [last], length init)))
    = concat init ++ last ++ concat (map (entry_text py_int g) rows) /\
  Forall (fun text => text = [] \/ strip_nonempty text = true)
         (fst (fill_fields py_int g rows (init ++ [last], length init))).
Proof.
  induction rows as [|row rest IH]; intros init last Hfull Hroom Hrows Hblank.
  - cbn [fill_fields fst]. rewrite concat_snoc. cbn [map concat].
    rewrite app_nil_r. split; [reflexivity | exact Hblank].
  - inversion Hrows as [|r l Hrow Hrest]; subst.
    cbn [fill_fields]. rewrite add_entry_last.
    cbn [length map] in *. rewrite concat_cons.
    pose proof (py_len_app last (entry_text py_int g row)) as Hlen.
    assert (Hpos : 0 <= py_len last) by (unfold py_len; lia).
    destruct (Z.ltb_spec 950 (py_len (last ++ entry_text py_int g row)))
      as [Hover|Hfit]; cbn [snd].
    + destruct (Nat.leb_spec 20 (S (length init))) as [Hbreak|Hgo]; [lia|].
      replace (S (length init)) with (length (init ++ [last]))
        by (rewrite length_app; cbn [length]; lia).
      assert (Hc : py_len (concat (init ++ [last]))
                   = py_len (concat init) + py_len last)
        by (rewrite concat_snoc; apply py_len_app).
      destruct (IH (init ++ [last]) (entry_text py_int g row)) as [H1 H2].
      * rewrite Hc, length_app. cbn [length]. lia.
      * rewrite Hc. lia.
      * exact Hrest.
      * apply Forall_app. split; [exact Hblank|].
        constructor; [right; apply entry_text_nonblank | constructor].
      * split; [|exact H2].
        rewrite H1, concat_snoc, <- !app_assoc. reflexivity.
    + destruct (Nat.leb_spec 20 (length init)) as [Hbreak|Hgo]; [lia|].
      destruct (IH init (last ++ entry_text py_int g row)) as [H1 H2].
      * exact Hfull.
      * lia.
      * exact Hrest.
      * apply Forall_app in Hblank. destruct Hblank as [Hinit _].
        apply Forall_app. split; [exact Hinit|].
        constructor; [|constructor]. right.
        rewrite strip_nonempty_app, entry_text_nonblank. apply orb_true_r.
      * split; [|exact H2]. refine (eq_trans H1 _).
        rewrite <- !app_assoc. reflexivity.
Qed.

End RendererKeepsRows.

(** X16.  No row of a page is lost.  For a page of at most 166 rows whose
    ranks and points are integers of the store (the command shows 50 rows
    a page), the loop never reaches its [break]: the ranking blocks, read
    one after the other, are exactly the lines of all the rows, in
    order. *)
Theorem ranking_fields_keep_rows py_int g rows :
  Forall row_in_range rows -> (length rows <= 166)%nat ->
  concat (map field_value (ranking_fields py_int g rows))
  = concat (map (entry_text py_int g) rows).
Proof.
  intros Hrange Hlen. unfold ranking_fields, rankings_texts.
  rewrite map_map. cbn [field_value]. rewrite map_id.
  assert (Hrows : Forall (fun row => py_len (entry_text py_int g row) <= 102)
                         rows).
  { eapply Forall_impl; [|exact Hrange]. intros row.
    apply entry_text_length. }
  destruct (fill_fields_all py_int g rows [] []) as [H1 H2].
  - change (849 * 0 <= 0). lia.
  - change (0 + 0 + 102 * Z.of_nat (length rows) < 849 * 20). lia.
  - exact Hrows.
  - repeat constructor.
  - cbn [app length] in H1, H2.
    rewrite concat_filter_nonblank by exact H2. exact H1.
Qed.

Lemma ranking_fields_keep_rows_witness :
  concat (map field_value
            (ranking_fields decimal_int None
               [mkRow 1 (py_str 7) (lit "alice") 100 10;
                mkRow 2 (py_str 8) (lit "bob") 50 20]))
  = concat (map (entry_text decimal_int None)
              [mkRow 1 (py_str 7) (lit "alice") 100 10;
               mkRow 2 (py_str 8) (lit "bob") 50 20]).
Proof.
  apply ranking_fields_keep_rows.
  - repeat constructor; simpl; lia.
  - simpl. lia.
Defined.

(** * Properties of the leaderboard views *)

(** ** A read that fails *)

Lemma get_leaderboard_fault w g page per_page t :
  pool w = false \/ faulted w 3 ->
  _get_leaderboard_async w g page per_page t = ([], 0, 0).
Proof.
  intros H. unfold _get_leaderboard_async.
  destruct (pool w) eqn:Hp; simpl negb; cbv iota; [|reflexivity].
  destruct H as [H | [n [Hn Hfn]]]; [discriminate|].
  run_calls.
  destruct (fault w 0) eqn:F0; [reflexivity|].
  destruct (fault w 1) eqn:F1; [reflexivity|].
  destruct (_ =? 0); [destruct (fault w 2); reflexivity|].
  destruct (per_page =? 0); [reflexivity|].
  destruct (fault w 2) eqn:F2; [reflexivity|].
  exfalso. do 3 (destruct n as [|n]; [congruence|]). lia.
Qed.

Lemma total_pages_of_guild w g per_page t :
  pool w = true -> no_fault w ->
  Forall (fun e => 0 <= points e) t ->
  0 < per_page -> filter (in_guild g) t <> [] ->
  exists total,
    1 <= total /\
    forall p,
      _get_leaderboard_async w g p per_page t
      = (page_rows g (Z.max 1 (Z.min p total)) per_page t,
         Z.max 1 (Z.min p total), total).
Proof.
  intros Hp Hf Hinv Hpp Hne.
  exists (Z.max 1 ((Z.of_nat (length (full_ordering g t)) + per_page - 1)
                   / per_page)).
  split; [lia|]. intros p.
  apply (get_leaderboard_run w g p per_page t); assumption.
Qed.

(** X17.  A failed read sends a view back to page 1.  When the read of the
    page fails (pool not set, or a storage call raises),
    [fetch_leaderboard_data] leaves the view with no rows on page 0 of 0,
    whatever page it showed; the next successful fetch on a guild with
    entries shows page 1. *)
Theorem failed_fetch_resets_page e1 e2 t t' v :
  pool (lb_world e1) = false \/ faulted (lb_world e1) 3 ->
  pool (lb_world e2) = true -> no_fault (lb_world e2) ->
  Forall (fun e => 0 <= points e) t' ->
  0 < v_per_page v -> filter (in_guild (v_guild_id v)) t' <> [] ->
  leaderboard_data (fetch_leaderboard_data e1 t v) = [] /\
  current_page (fetch_leaderboard_data e1 t v) = 0 /\
  v_total_pages (fetch_leaderboard_data e1 t v) = 0 /\
  current_page
    (fetch_leaderboard_data e2 t' (fetch_leaderboard_data e1 t v)) = 1.
Proof.
  intros Hbad Hp Hf Hinv Hpp Hne.
  assert (H1 : fetch_leaderboard_data e1 t v
               = mkView (view_id v) (v_guild_id v) (v_per_page v) 0 0 []
                   (get_total_guild_points (total_world e1) (v_guild_id v) t)
                   (is_active v) (has_message v) (previous_disabled v)
                   (stats_disabled v) (next_disabled v) (stopped v)).
  { unfold fetch_leaderboard_data.
    rewrite (get_leaderboard_fault _ _ _ _ _ Hbad). reflexivity. }
  rewrite H1. cbn [leaderboard_data current_page v_total_pages].
  repeat split.
  unfold fetch_leaderboard_data.
  cbn [view_id v_guild_id v_per_page current_page].
  destruct (total_pages_of_guild (lb_world e2) (v_guild_id v)
              (v_per_page v) t' Hp Hf Hinv Hpp Hne) as [total [Ht Hrun]].
  rewrite (Hrun 0). cbn [current_page]. lia.
Qed.

Lemma failed_fetch_resets_page_witness :
  current_page
    (fetch_leaderboard_data e_ok [alice; bob]
       (fetch_leaderboard_data
          (mkViewEnv (mkWorld false 0 0 (fun _ => false)) w_ok EditOk)
          [alice; bob] view_b)) = 1.
Proof.
  assert (Hne : filter (in_guild (v_guild_id view_b)) [alice; bob] <> [])
    by discriminate.
  assert (Hinv : Forall (fun e => 0 <= points e) [alice; bob])
    by (repeat constructor; discriminate).
  exact (proj2 (proj2 (proj2
           (failed_fetch_resets_page
              (mkViewEnv (mkWorld false 0 0 (fun _ => false)) w_ok EditOk)
              e_ok [alice; bob] [alice; bob] view_b
              (or_introl eq_refl) eq_refl w_ok_no_fault Hinv eq_refl Hne)))).
Defined.

(** ** Page navigation *)

(** X18.  Navigation stays within the pages.  On a guild with entries (pool
    set, no fault, positive page size), a [next_page] or a
    [previous_page] whose guard allows the move leaves the view on a page
    between 1 and the number of pages the ledger now has, holding the
    rows of that page, with Previous disabled exactly on page 1 and Next
    disabled exactly on the last page; when the guard does not allow the
    move the view is unchanged. *)
Theorem navigation_in_bounds e t v :
  pool (lb_world e) = true -> no_fault (lb_world e) ->
  Forall (fun x => 0 <= points x) t ->
  0 < v_per_page v -> filter (in_guild (v_guild_id v)) t <> [] ->
  exists total,
    1 <= total /\
    (forall v',
       (current_page v < v_total_pages v /\ v' = next_page e t v) \/
       (1 < current_page v /\ v' = previous_page e t v) ->
       1 <= current_page v' <= total /\
       v_total_pages v' = total /\
       leaderboard_data v'
         = page_rows (v_guild_id v) (current_page v') (v_per_page v) t /\
       previous_disabled v' = (current_page v' =? 1) /\
       next_disabled v' = (current_page v' =? total)) /\
    (v_total_pages v <= current_page v -> next_page e t v = v) /\
    (current_page v <= 1 -> previous_page e t v = v).
Proof.
  intros Hp Hf Hinv Hpp Hne.
  destruct (total_pages_of_guild (lb_world e) (v_guild_id v)
              (v_per_page v) t Hp Hf Hinv Hpp Hne) as [total [Ht Hrun]].
  exists total. split; [exact Ht|].
  assert (Hmove : forall q,
    let v' := update_button_states
                (fetch_leaderboard_data e t (with_page q v)) in
    1 <= current_page v' <= total /\
    v_total_pages v' = total /\
    leaderboard_data v'
      = page_rows (v_guild_id v) (current_page v') (v_per_page v) t /\
    previous_disabled v' = (current_page v' =? 1) /\
    next_disabled v' = (current_page v' =? total)).
  { intros q. unfold fetch_leaderboard_data, with_page.
    cbn [view_id v_guild_id v_per_page current_page].
    rewrite (Hrun q). cbv zeta. unfold update_button_states.
    cbn [current_page v_total_pages leaderboard_data previous_disabled
         next_disabled].
    split; [lia|]. split; [reflexivity|]. split; [reflexivity|]. split.
    - destruct (Z.leb_spec (Z.max 1 (Z.min q total)) 1);
        destruct (Z.eqb_spec (Z.max 1 (Z.min q total)) 1); try reflexivity;
        lia.
    - unfold Z.geb.
      destruct (Z.compare_spec (Z.max 1 (Z.min q total)) total);
        destruct (Z.eqb_spec (Z.max 1 (Z.min q total)) total);
        try reflexivity; lia. }
  split; [|split].
  - intros v' [[Hg ->] | [Hg ->]].
    + unfold next_page. destruct (Z.ltb_spec (current_page v)
                                              (v_total_pages v)); [|lia].
      apply Hmove.
    + unfold previous_page. destruct (Z.gtb_spec (current_page v) 1); [|lia].
      apply Hmove.
  - intros Hg. unfold next_page.
    destruct (Z.ltb_spec (current_page v) (v_total_pages v));
      [lia | reflexivity].
  - intros Hg. unfold previous_page.
    destruct (Z.gtb_spec (current_page v) 1); [lia | reflexivity].
Qed.

Lemma navigation_in_bounds_witness :
  exists total,
    1 <= current_page (previous_page e_ok [alice; bob] view_b) <= total.
Proof.
  assert (Hne : filter (in_guild (v_guild_id view_b)) [alice; bob] <> [])
    by discriminate.
  assert (Hinv : Forall (fun e => 0 <= points e) [alice; bob])
    by (repeat constructor; discriminate).
  destruct (navigation_in_bounds e_ok [alice; bob] view_b eq_refl
              w_ok_no_fault Hinv eq_refl Hne) as [total [_ [Hmove _]]].
  exists total.
  apply (Hmove (previous_page e_ok [alice; bob] view_b)).
  right. split; [reflexivity | reflexivity].
Defined.

(** ** The broadcast to the views of a guild *)

Lemma auto_update_keeps_id e t v :
  view_id (fst (auto_update_leaderboard e t v)) = view_id v.
Proof.
  unfold auto_update_leaderboard, fetch_leaderboard_data.
  destruct (_get_leaderboard_async _ _ _ _ _) as [[data page] total].
  cbn [has_message]. destruct (has_message v); [|reflexivity].
  destruct (message_gone (edit_outcome e)); reflexivity.
Qed.

Lemma store_view_fresh v views :
  ~ In (view_id v) (map view_id views) -> store_view v views = views.
Proof.
  intros Hfresh. unfold store_view. rewrite <- (map_id views) at 2.
  apply map_ext_in. intros x Hx.
  destruct (Nat.eqb_spec (view_id x) (view_id v)) as [Heq|]; [|reflexivity].
  exfalso. apply Hfresh. rewrite <- Heq. apply in_map. exact Hx.
Qed.

Lemma remove_view_fresh id views :
  ~ In id (map view_id views) -> remove_view id views = views.
Proof.
  induction views as [|x views IH]; intros Hfresh; [reflexivity|].
  cbn [remove_view].
  destruct (Nat.eqb_spec (view_id x) id) as [Heq|].
  - exfalso. apply Hfresh. left. exact Heq.
  - rewrite IH; [reflexivity|]. intros Hin. apply Hfresh. right. exact Hin.
Qed.

Lemma store_view_middle before_ v v' rest :
  view_id v' = view_id v ->
  ~ In (view_id v) (map view_id before_) ->
  ~ In (view_id v) (map view_id rest) ->
  store_view v' (before_ ++ v :: rest) = before_ ++ v' :: rest.
Proof.
  intros Hid Hb Hr. unfold store_view at 1. rewrite map_app. cbn [map].
  fold (store_view v' before_). fold (store_view v' rest).
  rewrite !store_view_fresh by (rewrite Hid; assumption).
  rewrite Hid, Nat.eqb_refl. reflexivity.
Qed.

Lemma remove_view_middle before_ v rest :
  ~ In (view_id v) (map view_id before_) ->
  remove_view (view_id v) (before_ ++ v :: rest) = before_ ++ rest.
Proof.
  induction before_ as [|x before_ IH]; intros Hb; cbn [app remove_view].
  - rewrite Nat.eqb_refl. reflexivity.
  - destruct (Nat.eqb_spec (view_id x) (view_id v)) as [Heq|].
    + exfalso. apply Hb. left. exact Heq.
    + rewrite IH; [reflexivity|]. intros Hin. apply Hb. right. exact Hin.
Qed.

(** With distinct views in the list, the loop treats each view on its
    own. *)
Lemma update_views_each env t g todo : forall done_,
  NoDup (map view_id (done_ ++ todo)) ->
  update_views env t g todo (done_ ++ todo)
  = done_ ++ flat_map (refresh_step env t g) todo.
Proof.
  induction todo as [|v rest IH]; intros done_ Hnd.
  - cbn [update_views flat_map]. reflexivity.
  - assert (Hsplit := Hnd). rewrite map_app in Hsplit. cbn [map] in Hsplit.
    pose proof (NoDup_remove_2 _ _ _ Hsplit) as Hfresh.
    assert (Hb : ~ In (view_id v) (map view_id done_))
      by (intros H; apply Hfresh, in_or_app; left; exact H).
    assert (Hr : ~ In (view_id v) (map view_id rest))
      by (intros H; apply Hfresh, in_or_app; right; exact H).
    cbn [update_views flat_map]. unfold refresh_step at 1.
    destruct ((v_guild_id v =? g) && is_active v).
    + pose proof (auto_update_keeps_id (env (view_id v)) t v) as Hid.
      destruct (auto_update_leaderboard (env (view_id v)) t v)
        as [v' removed]. cbn [fst snd] in *.
      destruct removed.
      * rewrite remove_view_middle by exact Hb. cbn [app].
        apply IH. rewrite map_app.
        apply (NoDup_remove_1 _ _ _ Hsplit).
      * rewrite (store_view_middle done_ v v' rest Hid Hb Hr).
        replace (done_ ++ v' :: rest) with ((done_ ++ [v']) ++ rest)
          by (rewrite <- app_assoc; reflexivity).
        rewrite IH; [rewrite <- app_assoc; reflexivity|].
        rewrite <- app_assoc. cbn [app]. rewrite map_app. cbn [map].
        rewrite Hid. exact Hsplit.
    + replace (done_ ++ v :: rest) with ((done_ ++ [v]) ++ rest)
        by (rewrite <- app_assoc; reflexivity).
      rewrite IH; [rewrite <- app_assoc; reflexivity|].
      rewrite <- app_assoc. exact Hnd.
Qed.

(** X19.  A broadcast reaches every view on its own.  For a list of distinct
    views, [update_active_leaderboards] for guild [g] leaves the views of
    other guilds and the inactive ones as they are; it takes out of the
    list exactly the active views of [g] whose message is gone (edit
    raising [NotFound] or a 404); and every other active view of [g]
    stays, holding the page, page number and number of pages that
    [_get_leaderboard_async] gives on the current ledger and the current
    guild total, whatever happened to the views before it in the list. *)
Theorem broadcast_reaches_each_view env t g views :
  NoDup (map view_id views) ->
  update_active_leaderboards env t g views
    = flat_map (refresh_step env t g) views /\
  (forall v, In v views -> v_guild_id v <> g \/ is_active v = false ->
     In v (update_active_leaderboards env t g views)) /\
  (forall v, In v views -> v_guild_id v = g -> is_active v = true ->
     if has_message v && message_gone (edit_outcome (env (view_id v)))
     then ~ In (view_id v)
            (map view_id (update_active_leaderboards env t g views))
     else
       exists v',
         In v' (update_active_leaderboards env t g views) /\
         view_id v' = view_id v /\
         (leaderboard_data v', current_page v', v_total_pages v')
           = _get_leaderboard_async (lb_world (env (view_id v))) g
               (current_page v) (v_per_page v) t /\
         v_total_guild_points v'
           = get_total_guild_points (total_world (env (view_id v))) g t).
Proof.
  intros Hnd.
  assert (Heq : update_active_leaderboards env t g views
                = flat_map (refresh_step env t g) views)
    by (apply (update_views_each env t g views []); exact Hnd).
  split; [exact Heq|]. rewrite Heq. split.
  - intros v Hin Hskip. apply in_flat_map. exists v. split; [exact Hin|].
    unfold refresh_step.
    assert (Hc : (v_guild_id v =? g) && is_active v = false).
    { destruct Hskip as [Hg | Ha].
      - apply Z.eqb_neq in Hg. rewrite Hg. reflexivity.
      - rewrite Ha. apply andb_false_r. }
    rewrite Hc. left. reflexivity.
  - intros v Hin Hg Ha.
    assert (Hc : (v_guild_id v =? g) && is_active v = true)
      by (rewrite Ha; subst g; rewrite Z.eqb_refl; reflexivity).
    assert (Hstep : refresh_step env t g v =
      if has_message v && message_gone (edit_outcome (env (view_id v)))
      then []
      else [fst (auto_update_leaderboard (env (view_id v)) t v)]).
    { unfold refresh_step. rewrite Hc.
      unfold auto_update_leaderboard, fetch_leaderboard_data.
      destruct (_get_leaderboard_async _ _ _ _ _) as [[data page] total].
      cbn [has_message]. destruct (has_message v); [|reflexivity].
      destruct (message_gone (edit_outcome (env (view_id v))));
        reflexivity. }
    destruct (has_message v && message_gone (edit_outcome (env (view_id v))))
      eqn:Hgone.
    + intros Hid. apply in_map_iff in Hid. destruct Hid as [x [Hx Hxin]].
      apply in_flat_map in Hxin. destruct Hxin as [y [Hy Hxy]].
      assert (Hyid : view_id y = view_id v).
      { rewrite <- Hx. unfold refresh_step in Hxy.
        destruct ((v_guild_id y =? g) && is_active y).
        - destruct (snd (auto_update_leaderboard (env (view_id y)) t y));
            [destruct Hxy|].
          destruct Hxy as [<- | []]. symmetry. apply auto_update_keeps_id.
        - destruct Hxy as [<- | []]. reflexivity. }
      assert (y = v).
      { clear - Hnd Hy Hin Hyid. induction views as [|z views IH];
          [destruct Hin|].
        cbn [map] in Hnd. inversion Hnd as [|k ks Hnotin Hnd']; subst.
        destruct Hy as [-> | Hy]; destruct Hin as [-> | Hin].
        - reflexivity.
        - exfalso. apply Hnotin. rewrite Hyid. apply in_map. exact Hin.
        - exfalso. apply Hnotin. rewrite <- Hyid. apply in_map. exact Hy.
        - apply IH; assumption. }
      subst y. rewrite Hstep in Hxy. destruct Hxy.
    + exists (fst (auto_update_leaderboard (env (view_id v)) t v)).
      split; [|split; [apply auto_update_keeps_id|]].
      * apply in_flat_map. exists v. split; [exact Hin|].
        rewrite Hstep. left. reflexivity.
      * subst g. unfold auto_update_leaderboard, fetch_leaderboard_data.
        destruct (_get_leaderboard_async _ _ _ _ _) as [[data page] total].
        cbn [has_message]. destruct (has_message v); [|split; reflexivity].
        destruct (message_gone (edit_outcome (env (view_id v))));
          split; reflexivity.
Qed.

(** Two views of guild 1: the message of the first is gone, the second
    is refreshed all the same. *)
Lemma broadcast_reaches_each_view_witness :
  map (fun v => (view_id v, map rank (leaderboard_data v)))
      (update_active_leaderboards
         (fun id => if (id =? 0)%nat then e_gone else e_ok)
         [alice; bob] 1 [view_a; view_b])
  = [(1%nat, [2])].
Proof.
  assert (Hnd : NoDup (map view_id [view_a; view_b])).
  { repeat constructor; simpl; intuition discriminate. }
  rewrite (proj1 (broadcast_reaches_each_view
                    (fun id => if (id =? 0)%nat then e_gone else e_ok)
                    [alice; bob] 1 [view_a; view_b] Hnd)).
  reflexivity.
Defined.

(** * Properties of the role commands and of the role rewards *)

(** ** One update among others *)

Lemma update_points_other w g u d name t g' u' :
  (g', u') <> (g, u) ->
  fetch_points g' u' (snd (update_points w g u d name t))
  = fetch_points g' u' t.
Proof.
  intros Hne.
  assert (Hk : (g =? g') && (u =? u') = false).
  { destruct (Z.eqb_spec g g'); [|reflexivity].
    destruct (Z.eqb_spec u u'); [|reflexivity]. subst. congruence. }
  assert (He : fetch_points g' u' (ensured w g u name t)
               = fetch_points g' u' t).
  { rewrite fetch_points_ensured, Hk, andb_false_r.
    destruct (fetch_points g' u' t); reflexivity. }
  destruct (update_points_cases w g u d name t) as [-> | [-> | [c ->]]];
    [reflexivity | exact He |].
  rewrite <- He. unfold fetch_points.
  rewrite find_sql_update by apply key_set_points.
  destruct (find (same_key g' u') (ensured w g u name t)) as [x|] eqn:Hx;
    [|reflexivity].
  cbn [option_map]. destruct (same_key g u x) eqn:Hgx; [|reflexivity].
  apply find_some in Hx. destruct Hx as [_ Hx].
  destruct (same_key_other _ _ _ _ _ Hgx Hx) as [-> ->]. congruence.
Qed.

(** An update with a username, in terms of the points held before: it
    succeeds exactly when the column can hold the new total, and a
    rejected update leaves the entry, or its absence, as it was. *)
Lemma update_points_grant w g u d nm t :
  pool w = true -> no_fault w -> supplied (Some nm) = true ->
  fst (update_points w g u d (Some nm) t) = fits g u d t /\
  fetch_points g u (snd (update_points w g u d (Some nm) t))
    = (if fits g u d t
       then Some (Z.max 0 (points_or_zero g u t + d))
       else fetch_points g u t) /\
  (fits g u d t = false -> snd (update_points w g u d (Some nm) t) = t).
Proof.
  intros Hp Hf Hs.
  assert (He : fetch_points g u (ensured w g u (Some nm) t)
               = Some (points_or_zero g u t)).
  { rewrite fetch_points_ensured, Hs, !Z.eqb_refl. unfold points_or_zero.
    destruct (fetch_points g u t); reflexivity. }
  unfold fits. destruct (Z.leb_spec (points_or_zero g u t + d) int4_max)
    as [Hle|Hgt].
  - destruct (update_points_stores w g u d (Some nm) t _ Hp Hf He Hle)
      as [H1 H2].
    split; [exact H1|]. split; [exact H2 | discriminate].
  - rewrite (update_points_rejected w g u d (Some nm) t _ Hp Hf He Hgt).
    repeat split.
Qed.

Lemma nodup_ids_filter (f : member -> bool) ms :
  NoDup (map member_id ms) -> NoDup (map member_id (filter f ms)).
Proof.
  induction ms as [|m ms IH]; simpl; intros Hnd; [constructor|].
  inversion Hnd as [|k ks Hnotin Hnd']; subst.
  destruct (f m); simpl; [|apply IH, Hnd'].
  constructor; [|apply IH, Hnd'].
  intros Hin. apply Hnotin. apply in_map_iff in Hin.
  destruct Hin as [x [Hx Hin]]. apply filter_In in Hin.
  apply in_map_iff. exists x. tauto.
Qed.

(** ** [assign_role_points] *)

Lemma assign_loop_each ws g pts ms : forall k t,
  NoDup (map member_id ms) ->
  (forall j, pool (ws j) = true /\ no_fault (ws j)) ->
  (forall m, In m ms -> supplied (Some (display_name m)) = true) ->
  fst (assign_loop ws k g pts ms t)
    = length (filter (fun m => fits g (member_id m) pts t) ms) /\
  (forall m, In m ms ->
     fetch_points g (member_id m) (snd (assign_loop ws k g pts ms t))
     = (if fits g (member_id m) pts t
        then Some (Z.max 0 (points_or_zero g (member_id m) t + pts))
        else fetch_points g (member_id m) t)) /\
  (forall g' u',
     (forall m, In m ms -> (g', u') <> (g, member_id m)) ->
     fetch_points g' u' (snd (assign_loop ws k g pts ms t))
     = fetch_points g' u' t).
Proof.
  induction ms as [|m0 rest IH]; intros k t Hnd Hws Hnames.
  - cbn [assign_loop fst snd length filter]. repeat split.
    intros m [].
  - cbn [assign_loop]. cbn [map] in Hnd.
    inversion Hnd as [|x xs Hnotin Hnd']; subst.
    destruct (update_points_grant (ws k) g (member_id m0) pts
                (display_name m0) t (proj1 (Hws k)) (proj2 (Hws k))
                (Hnames m0 (or_introl eq_refl))) as [Hok [Hnew _]].
    pose proof (fun g' u' =>
                  update_points_other (ws k) g (member_id m0) pts
                    (Some (display_name m0)) t g' u') as Hother.
    destruct (update_points (ws k) g (member_id m0) pts
                (Some (display_name m0)) t) as [success t1].
    cbn [fst snd] in *. subst success.
    assert (Hfresh : forall m, In m rest ->
                       (g, member_id m) <> (g, member_id m0)).
    { intros m Hm Heq. injection Heq as Heq. apply Hnotin.
      rewrite <- Heq. apply in_map. exact Hm. }
    assert (Hpz : forall m, In m rest ->
                    points_or_zero g (member_id m) t1
                    = points_or_zero g (member_id m) t).
    { intros m Hm. unfold points_or_zero.
      rewrite (Hother g (member_id m) (Hfresh m Hm)). reflexivity. }
    assert (Hfits : forall m, In m rest ->
                      fits g (member_id m) pts t1
                      = fits g (member_id m) pts t).
    { intros m Hm. unfold fits. rewrite (Hpz m Hm). reflexivity. }
    destruct (IH (S k) t1 Hnd' Hws
                (fun m Hm => Hnames m (or_intror Hm))) as [Hn [Hin Hout]].
    destruct (assign_loop ws (S k) g pts rest t1) as [n t2].
    cbn [fst snd] in *. rewrite (filter_ext_in _ _ _ Hfits) in Hn.
    split; [|split].
    + cbn [filter]. destruct (fits g (member_id m0) pts t);
        cbn [length]; congruence.
    + intros m [<- | Hm].
      * rewrite Hout; [exact Hnew|].
        intros m Hm Heq. symmetry in Heq. exact (Hfresh m Hm Heq).
      * rewrite (Hin m Hm), (Hfits m Hm), (Hpz m Hm).
        rewrite (Hother g (member_id m) (Hfresh m Hm)). reflexivity.
    + intros g' u' Hnone. rewrite Hout.
      * apply Hother. apply Hnone. left. reflexivity.
      * intros m Hm. apply Hnone. right. exact Hm.
Qed.

(** ** The per-call limit on points *)

(** C10 (as the code has it).  The limit of 10000 is enforced by a part
    of the commands that change points.  [validate_points_input] returns
    the integer [int] reads from the string exactly when that integer
    lies in [-10000, 10000], and [None] otherwise; [add_points] answers
    an amount outside [-10000, 10000] with a rejection, and
    [remove_points], which subtracts its amount, answers an amount
    outside [1, 10000] with a rejection; both leave the ledger as it was,
    without calling [update_points].  [assign_role_points] tests no
    limit: for a role of the guild, every holder that is not a bot
    receives the amount as it is, whatever its size, as long as the
    [INTEGER] column can hold the new total (distinct members, display
    names not empty, pool set, no fault). *)
Theorem points_limit py_int s w1 w2 w3 g user pts t :
  (forall v, validate_points_input py_int s = Some v <->
             py_int s = Some v /\ -10000 <= v <= 10000) /\
  (validate_points_input py_int s = None <->
   py_int s = None \/
   exists v, py_int s = Some v /\ (v < -10000 \/ 10000 < v)) /\
  (pts < -10000 \/ 10000 < pts ->
   add_points w1 w2 w3 g user pts t =
   (if bot user then InvalidTarget else InvalidPoints, t)) /\
  (pts <= 0 \/ 10000 < pts ->
   remove_points w1 w2 w3 g user pts t =
   (if bot user then RemoveInvalidTarget
    else if pts <=? 0 then RemoveNotPositive else RemoveTooMany, t)) /\
  (forall ws guild_roles members role_id role_id_int m,
     py_int role_id = Some role_id_int ->
     is_in role_id_int guild_roles = true ->
     NoDup (map member_id members) ->
     (forall j, pool (ws j) = true /\ no_fault (ws j)) ->
     (forall m', In m' members -> supplied (Some (display_name m')) = true) ->
     In m members -> bot m = false -> is_in role_id_int (roles m) = true ->
     points_or_zero g (member_id m) t + pts <= int4_max ->
     fetch_points g (member_id m)
       (snd (assign_role_points py_int ws g guild_roles members role_id
                                pts t))
     = Some (Z.max 0 (points_or_zero g (member_id m) t + pts))).
Proof.
  unfold validate_points_input. split; [|split; [|split; [|split]]].
  - intros v. destruct (py_int s) as [p|].
    + destruct (Z.ltb_spec p (-10000)) as [Hlo|Hlo];
        destruct (Z.gtb_spec p 10000) as [Hhi|Hhi]; simpl;
        (split; [intros Hv | intros [Hv Hr]]); try discriminate;
        injection Hv as ->; try (split; [reflexivity | lia]);
        try reflexivity; lia.
    + split; [discriminate | intros [Hv _]; discriminate].
  - destruct (py_int s) as [p|].
    + destruct (Z.ltb_spec p (-10000)) as [Hlo|Hlo];
        destruct (Z.gtb_spec p 10000) as [Hhi|Hhi]; simpl;
        (split; [intros Hv | intros [Hv | [v [Hv Hr]]]]); try discriminate;
        try reflexivity; try (right; exists p; split; [reflexivity | lia]).
      injection Hv as ->. lia.
    + split; [auto | reflexivity].
  - intros Hr. unfold add_points. destruct (bot user); [reflexivity|].
    destruct (Z.ltb_spec pts (-10000)); [reflexivity|].
    destruct (Z.gtb_spec pts 10000); [reflexivity | lia].
  - intros Hr. unfold remove_points. destruct (bot user); [reflexivity|].
    destruct (Z.leb_spec pts 0); [reflexivity|].
    destruct (Z.gtb_spec pts 10000); [reflexivity | lia].
  - intros ws guild_roles members role_id role_id_int m Hint Hrole Hnd Hws
           Hnames Hm Hbot Hheld Hle.
    unfold assign_role_points. rewrite Hint, Hrole. cbn [negb].
    set (holders :=
           filter (fun m => negb (bot m) && is_in role_id_int (roles m))
                  members).
    assert (Hin : In m holders).
    { apply filter_In. split; [exact Hm|]. rewrite Hbot, Hheld. reflexivity. }
    destruct (assign_loop_each ws g pts holders 0 t
                (nodup_ids_filter _ members Hnd) Hws) as [_ [Heach _]].
    { intros m' Hm'. apply Hnames. apply filter_In in Hm'. tauto. }
    specialize (Heach m Hin). unfold fits in Heach.
    destruct (Z.leb_spec (points_or_zero g (member_id m) t + pts) int4_max);
      [|lia].
    destruct holders as [|m0 rest]; [destruct Hin|].
    destruct (assign_loop ws 0 g pts (m0 :: rest) t) as [n t'].
    exact Heach.
Qed.

(** C10, counterexample: [assignrolepoints] with an amount of 20000, twice
    the limit, is not rejected: both holders of the role are credited
    with 20000 points and the ledger is not what it was; and
    [removepoints] rejects the amount -5, which is within the limit. *)
Lemma assign_role_points_over_limit :
  fst (assign_role_points decimal_int (fun _ => w_ok) 1 [5]
         [core_member; plain_member] (lit "5") 20000 [alice; bob])
    = AssignmentComplete 2 2 /\
  fetch_points 1 42
    (snd (assign_role_points decimal_int (fun _ => w_ok) 1 [5]
            [core_member; plain_member] (lit "5") 20000 [alice; bob]))
    = Some 20000 /\
  snd (assign_role_points decimal_int (fun _ => w_ok) 1 [5]
         [core_member; plain_member] (lit "5") 20000 [alice; bob])
    <> [alice; bob] /\
  fst (remove_points w_ok w_ok w_ok 1 core_member (-5) [alice; bob])
    = RemoveNotPositive.
Proof. repeat split. vm_compute. discriminate. Qed.

Lemma points_limit_witness :
  add_points w_ok w_ok w_ok 1 core_member 10001 [alice; bob]
  = (InvalidPoints, [alice; bob]).
Proof.
  apply (proj1 (proj2 (proj2 (points_limit decimal_int (lit "10001")
                                w_ok w_ok w_ok 1 core_member 10001
                                [alice; bob])))).
  right. lia.
Defined.

(** X20.  What [assignrolepoints] does with its amount.  For a role of the
    guild held by at least one member that is not a bot (distinct
    members, display names not empty, pool set, no fault), the command
    applies the amount, on which it tests no limit, to every such member
    in turn: a holder whose previous points plus the amount do not exceed
    2147483647 holds [max(0, previous + amount)] points afterwards (an
    entry is created for a holder who had none) and is counted as a
    success; a holder for whom they do exceed it is left as it was and is
    not counted; no other entry changes. *)
Theorem assign_role_points_each py_int ws g guild_roles members role_id
    role_id_int pts t :
  py_int role_id = Some role_id_int ->
  is_in role_id_int guild_roles = true ->
  NoDup (map member_id members) ->
  (forall j, pool (ws j) = true /\ no_fault (ws j)) ->
  (forall m, In m members -> supplied (Some (display_name m)) = true) ->
  let holders :=
    filter (fun m => negb (bot m) && is_in role_id_int (roles m)) members in
  let result :=
    assign_role_points py_int ws g guild_roles members role_id pts t in
  holders <> [] ->
  fst result
    = AssignmentComplete
        (length (filter (fun m => fits g (member_id m) pts t) holders))
        (length holders) /\
  (forall m, In m holders ->
     fetch_points g (member_id m) (snd result)
     = (if fits g (member_id m) pts t
        then Some (Z.max 0 (points_or_zero g (member_id m) t + pts))
        else fetch_points g (member_id m) t)) /\
  (forall g' u',
     (forall m, In m holders -> (g', u') <> (g, member_id m)) ->
     fetch_points g' u' (snd result) = fetch_points g' u' t).
Proof.
  intros Hint Hrole Hnd Hws Hnames holders result Hne.
  unfold result, assign_role_points. rewrite Hint, Hrole. cbn [negb].
  fold holders.
  destruct (assign_loop_each ws g pts holders 0 t
              (nodup_ids_filter _ members Hnd) Hws) as [Hn [Hin Hout]].
  { intros m Hm. apply Hnames. apply filter_In in Hm. tauto. }
  destruct holders as [|m0 rest] eqn:Hh; [congruence|].
  destruct (assign_loop ws 0 g pts (m0 :: rest) t) as [n t'].
  cbn [fst snd] in *. rewrite Hn. repeat split; assumption.
Qed.

Lemma assign_role_points_each_witness :
  fetch_points 1 42
    (snd (assign_role_points decimal_int (fun _ => w_ok) 1 [5]
            [core_member; plain_member] (lit "5") 1000000 [alice; bob]))
  = Some 1000000.
Proof.
  assert (Hnd : NoDup (map member_id [core_member; plain_member])).
  { repeat constructor; simpl; intuition discriminate. }
  destruct (assign_role_points_each decimal_int (fun _ => w_ok) 1 [5]
              [core_member; plain_member] (lit "5") 5 1000000 [alice; bob]
              eq_refl eq_refl Hnd (fun _ => conj eq_refl w_ok_no_fault))
    as [_ [Hin _]].
  - intros m [<- | [<- | []]]; reflexivity.
  - discriminate.
  - apply (Hin core_member). left. reflexivity.
Defined.

(** A holder that already has the largest value the column holds is
    passed over, and the next holder is credited. *)
Example assign_role_points_passes_over :
  assign_role_points decimal_int (fun _ => w_ok) 1 [5]
    [mkMember 9 false (lit "midas") [5]; plain_member] (lit "5") 1
    [alice; midas]
  = (AssignmentComplete 1 2,
     [alice; midas; mkEntry 1 43 (lit "novice") 1 1000 1000]).
Proof. reflexivity. Qed.

(** ** [remove_points] *)

(** X21.  [removepoints] never raises a total.  An amount that is not
    between 1 and 10000, or a bot as target, is refused and the ledger
    is left as it was; otherwise (display name not empty, pool set, no
    fault, unique keys, the points held being a value of the [INTEGER]
    column) the command reports the previous points, the amount asked
    for and the new total [max(0, previous - amount)], which the ledger
    then holds. *)
Theorem remove_points_reply w1 w2 w3 g user pts t :
  (bot user = true \/ pts <= 0 \/ 10000 < pts ->
   snd (remove_points w1 w2 w3 g user pts t) = t /\
   forall a b c, fst (remove_points w1 w2 w3 g user pts t)
                 <> PointsRemoved a b c) /\
  (bot user = false -> 0 < pts <= 10000 ->
   supplied (Some (display_name user)) = true ->
   pool w1 = true -> no_fault w1 -> pool w2 = true -> no_fault w2 ->
   pool w3 = true -> no_fault w3 -> NoDup (map key_of t) ->
   points_or_zero g (member_id user) t <= int4_max ->
   let previous := points_or_zero g (member_id user) t in
   fst (remove_points w1 w2 w3 g user pts t)
     = PointsRemoved previous pts (Z.max 0 (previous - pts)) /\
   fetch_points g (member_id user) (snd (remove_points w1 w2 w3 g user pts t))
     = Some (Z.max 0 (previous - pts))).
Proof.
  split.
  - intros H. unfold remove_points.
    destruct (bot user); [split; [reflexivity | discriminate]|].
    destruct (Z.leb_spec pts 0); [split; [reflexivity | discriminate]|].
    destruct (Z.gtb_spec pts 10000); [split; [reflexivity | discriminate]|].
    destruct H as [H | [H | H]]; [discriminate | lia | lia].
  - intros Hb Hr Hs Hp1 Hf1 Hp2 Hf2 Hp3 Hf3 Hnd Hrange previous.
    unfold remove_points. rewrite Hb.
    destruct (Z.leb_spec pts 0); [lia|].
    destruct (Z.gtb_spec pts 10000); [lia|].
    destruct (update_points_grant w2 g (member_id user) (- pts)
                (display_name user) t Hp2 Hf2 Hs) as [Hok [Hnew _]].
    assert (Hfits : fits g (member_id user) (- pts) t = true)
      by (unfold fits; apply Z.leb_le; lia).
    rewrite Hfits in Hok, Hnew.
    fold previous in Hnew.
    replace (previous + - pts) with (previous - pts) in Hnew by lia.
    destruct (update_points w2 g (member_id user) (- pts)
                (Some (display_name user)) t) as [success t'] eqn:Hup.
    cbn [fst snd] in *. subst success.
    assert (Hnd' : NoDup (map key_of t')).
    { destruct (update_points_cases w2 g (member_id user) (- pts)
                  (Some (display_name user)) t) as [Hc | [Hc | [c Hc]]];
        rewrite Hup in Hc; cbn [snd] in Hc; subst t'.
      - exact Hnd.
      - apply keys_ensured, Hnd.
      - rewrite keys_sql_update by apply key_set_points.
        apply keys_ensured, Hnd. }
    rewrite (stats_points_found w1 g (member_id user) t Hp1 Hf1 Hnd).
    rewrite (stats_points_found w3 g (member_id user) t' Hp3 Hf3 Hnd').
    rewrite Hnew. cbn [fst snd]. split; [reflexivity | exact Hnew].
Qed.

Lemma remove_points_reply_witness :
  snd (remove_points w_ok w_ok w_ok 1 core_member 10001 [alice; bob])
  = [alice; bob].
Proof.
  apply (proj1 (remove_points_reply w_ok w_ok w_ok 1 core_member 10001
                  [alice; bob])).
  right. right. lia.
Defined.

(** ** [_distribute_role_rewards] *)

Lemma dict_get_set_same k v d : dict_get k (py_dict_set k v d) = Some v.
Proof.
  induction d as [|[k' v'] d IH]; cbn [py_dict_set dict_get].
  - rewrite Z.eqb_refl. reflexivity.
  - destruct (Z.eqb_spec k' k) as [->|Hne]; cbn [dict_get].
    + rewrite Z.eqb_refl. reflexivity.
    + destruct (Z.eqb_spec k' k); [congruence | exact IH].
Qed.

Lemma dict_get_set_other k v d k0 :
  k0 <> k -> dict_get k0 (py_dict_set k v d) = dict_get k0 d.
Proof.
  intros Hne. induction d as [|[k' v'] d IH]; cbn [py_dict_set dict_get].
  - destruct (Z.eqb_spec k k0); [congruence | reflexivity].
  - destruct (Z.eqb_spec k' k) as [->|Hk]; cbn [dict_get].
    + destruct (Z.eqb_spec k k0); [congruence | reflexivity].
    + destruct (k' =? k0); [reflexivity | exact IH].
Qed.

Section RoleRewardsFacts.
Variable interval_elapsed : Z -> Z -> bool.
Variable env : nat -> reward_env.
Variable g : Z.
Variable role_config : list (Z * Z).
Hypothesis env_ok :
  forall j, pool (reward_world (env j)) = true
            /\ no_fault (reward_world (env j)).

(** The turn of one member. *)
Lemma reward_member_spec k m t last n :
  supplied (Some (display_name m)) = true ->
  (rewarded interval_elapsed (reward_now (env k)) role_config last g t m
   = true ->
   fetch_points g (member_id m)
     (fst (fst (reward_member interval_elapsed (env k) g role_config m
                  (t, last, n))))
     = Some (Z.max 0 (points_or_zero g (member_id m) t
                      + member_rewards role_config m)) /\
   dict_get (member_id m)
     (snd (fst (reward_member interval_elapsed (env k) g role_config m
                  (t, last, n))))
     = Some (reward_now (env k))) /\
  (rewarded interval_elapsed (reward_now (env k)) role_config last g t m
   = false ->
   reward_member interval_elapsed (env k) g role_config m (t, last, n)
   = (t, last, n)) /\
  (forall g' u', (g', u') <> (g, member_id m) ->
     fetch_points g' u'
       (fst (fst (reward_member interval_elapsed (env k) g role_config m
                    (t, last, n))))
     = fetch_points g' u' t) /\
  (forall u, u <> member_id m ->
     dict_get u
       (snd (fst (reward_member interval_elapsed (env k) g role_config m
                    (t, last, n))))
     = dict_get u last).
Proof.
  intros Hs. unfold rewarded, reward_due, reward_member.
  destruct (bot m); cbn [negb andb].
  { repeat split; try discriminate; reflexivity. }
  destruct (member_rewards role_config m >? 0); cbn [andb].
  2:{ repeat split; try discriminate; reflexivity. }
  destruct (match dict_get (member_id m) last with
            | Some last_reward =>
                interval_elapsed last_reward (reward_now (env k))
            | None => true
            end).
  2:{ repeat split; try discriminate; reflexivity. }
  destruct (update_points_grant (reward_world (env k)) g (member_id m)
              (member_rewards role_config m) (display_name m) t
              (proj1 (env_ok k)) (proj2 (env_ok k)) Hs)
    as [Hok [Hnew Hrej]].
  pose proof (fun g' u' =>
                update_points_other (reward_world (env k)) g (member_id m)
                  (member_rewards role_config m) (Some (display_name m)) t
                  g' u') as Hother.
  destruct (update_points (reward_world (env k)) g (member_id m)
              (member_rewards role_config m) (Some (display_name m)) t)
    as [success t'].
  cbn [fst snd] in *. subst success.
  destruct (fits g (member_id m) (member_rewards role_config m) t).
  - cbn [fst snd]. split; [|split; [discriminate | split]].
    + intros _. split; [exact Hnew | apply dict_get_set_same].
    + exact Hother.
    + intros u Hu. apply dict_get_set_other. exact Hu.
  - rewrite (Hrej eq_refl). cbn [fst snd].
    split; [discriminate|]. repeat split.
Qed.

Lemma reward_loop_spec ms : forall k0 t last n,
  NoDup (map member_id ms) ->
  (forall m, In m ms -> supplied (Some (display_name m)) = true) ->
  (forall i m, nth_error ms i = Some m ->
     (rewarded interval_elapsed (reward_now (env (k0 + i))) role_config
               last g t m = true ->
      fetch_points g (member_id m)
        (fst (fst (reward_loop interval_elapsed env k0 g role_config ms
                     (t, last, n))))
        = Some (Z.max 0 (points_or_zero g (member_id m) t
                         + member_rewards role_config m)) /\
      dict_get (member_id m)
        (snd (fst (reward_loop interval_elapsed env k0 g role_config ms
                     (t, last, n))))
        = Some (reward_now (env (k0 + i)))) /\
     (rewarded interval_elapsed (reward_now (env (k0 + i))) role_config
               last g t m = false ->
      fetch_points g (member_id m)
        (fst (fst (reward_loop interval_elapsed env k0 g role_config ms
                     (t, last, n))))
        = fetch_points g (member_id m) t /\
      dict_get (member_id m)
        (snd (fst (reward_loop interval_elapsed env k0 g role_config ms
                     (t, last, n))))
        = dict_get (member_id m) last)) /\
  (forall g' u',
     (forall m, In m ms -> (g', u') <> (g, member_id m)) ->
     fetch_points g' u'
       (fst (fst (reward_loop interval_elapsed env k0 g role_config ms
                    (t, last, n))))
     = fetch_points g' u' t) /\
  (forall u,
     (forall m, In m ms -> u <> member_id m) ->
     dict_get u
       (snd (fst (reward_loop interval_elapsed env k0 g role_config ms
                    (t, last, n))))
     = dict_get u last).
Proof.
  induction ms as [|m0 rest IH]; intros k0 t last n Hnd Hnames.
  - cbn [reward_loop fst snd]. split; [|split; reflexivity].
    intros [|i] m H; discriminate.
  - cbn [map] in Hnd. inversion Hnd as [|x xs Hnotin Hnd']; subst.
    cbn [reward_loop].
    destruct (reward_member_spec k0 m0 t last n
                (Hnames m0 (or_introl eq_refl)))
      as [Hdue [Hskip [Hother Hlast]]].
    destruct (reward_member interval_elapsed (env k0) g role_config m0
                (t, last, n)) as [[t1 last1] n1] eqn:Hstep.
    cbn [fst snd] in *.
    destruct (IH (S k0) t1 last1 n1 Hnd'
                (fun m Hm => Hnames m (or_intror Hm)))
      as [Hin [Hout Hlout]].
    assert (Hfresh : forall m, In m rest -> member_id m <> member_id m0).
    { intros m Hm Heq. apply Hnotin. rewrite <- Heq. apply in_map. exact Hm. }
    split; [|split].
    + intros [|i] m Hnth.
      * cbn [nth_error] in Hnth. injection Hnth as <-.
        rewrite Nat.add_0_r.
        rewrite Hout, Hlout.
        2:{ intros m Hm Heq. apply (Hfresh m Hm). symmetry. exact Heq. }
        2:{ intros m Hm Heq. injection Heq as Heq.
            apply (Hfresh m Hm). symmetry. exact Heq. }
        split; [exact Hdue|].
        intros Hno. specialize (Hskip Hno). injection Hskip as -> -> _.
        split; reflexivity.
      * cbn [nth_error] in Hnth. pose proof (nth_error_In _ _ Hnth) as Hm.
        replace (k0 + S i)%nat with (S k0 + i)%nat by lia.
        destruct (Hin i m Hnth) as [Hyes Hno].
        assert (Hl : dict_get (member_id m) last1
                     = dict_get (member_id m) last)
          by (apply Hlast, Hfresh, Hm).
        assert (Hp : fetch_points g (member_id m) t1
                     = fetch_points g (member_id m) t).
        { apply Hother. intros Heq. injection Heq as Heq.
          exact (Hfresh m Hm Heq). }
        unfold rewarded, reward_due, fits, points_or_zero in *.
        rewrite Hl, Hp in *.
        split; assumption.
    + intros g' u' Hnone. rewrite Hout.
      * apply Hother. apply Hnone. left. reflexivity.
      * intros m Hm. apply Hnone. right. exact Hm.
    + intros u Hnone. rewrite Hlout.
      * apply Hlast. apply Hnone. left. reflexivity.
      * intros m Hm. apply Hnone. right. exact Hm.
Qed.

End RoleRewardsFacts.

(** X22.  Who is rewarded by a distribution.  For a guild with distinct
    members (display names not empty, pool set, no fault) and a
    configuration that is not empty, [_distribute_role_rewards] rewards
    exactly the members that are due and whose new total the [INTEGER]
    column can hold: a member that is not a bot, whose configured roles
    sum to a positive amount, who was never rewarded or was rewarded long
    enough ago, and whose previous points plus that sum do not exceed
    2147483647, gets the sum (the ledger holds [max(0, previous + sum)])
    and the time of this reward is recorded;
    for every other member, bots, members rewarded too recently and
    members whose update is rejected included, and for every other user,
    the points and the recorded time are unchanged. *)
Theorem distribute_role_rewards_due interval_elapsed env g role_config
    members t last :
  (forall j, pool (reward_world (env j)) = true
             /\ no_fault (reward_world (env j))) ->
  role_config <> [] -> NoDup (map member_id members) ->
  (forall m, In m members -> supplied (Some (display_name m)) = true) ->
  let result :=
    _distribute_role_rewards interval_elapsed env g (Some members)
                             role_config t last in
  (forall k m, nth_error members k = Some m ->
     if rewarded interval_elapsed (reward_now (env k)) role_config last g t m
     then
       fetch_points g (member_id m) (fst (fst result))
         = Some (Z.max 0 (points_or_zero g (member_id m) t
                          + member_rewards role_config m)) /\
       dict_get (member_id m) (snd (fst result))
         = Some (reward_now (env k))
     else
       fetch_points g (member_id m) (fst (fst result))
         = fetch_points g (member_id m) t /\
       dict_get (member_id m) (snd (fst result))
         = dict_get (member_id m) last) /\
  (forall g' u',
     (forall m, In m members -> (g', u') <> (g, member_id m)) ->
     fetch_points g' u' (fst (fst result)) = fetch_points g' u' t) /\
  (forall u,
     (forall m, In m members -> u <> member_id m) ->
     dict_get u (snd (fst result)) = dict_get u last).
Proof.
  intros Hok Hcfg Hnd Hnames result.
  unfold result, _distribute_role_rewards.
  destruct role_config as [|c0 cfg] eqn:Hc; [congruence|]. rewrite <- Hc.
  destruct (reward_loop_spec interval_elapsed env g role_config Hok members
              0 t last 0 Hnd Hnames) as [Hin [Hout Hlout]].
  split; [|split; assumption].
  intros k m Hnth. destruct (Hin k m Hnth) as [Hyes Hno].
  cbn [plus] in *.
  destruct (rewarded interval_elapsed (reward_now (env k)) role_config
                     last g t m); auto.
Qed.

(** The scenario of the specification: a reward at time 0; at time 1
    with an interval not yet elapsed nothing is granted again. *)
Lemma distribute_role_rewards_due_witness :
  points_or_zero 1 42
    (fst (fst (_distribute_role_rewards (fun last now => 2 <=? now - last)
                 (fun _ => mkRewardEnv 1 w_ok) 1
                 (Some [core_member]) [(5, 10)]
                 (fst (fst (_distribute_role_rewards
                              (fun last now => 2 <=? now - last)
                              (fun _ => mkRewardEnv 0 w_ok) 1
                              (Some [core_member]) [(5, 10)] [alice; bob]
                              [])))
                 [(42, 0)])))
  = 10.
Proof.
  assert (Hnd : NoDup (map member_id [core_member])).
  { repeat constructor; simpl; intuition. }
  destruct (distribute_role_rewards_due (fun last now => 2 <=? now - last)
              (fun _ => mkRewardEnv 1 w_ok) 1 [(5, 10)] [core_member]
              (fst (fst (_distribute_role_rewards
                           (fun last now => 2 <=? now - last)
                           (fun _ => mkRewardEnv 0 w_ok) 1
                           (Some [core_member]) [(5, 10)] [alice; bob] [])))
              [(42, 0)]
              (fun _ => conj eq_refl w_ok_no_fault)) as [Hin _].
  - discriminate.
  - exact Hnd.
  - intros m [<- | []]. reflexivity.
  - destruct (Hin 0%nat core_member eq_refl) as [Hp _].
    refine (eq_trans
              (f_equal (fun o => match o with Some c => c | None => 0 end) Hp)
              _).
    reflexivity.
Defined.

(** * Properties of the promotion notices *)

Lemma first_preferred_sendable names text_channels c :
  first_preferred names text_channels = Some c ->
  In c text_channels /\ can_send c = true.
Proof.
  induction names as [|name rest IH]; cbn [first_preferred]; [discriminate|].
  destruct (find (fun c => pystr_eqb (channel_name c) name) text_channels)
    as [c0|] eqn:Hf; [|exact IH].
  destruct (can_send c0) eqn:Hc; [|exact IH].
  intros H. injection H as <-. apply find_some in Hf. tauto.
Qed.

Lemma fallback_sendable text_channels c :
  send_to_fallback_channel text_channels = Some c ->
  In c text_channels /\ can_send c = true.
Proof.
  unfold send_to_fallback_channel.
  destruct (first_preferred preferred_names text_channels) as [c0|] eqn:Hp.
  - intros H. injection H as <-. eapply first_preferred_sendable. exact Hp.
  - intros H. apply find_some in H. exact H.
Qed.

Lemma fallback_none text_channels :
  send_to_fallback_channel text_channels = None <->
  (forall c, In c text_channels -> can_send c = false).
Proof.
  unfold send_to_fallback_channel. split.
  - destruct (first_preferred preferred_names text_channels);
      [discriminate|].
    intros H c Hc. exact (find_none _ _ H c Hc).
  - intros Hall.
    destruct (first_preferred preferred_names text_channels) as [c0|] eqn:Hp.
    + apply first_preferred_sendable in Hp. destruct Hp as [Hin Hs].
      rewrite (Hall c0 Hin) in Hs. discriminate.
    + destruct (find can_send text_channels) as [c|] eqn:Hf; [|reflexivity].
      apply find_some in Hf. destruct Hf as [Hin Hs].
      rewrite (Hall c Hin) in Hs. discriminate.
Qed.

(** X23.  Where a promotion is announced.  Whatever the configured value,
    the channel on which [send_rank_promotion_congratulations] sends is
    one in which the bot can send, and it is a text channel of the guild
    or the configured channel; a configured channel that exists and in
    which the bot can send is the one chosen; a channel is chosen whenever
    the bot can send in some text channel; and with nothing configured
    none is chosen exactly when the bot can send in no text channel. *)
Theorem notification_channel_choice notification_channel_id get_channel
    text_channels :
  (forall c,
     notification_channel notification_channel_id get_channel text_channels
       = Some c ->
     can_send c = true /\
     (In c text_channels \/
      exists id, notification_channel_id = CfgInt id /\ id <> 0
                 /\ get_channel id = Some c)) /\
  (forall id c,
     notification_channel_id = CfgInt id -> id <> 0 ->
     get_channel id = Some c -> can_send c = true ->
     notification_channel notification_channel_id get_channel text_channels
       = Some c) /\
  (forall c, In c text_channels -> can_send c = true ->
     notification_channel notification_channel_id get_channel text_channels
       <> None) /\
  (notification_channel CfgNone get_channel text_channels = None <->
   forall c, In c text_channels -> can_send c = false).
Proof.
  split; [|split; [|split]].
  - intros c. unfold notification_channel.
    destruct (cfg_truthy notification_channel_id) eqn:Ht.
    2:{ intros H. apply fallback_sendable in H. tauto. }
    destruct (match notification_channel_id with
              | CfgInt id => get_channel id
              | _ => None
              end) as [c0|] eqn:Hf.
    2:{ intros H. apply fallback_sendable in H. tauto. }
    destruct (can_send c0) eqn:Hs.
    2:{ intros H. apply fallback_sendable in H. tauto. }
    intros H. injection H as <-. split; [exact Hs|]. right.
    destruct notification_channel_id as [|id|]; try discriminate.
    exists id. split; [reflexivity|]. split; [|exact Hf].
    cbn [cfg_truthy] in Ht. intros ->. discriminate.
  - intros id c -> Hid Hf Hs. unfold notification_channel. cbn [cfg_truthy].
    destruct (Z.eqb_spec id 0); [contradiction|]. cbn [negb].
    rewrite Hf, Hs. reflexivity.
  - intros c Hin Hs. unfold notification_channel.
    assert (Hfb : send_to_fallback_channel text_channels <> None).
    { intros Hn. rewrite fallback_none in Hn.
      rewrite (Hn c Hin) in Hs. discriminate. }
    destruct (cfg_truthy notification_channel_id); [|exact Hfb].
    destruct (match notification_channel_id with
              | CfgInt id => get_channel id
              | _ => None
              end) as [c0|]; [|exact Hfb].
    destruct (can_send c0); [discriminate | exact Hfb].
  - unfold notification_channel. cbn [cfg_truthy]. apply fallback_none.
Qed.

Lemma notification_channel_choice_witness :
  notification_channel (CfgInt 11)
    (fun id => if id =? 11
               then Some (mkChannel 11 (lit "promotions") true) else None)
    [mkChannel 10 (lit "general") true]
  = Some (mkChannel 11 (lit "promotions") true).
Proof.
  apply (proj1 (proj2 (notification_channel_choice (CfgInt 11)
           (fun id => if id =? 11
                      then Some (mkChannel 11 (lit "promotions") true)
                      else None)
           [mkChannel 10 (lit "general") true]))
           11 (mkChannel 11 (lit "promotions") true) eq_refl).
  - discriminate.
  - reflexivity.
  - reflexivity.
Defined.

(** The table of the notices and the tables of the resolver name the same
    roles. *)
Lemma event_rank_roles_agree role rank_name required :
  dict_get role event_rank_roles = Some (rank_name, required) <->
  (dict_get role special_roles = Some rank_name /\ required = 0) \/
  (In (rank_name, required) tiers /\ In role (rank_roles rank_name)).
Proof.
  split.
  - unfold event_rank_roles. cbn [dict_get].
    repeat match goal with
           | |- context [?k =? role] =>
               destruct (Z.eqb_spec k role) as [<- | ?];
                 [intros H; injection H as <- <-;
                  first [left; split; reflexivity
                        | right; split; simpl; tauto]|]
           end.
    discriminate.
  - intros [[Hs ->] | [Ht Hr]].
    + unfold special_roles in Hs. cbn [dict_get] in Hs.
      repeat match type of Hs with
             | context [?k =? role] =>
                 destruct (Z.eqb_spec k role) as [<- | ?];
                   [injection Hs as <-; reflexivity|]
             end.
      discriminate.
    + simpl in Ht.
      destruct Ht as [Ht | [Ht | [Ht | []]]]; injection Ht as <- <-;
        simpl in Hr; intuition (subst; reflexivity).
Qed.

Lemma check_rank_promotion_in added_roles current_points role rank_name :
  In (role, rank_name) (check_rank_promotion added_roles current_points) <->
  In role added_roles /\
  exists required,
    dict_get role event_rank_roles = Some (rank_name, required)
    /\ required <= current_points.
Proof.
  induction added_roles as [|r rest IH]; cbn [check_rank_promotion].
  - split; [intros [] | intros [[] _]].
  - destruct (dict_get r event_rank_roles) as [[rn req]|] eqn:Hd.
    + destruct (Z.geb_spec current_points req) as [Hge|Hlt].
      * cbn [In]. rewrite IH. split.
        -- intros [Heq | [Hin Hex]].
           ++ injection Heq as <- <-. split; [left; reflexivity|].
              exists req. split; [exact Hd | lia].
           ++ split; [right; exact Hin | exact Hex].
        -- intros [[<- | Hin] [required [Hr Hle]]].
           ++ rewrite Hd in Hr. injection Hr as <- <-. left. reflexivity.
           ++ right. split; [exact Hin | eauto].
      * rewrite IH. split.
        -- intros [Hin Hex]. split; [right; exact Hin | exact Hex].
        -- intros [[<- | Hin] [required [Hr Hle]]].
           ++ rewrite Hd in Hr. injection Hr as <- <-. lia.
           ++ split; [exact Hin | eauto].
    + rewrite IH. split.
      * intros [Hin Hex]. split; [right; exact Hin | exact Hex].
      * intros [[<- | Hin] [required [Hr Hle]]].
        -- rewrite Hd in Hr. discriminate.
        -- split; [exact Hin | eauto].
Qed.

(** X24.  Which added roles are congratulated.  [check_rank_promotion]
    calls [send_rank_promotion_congratulations] for an added role, naming
    a rank, exactly when the resolver's own tables give the role that rank
    and the points suffice: the role is a special role with that title and
    the points are not negative, or it is a role of a disciple tier with
    that title and the points reach the threshold of the tier. *)
Theorem promotion_notices added_roles current_points role rank_name :
  In (role, rank_name) (check_rank_promotion added_roles current_points) <->
  In role added_roles /\
  ((dict_get role special_roles = Some rank_name /\ 0 <= current_points) \/
   exists threshold,
     In (rank_name, threshold) tiers /\ In role (rank_roles rank_name)
     /\ threshold <= current_points).
Proof.
  rewrite check_rank_promotion_in. split.
  - intros [Hin [required [Hd Hle]]]. split; [exact Hin|].
    apply event_rank_roles_agree in Hd.
    destruct Hd as [[Hs ->] | [Ht Hr]]; [left; tauto|].
    right. exists required. tauto.
  - intros [Hin [[Hs Hp] | [threshold [Ht [Hr Hle]]]]]; (split; [exact Hin|]).
    + exists 0. split; [|exact Hp].
      apply event_rank_roles_agree. left. tauto.
    + exists threshold. split; [|exact Hle].
      apply event_rank_roles_agree. right. tauto.
Qed.

(** * The range of the points column *)

Lemma sql_update_in_range w p set t :
  (forall e, points e <= int4_max -> points (set e) <= int4_max) ->
  points_in_range t -> points_in_range (snd (sql_update w p set t)).
Proof.
  intros Hset Ht. unfold points_in_range, sql_update. cbn [snd].
  apply Forall_map. eapply Forall_impl; [|exact Ht]. intros e He. cbv beta.
  destruct (p e); [apply Hset, He | exact He].
Qed.

Lemma upsert_in_range w g u nm set t :
  (forall e, points e <= int4_max -> points (set e) <= int4_max) ->
  points_in_range t ->
  points_in_range (sql_upsert w (new_entry w g u nm) set t).
Proof.
  intros Hset Ht. unfold sql_upsert. destruct (existsb _ t).
  - apply sql_update_in_range; assumption.
  - apply Forall_app. split; [exact Ht|]. repeat constructor.
    unfold int4_max. simpl. lia.
Qed.

Lemma ensured_in_range w g u name t :
  points_in_range t -> points_in_range (ensured w g u name t).
Proof.
  intros Ht. unfold ensured. destruct name as [nm|]; [|exact Ht].
  destruct (supplied (Some nm)); [|exact Ht].
  apply upsert_in_range; [auto | exact Ht].
Qed.

(** X25.  The stored points stay within the [INTEGER] column.  If every
    stored value is at most 2147483647, it is still so after
    [add_member], after [update_points], whatever the delta, and after
    [remove_member], in every environment (faults included): an update
    that would store a larger value is rejected and stores nothing. *)
Theorem points_range_kept w g u d name nm t :
  points_in_range t ->
  points_in_range (snd (add_member w g u nm t)) /\
  points_in_range (snd (update_points w g u d name t)) /\
  points_in_range (snd (remove_member w g u t)).
Proof.
  intros Ht. split; [|split].
  - destruct (add_member_cases w g u nm t) as [_ [-> | ->]]; [exact Ht|].
    apply upsert_in_range; [auto | exact Ht].
  - destruct (pool w) eqn:Hp.
    2:{ unfold update_points. rewrite Hp. exact Ht. }
    destruct (faulted_dec w (update_points_calls name)) as [Hf|Hf].
    { rewrite (update_points_fault w g u d name t Hp Hf). exact Ht. }
    rewrite (update_points_run w g u d name t Hp Hf).
    pose proof (ensured_in_range w g u name t Ht) as He.
    destruct (fetch_points g u (ensured w g u name t)) as [c|]; [|exact He].
    destruct (int4 (Z.max 0 (c + d))) eqn:Hfit; [|exact Ht].
    cbn [snd]. apply sql_update_in_range; [|exact He].
    intros e _. cbn [set_points points].
    unfold int4 in Hfit. apply andb_true_iff in Hfit.
    destruct Hfit as [_ Hfit]. apply Z.leb_le in Hfit. exact Hfit.
  - destruct (remove_member_cases w g u t) as [-> | ->]; [exact Ht|].
    apply Forall_forall. intros e He. apply filter_In in He.
    unfold points_in_range in Ht. rewrite Forall_forall in Ht.
    apply Ht. tauto.
Qed.

Lemma points_range_kept_witness :
  points_in_range
    (snd (update_points w_ok 1 9 5 (Some (lit "midas")) [alice; midas])).
Proof.
  apply (proj1 (proj2 (points_range_kept w_ok 1 9 5 (Some (lit "midas"))
                         (lit "midas") [alice; midas]
                         ltac:(repeat constructor; discriminate)))).
Defined.
